(** * Vibe ranking and recommendation core of revel

    A shallow embedding of the two Supabase edge functions
    [supabase/functions/rank-queue/index.ts] and
    [supabase/functions/get-recommendations/index.ts], and the properties
    their specification states about them; then the callbacks of the session
    screen [app/index.tsx] that call them and write the queue they read, and
    properties of the functions alone and together.

    Conventions of the embedding.
    - A JavaScript [number] is an exact real extended with [Infinity],
      [-Infinity] and [NaN]; the special values follow IEEE 754 (0/0 is NaN,
      x/0 is an infinity, Infinity - Infinity is NaN, ...).  The rounding of
      binary64, overflow, underflow and the sign of zero are not modelled.
    - The Supabase client is a record of tables and of injected read
      failures; every query of the source is a function of that record.  The
      feature columns of a row hold what [parseFloat(String(column))] yields.
    - A request is the parsed JSON body; headers and console output are left
      out.
    - The lookups and updates a function awaits with [Promise.all] are taken
      in the order they were issued; every update reaches the store.
    - [serve] returns, next to its HTTP response, the position updates it
      issued and the client they leave behind.
    - A callback of the screen is a function of the state it closes over;
      one call runs to its end before the next, timers are left out and the
      Spotify Web API is a parameter.  Where a query orders by a column and
      names no place for nulls, they are placed as Postgres does: last in an
      ascending order, first in a descending one. *)

From Stdlib Require Import Reals Lra Lia ZArith List String Ascii Bool.
From Stdlib Require Import Permutation Sorted.
From stdpp Require Import base gmap strings list.
Import ListNotations.

(** ** JavaScript values *)

Module JS.

(** [number]: the reals, the two infinities and NaN. *)
Inductive number : Type :=
| Num (x : R)
| Infinity
| NegInfinity
| NaN.

Definition of_nat (n : nat) : number := Num (INR n).

Definition is_finite (a : number) : bool :=
  match a with Num _ => true | _ => false end.

(** The real a finite number stands for (0 for the special values). *)
Definition real_of (a : number) : R :=
  match a with Num x => x | _ => 0%R end.

(** [a === Infinity] *)
Definition is_Infinity (a : number) : bool :=
  match a with Infinity => true | _ => false end.

(** Unary minus. *)
Definition neg (a : number) : number :=
  match a with
  | Num x => Num (- x)
  | Infinity => NegInfinity
  | NegInfinity => Infinity
  | NaN => NaN
  end.

(** [a + b] *)
Definition add (a b : number) : number :=
  match a, b with
  | NaN, _ | _, NaN => NaN
  | Num x, Num y => Num (x + y)
  | Infinity, NegInfinity | NegInfinity, Infinity => NaN
  | Infinity, _ | _, Infinity => Infinity
  | NegInfinity, _ | _, NegInfinity => NegInfinity
  end.

(** [a - b] *)
Definition sub (a b : number) : number := add a (neg b).

(** Sign of a number: [Some Gt] positive, [Some Lt] negative, [Some Eq]
    zero, [None] for NaN. *)
Definition sign (a : number) : option comparison :=
  match a with
  | Num x => if Rlt_dec 0 x then Some Gt
             else if Rlt_dec x 0 then Some Lt else Some Eq
  | Infinity => Some Gt
  | NegInfinity => Some Lt
  | NaN => None
  end.

(** [a * b]: an infinity times zero is NaN. *)
Definition mul (a b : number) : number :=
  match a, b with
  | Num x, Num y => Num (x * y)
  | _, _ =>
      match sign a, sign b with
      | Some Gt, Some Gt | Some Lt, Some Lt => Infinity
      | Some Gt, Some Lt | Some Lt, Some Gt => NegInfinity
      | _, _ => NaN
      end
  end.

(** [a / b]: zero over zero and infinity over infinity are NaN, a
    non-zero number over zero is an infinity of its sign. *)
Definition div (a b : number) : number :=
  match a, b with
  | NaN, _ | _, NaN => NaN
  | Num x, Num y =>
      if Req_dec_T y 0 then
        match sign (Num x) with
        | Some Gt => Infinity
        | Some Lt => NegInfinity
        | _ => NaN
        end
      else Num (x / y)
  | Num _, _ => Num 0
  | _, Num y =>
      match sign a, Rlt_dec y 0 with
      | Some Gt, left _ | Some Lt, right _ => NegInfinity
      | _, _ => Infinity
      end
  | _, _ => NaN
  end.

(** [Math.pow(base, exponent)] for the exponents the source uses, which
    are natural-number literals (always 2). *)
Definition Math_pow (base : number) (exponent : nat) : number :=
  match exponent with
  | O => Num 1
  | S _ =>
      match base with
      | Num x => Num (x ^ exponent)
      | Infinity => Infinity
      | NegInfinity => if Nat.even exponent then Infinity else NegInfinity
      | NaN => NaN
      end
  end.

(** [Math.sqrt(a)]: NaN on a negative argument. *)
Definition Math_sqrt (a : number) : number :=
  match a with
  | Num x => if Rlt_dec x 0 then NaN else Num (sqrt x)
  | Infinity => Infinity
  | _ => NaN
  end.

(** [a > 0] and [a < 0]; both are false on NaN. *)
Definition is_positive (a : number) : bool :=
  match sign a with Some Gt => true | _ => false end.


(** [a <= b] on numbers, false as soon as one side is NaN. *)
Definition le (a b : number) : Prop :=
  match a, b with
  | NaN, _ | _, NaN => False
  | NegInfinity, _ | _, Infinity => True
  | Num x, Num y => (x <= y)%R
  | _, _ => False
  end.

Definition number_eq_dec (a b : number) : {a = b} + {a <> b}.
Proof.
  destruct a as [x| | |], b as [y| | |];
    try (left; reflexivity); try (right; discriminate).
  destruct (Req_dec_T x y) as [e|n].
  - left; f_equal; exact e.
  - right; intros H; apply n; injection H; auto.
Defined.

(** JS truthiness of an optional string: [undefined], [null] and the empty
    string are falsy. *)
Definition truthy (s : option string) : bool :=
  match s with
  | Some s' => negb (String.eqb s' EmptyString)
  | None => false
  end.

(** The string held by a truthy optional string. *)
Definition string_of (s : option string) : string :=
  match s with Some s' => s' | None => EmptyString end.

(** [Array.prototype.sort(comparefn)].  The sort is stable; [comparefn a b]
    positive moves [a] after [b], anything else (negative, zero, NaN) leaves
    the two in place.  Written as the stable insertion sort; when the
    comparator is consistent every stable sort returns the same array. *)
Fixpoint sort_insert {A : Type} (comparefn : A -> A -> number)
         (a : A) (sorted : list A) : list A :=
  match sorted with
  | [] => [a]
  | b :: rest =>
      if is_positive (comparefn a b)
      then b :: sort_insert comparefn a rest
      else a :: sorted
  end.

Definition sort {A : Type} (comparefn : A -> A -> number)
           (array : list A) : list A :=
  fold_right (sort_insert comparefn) [] array.

(** [array.slice(0, end)] for an integer [end]: a negative [end] counts
    from the end of the array. *)
Definition slice0 {A : Type} (array : list A) (end_ : Z) : list A :=
  let len := Z.of_nat (length array) in
  let final := if (end_ <? 0)%Z then Z.max (len + end_) 0
               else Z.min end_ len in
  firstn (Z.to_nat final) array.

(** [array.findIndex(pred)], [None] standing for -1. *)
Fixpoint findIndex {A : Type} (pred : A -> bool) (array : list A)
  : option nat :=
  match array with
  | [] => None
  | a :: rest =>
      if pred a then Some O
      else option_map S (findIndex pred rest)
  end.

End JS.

(** ** Vibe model

    [computeCentroid], [computeDynamicWeights] and [distance] are declared
    twice in the source, with the same text, at
    rank-queue/index.ts:36-112 and get-recommendations/index.ts:26-102. *)

Module Vibe.
Import JS.

Record AudioFeatures : Type := mkFeatures {
  tempo : number;
  energy : number;
  danceability : number;
  valence : number
}.

(** [interface Weights] has the fields of [AudioFeatures]; TypeScript types
    are structural, so the two are one type. *)
Definition Weights : Type := AudioFeatures.

(** [features.reduce((sum, f) => sum + f.field, 0)] *)
Definition reduce_sum (field : AudioFeatures -> number)
           (features : list AudioFeatures) : number :=
  fold_left (fun sum f => add sum (field f)) features (Num 0).

Definition computeCentroid (features : list AudioFeatures) : AudioFeatures :=
  let n := of_nat (length features) in
  {| tempo := div (reduce_sum tempo features) n;
     energy := div (reduce_sum energy features) n;
     danceability := div (reduce_sum danceability features) n;
     valence := div (reduce_sum valence features) n |}.

(** [features.reduce((sum, f) => sum + Math.pow(f.field - mean.field, 2), 0)] *)
Definition reduce_sq (field : AudioFeatures -> number) (mean : AudioFeatures)
           (features : list AudioFeatures) : number :=
  fold_left (fun sum f => add sum (Math_pow (sub (field f) (field mean)) 2))
            features (Num 0).

(** The default value of the parameter [epsilon], 1e-6. *)
Definition default_epsilon : number := Num (1 / 1000000).

(** [epsilon] is [None] when the caller leaves the argument out. *)
Definition computeDynamicWeights (features : list AudioFeatures)
           (epsilon : option number) : Weights :=
  let epsilon := match epsilon with Some e => e | None => default_epsilon end in
  let n := length features in
  if (n <? 2)%nat then
    {| tempo := Num 1; energy := Num 1; danceability := Num 1; valence := Num 1 |}
  else
    let mean := computeCentroid features in
    let variance :=
      {| tempo := div (reduce_sq tempo mean features) (of_nat n);
         energy := div (reduce_sq energy mean features) (of_nat n);
         danceability := div (reduce_sq danceability mean features) (of_nat n);
         valence := div (reduce_sq valence mean features) (of_nat n) |} in
    {| tempo := div (Num 1) (add (tempo variance) epsilon);
       energy := div (Num 1) (add (energy variance) epsilon);
       danceability := div (Num 1) (add (danceability variance) epsilon);
       valence := div (Num 1) (add (valence variance) epsilon) |}.

Definition distance (song centroid : AudioFeatures) (weights : Weights)
  : number :=
  Math_sqrt
    (add (add (add
       (mul (tempo weights) (Math_pow (sub (tempo song) (tempo centroid)) 2))
       (mul (energy weights) (Math_pow (sub (energy song) (energy centroid)) 2)))
       (mul (danceability weights)
            (Math_pow (sub (danceability song) (danceability centroid)) 2)))
       (mul (valence weights) (Math_pow (sub (valence song) (valence centroid)) 2))).

(** Vectors all of whose fields are finite: the specification's
    AudioFeatureVector. *)
Definition finite_features (f : AudioFeatures) : bool :=
  is_finite (tempo f) && is_finite (energy f)
  && is_finite (danceability f) && is_finite (valence f).

(** One field is finite along a sequence of vectors. *)
Definition finite_field (field : AudioFeatures -> number)
           (features : list AudioFeatures) : Prop :=
  forall f, In f features -> is_finite (field f) = true.


(** *** The specification's wording, over the reals *)

Definition Rsum (xs : list R) : R := fold_right Rplus 0%R xs.

(** Arithmetic mean of a sequence. *)
Definition spec_mean (xs : list R) : R := (Rsum xs / INR (length xs))%R.

(** Population variance: the squared deviations from the mean, summed and
    divided by [n] (not [n - 1]). *)
Definition spec_population_variance (xs : list R) : R :=
  (Rsum (map (fun x => (x - spec_mean xs) ^ 2) xs) / INR (length xs))%R.

(** Inverse-variance weight: [1 / (variance + epsilon)]. *)
Definition spec_weight (xs : list R) (epsilon : R) : R :=
  (1 / (spec_population_variance xs + epsilon))%R.

(** The real values of one field along a sequence of vectors. *)
Definition column (field : AudioFeatures -> number)
           (features : list AudioFeatures) : list R :=
  map (fun f => real_of (field f)) features.


(** Weights all of whose fields are positive reals. *)
Definition positive_weights (w : Weights) : Prop :=
  (0 < real_of (tempo w) /\ 0 < real_of (energy w)
   /\ 0 < real_of (danceability w) /\ 0 < real_of (valence w))%R.

(** Weighted squared deviation under the square root of [distance]. *)
Definition spec_weighted_sq (point centroid : AudioFeatures) (weights : Weights)
  : R :=
  (real_of (tempo weights)
     * (real_of (tempo point) - real_of (tempo centroid)) ^ 2
   + real_of (energy weights)
     * (real_of (energy point) - real_of (energy centroid)) ^ 2
   + real_of (danceability weights)
     * (real_of (danceability point) - real_of (danceability centroid)) ^ 2
   + real_of (valence weights)
     * (real_of (valence point) - real_of (valence centroid)) ^ 2)%R.

End Vibe.

(** ** The Supabase client

    The tables and remote procedures the two functions query.  A read either
    fails, with an error message and no data, or returns its rows. *)

Module Supabase.
Import JS Vibe.

Inductive Status : Type := queued | played.

Definition Status_eqb (a b : Status) : bool :=
  match a, b with
  | queued, queued | played, played => true
  | _, _ => false
  end.

(** A row of table [queue]. *)
Record QueueRow : Type := mkRow {
  id : string;
  session_id : string;
  spotify_uri : string;
  song_title : string;
  song_artist : string;
  pos : option Z;
  status : Status;
  played_at : option Z
}.

(** A row of table [popular_songs]; the four feature columns hold what
    [parseFloat(String(column))] yields. *)
Record PopularSong : Type := mkPopular {
  popular_id : string;
  track_name : string;
  artists : option string;
  popular_uri : string;
  popular_features : AudioFeatures
}.

(** The [{ data, error }] pair every query resolves to. *)
Record QueryResult (A : Type) : Type := mkResult {
  data : option A;
  error : option string
}.
Arguments mkResult {A} _ _.
Arguments data {A} _.
Arguments error {A} _.

(** The whole-table reads of the two functions. *)
Inductive Read : Type :=
| ReadQueue        (* rank-queue: queued songs ordered by pos *)
| ReadPlayed       (* get-recommendations: last played songs *)
| ReadSeen         (* get-recommendations: queued and played URIs *)
| ReadCandidates.  (* get-recommendations: popular_songs sample *)

Record Client : Type := mkClient {
  queue : list QueueRow;
  popular_songs : list PopularSong;
  (** remote procedure [get_song_features(search_title)] *)
  get_song_features : string -> QueryResult (list AudioFeatures);
  (** [popular_songs] filtered by [ilike track_name %title%], limit 1 *)
  popular_songs_ilike : string -> QueryResult (list AudioFeatures);
  (** the error message of a read that fails *)
  failure : Read -> option string
}.

Definition respond {A : Type} (supabase : Client) (read : Read) (rows : A)
  : QueryResult A :=
  match failure supabase read with
  | Some message => mkResult None (Some message)
  | None => mkResult (Some rows) None
  end.

(** Stable insertion of [a] in a list ordered by [before]. *)
Fixpoint order_insert {A : Type} (before : A -> A -> bool) (a : A)
         (rows : list A) : list A :=
  match rows with
  | [] => [a]
  | b :: rest =>
      if before a b then a :: rows else b :: order_insert before a rest
  end.

Definition order {A : Type} (before : A -> A -> bool) (rows : list A)
  : list A :=
  fold_right (order_insert before) [] rows.

(** [pos] ascending (nulls are filtered out before). *)
Definition pos_ascending (a b : QueueRow) : bool :=
  match pos a, pos b with
  | Some x, Some y => (x <=? y)%Z
  | None, _ => false
  | Some _, None => true
  end.

(** [played_at] descending, nulls first. *)
Definition played_at_descending (a b : QueueRow) : bool :=
  match played_at a, played_at b with
  | Some x, Some y => (y <=? x)%Z
  | None, _ => true
  | Some _, None => false
  end.

(** [.from("queue").select("*").eq("session_id", sid).eq("status", "queued")
      .not("pos", "is", null).order("pos", { ascending: true })] *)
Definition queued_rows (supabase : Client) (sid : string) : list QueueRow :=
  order pos_ascending
    (List.filter
       (fun r => String.eqb (session_id r) sid
                 && Status_eqb (status r) queued
                 && match pos r with Some _ => true | None => false end)
       (queue supabase)).

Definition select_queued (supabase : Client) (sid : string)
  : QueryResult (list QueueRow) :=
  respond supabase ReadQueue (queued_rows supabase sid).

(** [.from("queue").select("spotify_uri, song_title").eq("session_id", sid)
      .eq("status", "played").order("played_at", { ascending: false }).limit(5)] *)
Definition played_rows (supabase : Client) (sid : string) : list QueueRow :=
  firstn 5
    (order played_at_descending
       (List.filter
          (fun r => String.eqb (session_id r) sid
                    && Status_eqb (status r) played)
          (queue supabase))).

Definition select_played (supabase : Client) (sid : string)
  : QueryResult (list QueueRow) :=
  respond supabase ReadPlayed (played_rows supabase sid).

(** [.from("queue").select("spotify_uri").eq("session_id", sid)
      .in("status", ["queued", "played"])] *)
Definition seen_rows (supabase : Client) (sid : string) : list QueueRow :=
  List.filter
    (fun r => String.eqb (session_id r) sid
              && (Status_eqb (status r) queued
                  || Status_eqb (status r) played))
    (queue supabase).

Definition select_seen (supabase : Client) (sid : string)
  : QueryResult (list QueueRow) :=
  respond supabase ReadSeen (seen_rows supabase sid).

(** [.from("popular_songs").select("*").limit(1000)] *)
Definition select_candidates (supabase : Client)
  : QueryResult (list PopularSong) :=
  respond supabase ReadCandidates (firstn 1000 (popular_songs supabase)).

(** A row with its [pos] replaced. *)
Definition set_pos (r : QueueRow) (position : Z) : QueueRow :=
  mkRow (id r) (session_id r) (spotify_uri r) (song_title r)
        (song_artist r) (Some position) (status r) (played_at r).

(** [.from("queue").update({ pos: position }).eq("id", id)] *)
Definition update_pos (rows : list QueueRow) (target : string) (position : Z)
  : list QueueRow :=
  map (fun r => if String.eqb (id r) target then set_pos r position else r)
      rows.

(** What a sequence of updates does to one row. *)
Definition updated (updates : list (string * Z)) (r : QueueRow) : QueueRow :=
  fold_left (fun r u => if String.eqb (id r) (fst u) then set_pos r (snd u) else r)
            updates r.

(** The updates of one invocation, applied in the order they were issued. *)
Definition apply_updates (updates : list (string * Z)) (supabase : Client)
  : Client :=
  mkClient
    (fold_left (fun rows u => update_pos rows (fst u) (snd u))
               updates (queue supabase))
    (popular_songs supabase) (get_song_features supabase)
    (popular_songs_ilike supabase) (failure supabase).

(** [Deno.env.get] of the two credentials. *)
Record Env : Type := mkEnv {
  SUPABASE_URL : option string;
  SUPABASE_SERVICE_ROLE_KEY : option string
}.

(** [title.toLowerCase().trim()], on ASCII. *)
Definition lower (c : ascii) : ascii :=
  let n := nat_of_ascii c in
  if (65 <=? n)%nat && (n <=? 90)%nat then ascii_of_nat (n + 32) else c.

Fixpoint toLowerCase (s : string) : string :=
  match s with
  | EmptyString => EmptyString
  | String c rest => String (lower c) (toLowerCase rest)
  end.

Definition is_space (c : ascii) : bool :=
  let n := nat_of_ascii c in
  ((9 <=? n)%nat && (n <=? 13)%nat) || (n =? 32)%nat.

Fixpoint trimStart (s : string) : string :=
  match s with
  | EmptyString => EmptyString
  | String c rest => if is_space c then trimStart rest else s
  end.

Fixpoint trimEnd (s : string) : string :=
  match s with
  | EmptyString => EmptyString
  | String c rest =>
      match trimEnd rest with
      | EmptyString => if is_space c then EmptyString
                       else String c EmptyString
      | kept => String c kept
      end
  end.

Definition trim (s : string) : string := trimEnd (trimStart s).

(** What is left of a thrown [Error]: its message. *)
Inductive Completion (A : Type) : Type :=
| Return (value : A)
| Throw (message : string).
Arguments Return {A} _.
Arguments Throw {A} _.

End Supabase.

(** ** rank-queue/index.ts *)

Module RankQueue.
Import JS Vibe Supabase.

Record SongWithFeatures : Type := mkSong {
  row : QueueRow;                      (* the spread [...song] *)
  features : option AudioFeatures;
  distance_of : number                 (* field [distance] *)
}.

(** The body [{ session_id, currently_playing_uri }] of the request. *)
Record Request : Type := mkRequest {
  method : string;
  req_session_id : option string;
  currently_playing_uri : option string
}.

(** The JSON objects the function answers with. *)
Inductive Body : Type :=
| Plain (text : string)
| Message (success : bool) (message : string)
| Ranking (ranked_count total_songs : nat)
          (currently_playing_excluded : bool)
          (songs_with_features songs_not_found : nat)
          (not_found_songs : list string)
          (reference_songs_used : nat)
          (centroid : AudioFeatures) (weights : Weights)
| Failure (error : string).

Record Response : Type := mkResponse {
  http_status : Z;
  body : Body
}.

Definition getFeaturesFromDataset (songTitle : string) (supabase : Client)
  : option AudioFeatures :=
  let cleanTitle := trim (toLowerCase songTitle) in
  let result := get_song_features supabase cleanTitle in
  match error result with
  | Some _ => None
  | None =>
      match data result with
      | None | Some [] => None
      | Some (song :: _) => Some song
      end
  end.

(** The comparator handed to [ranked.sort]. *)
Definition by_distance (a b : SongWithFeatures) : number :=
  if is_Infinity (distance_of a) && is_Infinity (distance_of b) then Num 0
  else if is_Infinity (distance_of a) then Num 1
  else if is_Infinity (distance_of b) then Num (-1)
  else sub (distance_of a) (distance_of b).

(** Step 2: the currently playing song and the songs left to rank. *)
Definition separate (currently_playing_uri : option string)
           (allQueuedSongs : list QueueRow)
  : option QueueRow * list QueueRow :=
  if truthy currently_playing_uri then
    let uri := string_of currently_playing_uri in
    match findIndex (fun s => String.eqb (spotify_uri s) uri)
                    allQueuedSongs with
    | Some playingIndex =>
        (nth_error allQueuedSongs playingIndex,
         List.filter (fun s => negb (String.eqb (spotify_uri s) uri))
                     allQueuedSongs)
    | None => (None, allQueuedSongs)
    end
  else (None, allQueuedSongs).

(** [songs.map(song => getFeaturesFromDataset(song.song_title, supabase)
      .then(features => ({ song, features })))] awaited by [Promise.all] *)
Definition fetch_all (supabase : Client) (songs : list QueueRow)
  : list (QueueRow * option AudioFeatures) :=
  map (fun song => (song, getFeaturesFromDataset (song_title song) supabase))
      songs.

(** The loop filling [referenceFeatures]. *)
Definition found_features (results : list (QueueRow * option AudioFeatures))
  : list AudioFeatures :=
  fold_left (fun referenceFeatures result =>
               match snd result with
               | Some features => referenceFeatures ++ [features]
               | None => referenceFeatures
               end)
            results [].

(** Step 8: the loop filling [ranked] and [notFound]. *)
Definition score (centroid : AudioFeatures) (weights : Weights)
           (songFeatures : list (QueueRow * option AudioFeatures))
  : list SongWithFeatures * list string :=
  fold_left (fun '(ranked, notFound) result =>
               match snd result with
               | Some features =>
                   (ranked ++ [mkSong (fst result) (Some features)
                                      (distance features centroid weights)],
                    notFound)
               | None =>
                   (ranked ++ [mkSong (fst result) None Infinity],
                    notFound ++ [song_title (fst result)])
               end)
            songFeatures ([], []).

(** Steps 3 and 4: the features found for the reference songs, the first
    [min(2, length - 1)] songs to rank. *)
Definition reference_features (supabase : Client) (songsToRank : list QueueRow)
  : list AudioFeatures :=
  let referenceSongs :=
    firstn (Nat.min 2 (length songsToRank - 1)) songsToRank in
  let referenceResults := fetch_all supabase referenceSongs in
  found_features referenceResults.

(** Steps 7 and 8: every song scored, then [ranked.sort]. *)
Definition rank_songs (supabase : Client)
           (centroid : AudioFeatures) (weights : Weights)
           (songsToRank : list QueueRow)
  : list SongWithFeatures * list string :=
  let songFeatures := fetch_all supabase songsToRank in
  let '(unsorted, notFound) := score centroid weights songFeatures in
  (sort by_distance unsorted, notFound).

(** Step 9: the updates pushed on [updatePromises], [position] counting up. *)
Definition position_updates (currentlyPlayingSong : option QueueRow)
           (ranked : list SongWithFeatures) : list (string * Z) :=
  let '(position, updatePromises) :=
    match currentlyPlayingSong with
    | Some playing => (1%Z, [(id playing, 0%Z)])
    | None => (0%Z, [])
    end in
  snd (fold_left (fun '(position, updatePromises) song =>
                    ((position + 1)%Z,
                     updatePromises ++ [(id (row song), position)]))
                 ranked (position, updatePromises)).

(** The [try] block: what it returns or throws, and the updates it issued. *)
Definition try_serve (supabase : Client) (env : Env) (req : Request)
  : Completion Response * list (string * Z) :=
  if negb (truthy (req_session_id req)) then
    (Throw "session_id required", [])
  else if negb (truthy (SUPABASE_URL env))
          || negb (truthy (SUPABASE_SERVICE_ROLE_KEY env)) then
    (Throw "Missing Supabase credentials", [])
  else
    let session_id := string_of (req_session_id req) in
    let result := select_queued supabase session_id in
    match error result with
    | Some message => (Throw ("Failed to fetch queue: " ++ message), [])
    | None =>
      match data result with
      | None | Some [] =>
          (Return (mkResponse 200 (Message true "Queue is empty")), [])
      | Some allQueuedSongs =>
        let '(currentlyPlayingSong, songsToRank) :=
          separate (currently_playing_uri req) allQueuedSongs in
        if (length songsToRank <=? 2)%nat then
          (Return (mkResponse 200 (Message true "Not enough songs to rank")),
           [])
        else
          let referenceFeatures := reference_features supabase songsToRank in
          if (length referenceFeatures =? 0)%nat then
            (Return (mkResponse 200
                       (Message false "Reference songs not found in dataset")),
             [])
          else
            let centroid := computeCentroid referenceFeatures in
            let weights := computeDynamicWeights referenceFeatures None in
            let '(ranked, notFound) :=
              rank_songs supabase centroid weights songsToRank in
            let updatePromises :=
              position_updates currentlyPlayingSong ranked in
            let totalRanked :=
              (length ranked
               + match currentlyPlayingSong with Some _ => 1 | None => 0 end)%nat in
            (Return
               (mkResponse 200
                  (Ranking (length ranked) totalRanked
                     (match currentlyPlayingSong with
                      | Some _ => true | None => false end)
                     (length (List.filter
                                (fun s => match features s with
                                          | Some _ => true | None => false end)
                                ranked))
                     (length notFound) notFound
                     (length referenceFeatures) centroid weights)),
             updatePromises)
      end
    end.

(** What one request leaves behind. *)
Record Outcome : Type := mkOutcome {
  response : Response;
  updates : list (string * Z);
  after : Client
}.

(** The handler: the preflight answer, then the [try] block and its
    [catch]. *)
Definition serve (supabase : Client) (env : Env) (req : Request) : Outcome :=
  if String.eqb (method req) "OPTIONS" then
    mkOutcome (mkResponse 200 (Plain "ok")) [] supabase
  else
    let '(completion, issued) := try_serve supabase env req in
    mkOutcome
      match completion with
      | Return r => r
      | Throw message => mkResponse 500 (Failure message)
      end
      issued (apply_updates issued supabase).

(** The run went through the ranking and answered with its statistics. *)
Definition ranked_ok (o : Outcome) : bool :=
  match body (response o) with
  | Ranking _ _ _ _ _ _ _ _ _ => true
  | _ => false
  end.

(** *** Vocabulary of the properties *)

(** What the scoring loop pushes on [ranked] for one song. *)
Definition scored (supabase : Client) (centroid : AudioFeatures)
           (weights : Weights) (song : QueueRow) : SongWithFeatures :=
  match getFeaturesFromDataset (song_title song) supabase with
  | Some features =>
      mkSong song (Some features) (distance features centroid weights)
  | None => mkSong song None Infinity
  end.

Definition resolved (s : SongWithFeatures) : bool :=
  match features s with Some _ => true | None => false end.


(** The songs of [songs] whose title the dataset resolves have finite
    features. *)
Definition resolved_finite (supabase : Client) (songs : list QueueRow) : bool :=
  forallb (fun song =>
             match getFeaturesFromDataset (song_title song) supabase with
             | Some features => finite_features features
             | None => true
             end)
          songs.

(** Songs at distance [d]. *)
Definition at_distance (d : number) (s : SongWithFeatures) : bool :=
  if number_eq_dec (distance_of s) d then true else false.

(** A distance the comparator orders: a real or the infinite sentinel. *)
Definition orderly (s : SongWithFeatures) : Prop :=
  match distance_of s with Num _ | Infinity => True | _ => False end.

(** Ascending distance, the infinite sentinel being the largest. *)
Definition ascending (a b : SongWithFeatures) : Prop :=
  JS.le (distance_of a) (distance_of b).

(** The identities [ids] numbered consecutively from [position]. *)
Fixpoint numbered (position : Z) (ids : list string) : list (string * Z) :=
  match ids with
  | [] => []
  | i :: rest => (i, position) :: numbered (position + 1) rest
  end.

(** The position of the first ranked song. *)
Definition first_rank (pinned : option QueueRow) : Z :=
  match pinned with Some _ => 1%Z | None => 0%Z end.

(** The songs the queue read returns to a request. *)
Definition loaded (supabase : Client) (req : Request) : list QueueRow :=
  queued_rows supabase (string_of (req_session_id req)).

(** The values one run computes on its way: the pinned song, the songs to
    rank, the centroid and weights of the reference songs, the sorted
    array. *)
Definition pinned_of (supabase : Client) (req : Request) : option QueueRow :=
  fst (separate (currently_playing_uri req) (loaded supabase req)).

Definition pool_of (supabase : Client) (req : Request) : list QueueRow :=
  snd (separate (currently_playing_uri req) (loaded supabase req)).

Definition centroid_of (supabase : Client) (req : Request) : AudioFeatures :=
  computeCentroid (reference_features supabase (pool_of supabase req)).

Definition weights_of (supabase : Client) (req : Request) : Weights :=
  computeDynamicWeights (reference_features supabase (pool_of supabase req)) None.

Definition ranked_of (supabase : Client) (req : Request)
  : list SongWithFeatures :=
  fst (rank_songs supabase (centroid_of supabase req) (weights_of supabase req)
                  (pool_of supabase req)).

(** The stored positions of the rows whose id is [target]. *)
Definition stored_pos (supabase : Client) (target : string) : list (option Z) :=
  map pos (List.filter (fun r => String.eqb (id r) target) (queue supabase)).

(** The request is a call the [try] block takes to its first read. *)
Definition well_formed (env : Env) (req : Request) : bool :=
  negb (String.eqb (method req) "OPTIONS")
  && truthy (req_session_id req)
  && truthy (SUPABASE_URL env) && truthy (SUPABASE_SERVICE_ROLE_KEY env).

End RankQueue.

(** ** get-recommendations/index.ts *)

Module GetRecommendations.
Import JS Vibe Supabase.

Record RankedSong : Type := mkRanked {
  ranked_id : string;
  ranked_track_name : string;
  ranked_artists : string;
  ranked_uri : string;                 (* field [spotify_uri] *)
  ranked_features : AudioFeatures;     (* tempo, energy, danceability, valence *)
  ranked_distance : number             (* field [distance] *)
}.

(** The body [{ session_id, limit = 5 }] of the request; [limit] is an
    integer when it is given. *)
Record Request : Type := mkRequest {
  method : string;
  req_session_id : option string;
  req_limit : option Z
}.

Inductive Body : Type :=
| Plain (text : string)
| Message (success : bool) (message : string)
| NoRecommendations (message : string)   (* success: true, recommendations: [] *)
| Recommendations (recommendations : list RankedSong)
                  (seed_songs_used total_candidates : nat)
| Failure (error : string).

Record Response : Type := mkResponse {
  http_status : Z;
  body : Body
}.

Definition getFeaturesFromPopularSongs (songTitle : string) (supabase : Client)
  : option AudioFeatures :=
  let cleanTitle := trim (toLowerCase songTitle) in
  let result := popular_songs_ilike supabase cleanTitle in
  match error result with
  | Some _ => None
  | None =>
      match data result with
      | None | Some [] => None
      | Some (song :: _) => Some song
      end
  end.

(** The loop over [playedSongs] filling [seedFeatures]. *)
Definition seed_features (supabase : Client) (playedSongs : list QueueRow)
  : list AudioFeatures :=
  fold_left (fun seedFeatures song =>
               match getFeaturesFromPopularSongs (song_title song) supabase with
               | Some features => seedFeatures ++ [features]
               | None => seedFeatures
               end)
            playedSongs [].

(** [new Set((queuedSongs || []).map(s => s.spotify_uri))] *)
Definition exclusion_set (queuedSongs : option (list QueueRow)) : gset string :=
  list_to_set
    (map spotify_uri
         match queuedSongs with Some rows => rows | None => [] end).

(** The loop over [candidates] filling [ranked]. *)
Definition score (excludeUris : gset string)
           (centroid : AudioFeatures) (weights : Weights)
           (candidates : list PopularSong) : list RankedSong :=
  fold_left (fun ranked candidate =>
               if bool_decide (popular_uri candidate ∈ excludeUris) then ranked
               else
                 let candidateFeatures := popular_features candidate in
                 let dist := distance candidateFeatures centroid weights in
                 ranked ++ [mkRanked (popular_id candidate)
                                     (track_name candidate)
                                     match artists candidate with
                                     | Some a => if String.eqb a "" then "Unknown"
                                                 else a
                                     | None => "Unknown"
                                     end
                                     (popular_uri candidate)
                                     candidateFeatures dist])
            candidates [].

(** The comparator handed to [ranked.sort]. *)
Definition by_distance (a b : RankedSong) : number :=
  sub (ranked_distance a) (ranked_distance b).

Definition try_serve (supabase : Client) (env : Env) (req : Request)
  : Completion Response :=
  let limit := match req_limit req with Some l => l | None => 5%Z end in
  if negb (truthy (req_session_id req)) then
    Throw "session_id required"
  else if negb (truthy (SUPABASE_URL env))
          || negb (truthy (SUPABASE_SERVICE_ROLE_KEY env)) then
    Throw "Missing Supabase credentials"
  else
    let session_id := string_of (req_session_id req) in
    let played := select_played supabase session_id in
    match error played with
    | Some message => Throw ("Failed to fetch played songs: " ++ message)
    | None =>
      match data played with
      | None | Some [] =>
          Return (mkResponse 200
                    (Message false "No played songs yet. Play some songs first!"))
      | Some playedSongs =>
        let seedFeatures := seed_features supabase playedSongs in
        if (length seedFeatures =? 0)%nat then
          Return (mkResponse 200
                    (Message false "Seed songs not found in dataset"))
        else
          let centroid := computeCentroid seedFeatures in
          let weights := computeDynamicWeights seedFeatures None in
          (* a failure of this read is logged with console.warn only *)
          let seen := select_seen supabase session_id in
          let excludeUris := exclusion_set (data seen) in
          let pool := select_candidates supabase in
          match error pool with
          | Some message => Throw ("Failed to fetch candidates: " ++ message)
          | None =>
            match data pool with
            | None | Some [] =>
                Return (mkResponse 200
                          (NoRecommendations
                             "No candidates found in popular_songs"))
            | Some candidates =>
              let ranked :=
                sort by_distance
                     (score excludeUris centroid weights candidates) in
              let recommendations := slice0 ranked limit in
              if (length recommendations =? 0)%nat then
                Return (mkResponse 200
                          (NoRecommendations
                             "All popular songs are already in queue"))
              else
                Return (mkResponse 200
                          (Recommendations recommendations
                             (length seedFeatures) (length ranked)))
            end
          end
      end
    end.

(** The handler; it issues no write. *)
Definition serve (supabase : Client) (env : Env) (req : Request) : Response :=
  if String.eqb (method req) "OPTIONS" then mkResponse 200 (Plain "ok")
  else
    match try_serve supabase env req with
    | Return r => r
    | Throw message => mkResponse 500 (Failure message)
    end.

(** The field [recommendations] of a response, empty when it is absent. *)
Definition recommendations_of (r : Response) : list RankedSong :=
  match body r with
  | Recommendations recs _ _ => recs
  | _ => []
  end.

(** A response of the [catch] block: status 500 and an [error] field. *)
Definition is_error (r : Response) : bool :=
  match body r with
  | Failure _ => true
  | _ => (http_status r =? 500)%Z
  end.

(** *** Vocabulary of the properties *)

(** The values one run computes on its way: the seed features, the exclusion
    set, the candidates read, the scored candidates. *)
Definition seeds_of (supabase : Client) (req : Request) : list AudioFeatures :=
  seed_features supabase
                (played_rows supabase (string_of (req_session_id req))).

Definition excluded_of (supabase : Client) (req : Request) : gset string :=
  exclusion_set (data (select_seen supabase (string_of (req_session_id req)))).

Definition candidates_of (supabase : Client) : list PopularSong :=
  firstn 1000 (popular_songs supabase).

Definition scored_of (supabase : Client) (req : Request) : list RankedSong :=
  score (excluded_of supabase req)
        (computeCentroid (seeds_of supabase req))
        (computeDynamicWeights (seeds_of supabase req) None)
        (candidates_of supabase).

Definition limit_of (req : Request) : Z :=
  match req_limit req with Some l => l | None => 5%Z end.

(** The request is a call the [try] block takes to its first read. *)
Definition well_formed (env : Env) (req : Request) : bool :=
  negb (String.eqb (method req) "OPTIONS")
  && truthy (req_session_id req)
  && truthy (SUPABASE_URL env) && truthy (SUPABASE_SERVICE_ROLE_KEY env).

End GetRecommendations.

(** ** Scenarios

    The example data of the specification: the reference vectors A and B,
    and a session whose queue holds P (currently playing), X, Y and Z. *)

Module Scenario.
Import JS Vibe Supabase.

Definition features_120 : AudioFeatures :=
  mkFeatures (Num 120) (Num (8 / 10)) (Num (7 / 10)) (Num (6 / 10)).

Definition features_122 : AudioFeatures :=
  mkFeatures (Num 122) (Num (82 / 100)) (Num (68 / 100)) (Num (58 / 100)).

(** The mean of A and B. *)
Definition features_121 : AudioFeatures :=
  mkFeatures (Num 121) (Num (81 / 100)) (Num (69 / 100)) (Num (59 / 100)).


Definition queued_row (key uri title : string) (position : Z) : QueueRow :=
  mkRow key "session-1" uri title "artist" (Some position) queued None.

Definition played_row (key uri title : string) (at_ : Z) : QueueRow :=
  mkRow key "session-1" uri title "artist" None played (Some at_).

Definition row_P : QueueRow := queued_row "p" "spotify:track:P" "Song P" 0.
Definition row_P' : QueueRow := queued_row "p2" "spotify:track:P" "Song P" 1.
Definition row_X (position : Z) : QueueRow :=
  queued_row "x" "spotify:track:X" "Song X" position.
Definition row_Y (position : Z) : QueueRow :=
  queued_row "y" "spotify:track:Y" " Song Y " position.
Definition row_Z (position : Z) : QueueRow :=
  queued_row "z" "spotify:track:Z" "Song Z" position.
Definition row_C (position : Z) : QueueRow :=
  queued_row "c" "spotify:track:C" "SONG C" position.
Definition row_W : QueueRow := played_row "w" "spotify:track:W" "Song X" 7.

(** The dataset knows "song x" (A), "song y" (B) and "song c" (their mean). *)
Definition dataset (title : string) : QueryResult (list AudioFeatures) :=
  if String.eqb title "song x" then mkResult (Some [features_120]) None
  else if String.eqb title "song y" then mkResult (Some [features_122]) None
  else if String.eqb title "song c" then mkResult (Some [features_121]) None
  else mkResult (Some []) None.

Definition candidate_X : PopularSong :=
  mkPopular "1" "Song X" (Some "artist") "spotify:track:X" features_120.

Definition candidate_N : PopularSong :=
  mkPopular "2" "Song N" None "spotify:track:N" features_122.

Definition client (rows : list QueueRow) (failure : Read -> option string)
  : Client :=
  mkClient rows [candidate_X; candidate_N] dataset dataset failure.

Definition no_failure (read : Read) : option string := None.

(** Only the read of the seen URIs fails. *)
Definition seen_fails (read : Read) : option string :=
  match read with ReadSeen => Some "timeout" | _ => None end.

(** Only the read of the queue fails. *)
Definition queue_fails (read : Read) : option string :=
  match read with ReadQueue => Some "timeout" | _ => None end.

Definition env : Env := mkEnv (Some "https://project.supabase.co") (Some "key").

(** P is playing; X, Y and Z are to be ranked. *)
Definition four_songs : Client :=
  client [row_P; row_X 1; row_Y 2; row_Z 3] no_failure.

(** P is playing; X and Y set the vibe, C sits on it, Z is unknown. *)
Definition five_songs : Client :=
  client [row_P; row_X 1; row_Y 2; row_Z 3; row_C 4] no_failure.

(** The playing URI is queued twice. *)
Definition twice_queued : Client :=
  client [row_P; row_P'; row_X 2; row_Y 3; row_Z 4] no_failure.

(** P is playing; only X and Y are left to rank. *)
Definition three_songs : Client :=
  client [row_P; row_X 1; row_Y 2] no_failure.

(** W was played, X is queued; the exclusion read fails or not. *)
Definition one_played (failure : Read -> option string) : Client :=
  client [row_W; row_X 0] failure.

(** What recommend makes of candidate N for the seed "Song X". *)
Definition song_N : GetRecommendations.RankedSong :=
  GetRecommendations.mkRanked
    "2" "Song N" "Unknown" "spotify:track:N" features_122
    (distance features_122 (computeCentroid [features_120])
              (computeDynamicWeights [features_120] None)).

Definition rerank_request : RankQueue.Request :=
  RankQueue.mkRequest "POST" (Some "session-1") (Some "spotify:track:P").

Definition recommend_request : GetRecommendations.Request :=
  GetRecommendations.mkRequest "POST" (Some "session-1") None.

(** The centroid and weights of the run on [five_songs], and its songs as
    the scoring loop leaves them. *)
Definition five_centroid : AudioFeatures :=
  RankQueue.centroid_of five_songs rerank_request.
Definition five_weights : Weights :=
  RankQueue.weights_of five_songs rerank_request.
Definition song_X : RankQueue.SongWithFeatures :=
  RankQueue.scored five_songs five_centroid five_weights (row_X 1).
Definition song_Y : RankQueue.SongWithFeatures :=
  RankQueue.scored five_songs five_centroid five_weights (row_Y 2).
Definition song_Z : RankQueue.SongWithFeatures :=
  RankQueue.scored five_songs five_centroid five_weights (row_Z 3).
Definition song_C : RankQueue.SongWithFeatures :=
  RankQueue.scored five_songs five_centroid five_weights (row_C 4).

End Scenario.

(** ** The fields of a vector, as values *)

Module Fields.
Import JS Vibe.




End Fields.

(** ** The queue a rerank leaves *)

Module QueueOrder.
Import Supabase RankQueue.

(** [rows] with their [pos] rewritten to consecutive numbers from
    [position]. *)
Fixpoint positioned (position : Z) (rows : list QueueRow) : list QueueRow :=
  match rows with
  | [] => []
  | r :: rest => set_pos r position :: positioned (position + 1) rest
  end.

(** The pinned song, if there is one, then the ranked songs. *)
Definition pinned_then_ranked (supabase : Client) (req : Request)
  : list QueueRow :=
  match pinned_of supabase req with
  | Some playing => [playing]
  | None => []
  end ++ map row (ranked_of supabase req).

(** The columns of a row that no update of [pos] writes. *)
Definition columns_but_pos (r : QueueRow)
  : string * string * string * string * string * Status * option Z :=
  (id r, session_id r, spotify_uri r, song_title r, song_artist r, status r,
   played_at r).

(** A row the queue read of a session does not return. *)
Definition not_in_play (sid : string) (r : QueueRow) : Prop :=
  session_id r <> sid \/ status r = played \/ pos r = None.

(** The titles the dataset does not resolve, in the order of [songs]. *)
Definition unknown_titles (supabase : Client) (songs : list QueueRow)
  : list string :=
  map song_title
      (List.filter
         (fun song =>
            match getFeaturesFromDataset (song_title song) supabase with
            | Some _ => false
            | None => true
            end)
         songs).

End QueueOrder.

(** ** Further scenarios

    A queue with rows a rerank must not touch (a played row, a row of another
    session) and gaps in its positions; a queue whose first two songs the
    dataset does not know. *)

Module Bystanders.
Import JS Vibe Supabase Scenario.

Definition row_U (position : Z) : QueueRow :=
  queued_row "u" "spotify:track:U" "Song U" position.

Definition row_other : QueueRow :=
  mkRow "o" "session-2" "spotify:track:X" "Song X" "artist" (Some 0%Z)
        queued None.

(** W was played, a row belongs to session-2, P is playing; X, Y and Z sit
    at positions 4, 7 and 9. *)
Definition bystanders : Client :=
  client [row_W; row_other; row_P; row_X 4; row_Y 7; row_Z 9] no_failure.

(** Z and U are unknown to the dataset, X and Y come after them. *)
Definition unknown_first : Client :=
  client [row_Z 0; row_U 1; row_X 2; row_Y 3] no_failure.

(** A rerank that names no playing song. *)
Definition plain_request : RankQueue.Request :=
  RankQueue.mkRequest "POST" (Some "session-1") None.

Definition other_request : RankQueue.Request :=
  RankQueue.mkRequest "POST" (Some "session-2") None.

End Bystanders.

(** ** What a recommendation is made of *)

Module Recommending.
Import JS Vibe Supabase GetRecommendations.

(** What the scoring loop pushes on [ranked] for one candidate. *)
Definition as_ranked (centroid : AudioFeatures) (weights : Weights)
           (candidate : PopularSong) : RankedSong :=
  mkRanked (popular_id candidate) (track_name candidate)
           match artists candidate with
           | Some a => if String.eqb a "" then "Unknown" else a
           | None => "Unknown"
           end
           (popular_uri candidate) (popular_features candidate)
           (distance (popular_features candidate) centroid weights).



(** The condition of the [catch] block of get-recommendations. *)
Definition fails (supabase : Client) (env : Env) (req : Request) : bool :=
  negb (String.eqb (method req) "OPTIONS")
  && (negb (truthy (req_session_id req))
      || negb (truthy (SUPABASE_URL env))
      || negb (truthy (SUPABASE_SERVICE_ROLE_KEY env))
      || match failure supabase ReadPlayed with
         | Some _ => true
         | None =>
             match played_rows supabase (string_of (req_session_id req)),
                   seeds_of supabase req,
                   failure supabase ReadCandidates with
             | _ :: _, _ :: _, Some _ => true
             | _, _, _ => false
             end
         end).

(** A request for no recommendation at all. *)
Definition zero_limit_request : Request :=
  mkRequest "POST" (Some "session-1") (Some 0%Z).

End Recommending.

(** ** app/index.tsx: the calls of the session screen

    The callbacks of [SessionScreen] that read and write table [queue] and
    call the two edge functions.  A callback takes the state it closes over
    ([sessionId], [songs], [currentlyPlaying], ...) and returns what it leaves
    of the store and of that state.  Calls to the Spotify Web API are outside
    the model: [fetchTrackDetails] is a parameter, and [queueNextSong] returns
    the song it asks Spotify to queue. *)

Module App.
Import JS Supabase.

(** [interface Song], without the display fields [albumArt] and
    [durationMs], for which table [queue] of the model has no column. *)
Record Song : Type := mkSong {
  song_id : string;                    (* field [id] *)
  uri : string;
  title : string;
  artist : string
}.

(** What is left of [s] after the prefix [p], if [s] starts with it. *)
Fixpoint strip_prefix (p s : string) : option string :=
  match p with
  | EmptyString => Some s
  | String a p' =>
      match s with
      | EmptyString => None
      | String b s' => if Ascii.eqb a b then strip_prefix p' s' else None
      end
  end.

(** [s.startsWith(p)] *)
Definition startsWith (s p : string) : bool :=
  match strip_prefix p s with Some _ => true | None => false end.

(** The class [[a-zA-Z0-9]]. *)
Definition is_alphanumeric (c : ascii) : bool :=
  let n := nat_of_ascii c in
  ((48 <=? n)%nat && (n <=? 57)%nat)
  || ((65 <=? n)%nat && (n <=? 90)%nat)
  || ((97 <=? n)%nat && (n <=? 122)%nat).

(** The longest run of [[a-zA-Z0-9]] at the head of [s]. *)
Fixpoint alphanumerics (s : string) : string :=
  match s with
  | EmptyString => EmptyString
  | String c rest =>
      if is_alphanumeric c then String c (alphanumerics rest) else EmptyString
  end.

(** [urlOrUri.match(/track\/([a-zA-Z0-9]+)/)]: the capture group of the
    leftmost match, [None] when there is no match. *)
Fixpoint match_track (urlOrUri : string) : option string :=
  match urlOrUri with
  | EmptyString => None
  | String _ rest =>
      match strip_prefix "track/" urlOrUri with
      | Some behind =>
          match alphanumerics behind with
          | EmptyString => match_track rest
          | captured => Some captured
          end
      | None => match_track rest
      end
  end.

Definition convertSpotifyUrlToUri (urlOrUri : string) : string :=
  if startsWith urlOrUri "spotify:track:" then urlOrUri
  else
    match match_track urlOrUri with
    | Some captured => "spotify:track:" ++ captured
    | None => urlOrUri
    end.

(** The store with table [queue] replaced. *)
Definition with_queue (supabase : Client) (rows : list QueueRow) : Client :=
  mkClient rows (popular_songs supabase) (get_song_features supabase)
           (popular_songs_ilike supabase) (failure supabase).

(** The [Song] [loadQueue] makes of a row. *)
Definition song_of_row (item : QueueRow) : Song :=
  mkSong (id item) (spotify_uri item) (song_title item) (song_artist item).


(** The row [deletePlayedSong] makes of a queued row. *)
Definition mark_played (now : Z) (r : QueueRow) : QueueRow :=
  mkRow (id r) (session_id r) (spotify_uri r) (song_title r) (song_artist r)
        None played (Some now).

(** [.from("queue").update({ status: "played", played_at: now, pos: null })
      .eq("session_id", sid).eq("spotify_uri", uri).eq("status", "queued")] *)
Definition update_played (rows : list QueueRow) (sid spotifyUri : string)
           (now : Z) : list QueueRow :=
  map (fun r => if String.eqb (session_id r) sid
                   && String.eqb (spotify_uri r) spotifyUri
                   && Status_eqb (status r) queued
                then mark_played now r else r)
      rows.

(** [deletePlayedSong], at time [now]: the store and the value of [songs] it
    leaves; [update_fails] tells whether the update comes back with an
    error. *)
Definition deletePlayedSong (sessionId : option string) (now : Z)
           (update_fails : bool) (spotifyUri : string)
           (supabase : Client) (songs : list Song) : Client * list Song :=
  if negb (truthy sessionId) then (supabase, songs)
  else
    let filtered :=
      List.filter (fun s => negb (String.eqb (uri s) spotifyUri)) songs in
    if update_fails then (supabase, filtered)
    else
      (with_queue supabase
         (update_played (queue supabase) (string_of sessionId) spotifyUri now),
       filtered).

(** [pos] descending.  The query names no place for nulls, and Postgres
    then sorts them first in a descending order. *)
Definition pos_descending (a b : QueueRow) : bool :=
  match pos a, pos b with
  | Some x, Some y => (y <=? x)%Z
  | None, _ => true
  | Some _, None => false
  end.

(** [.from("queue").select("pos").eq("session_id", sid)
      .order("pos", { ascending: false }).limit(1)] *)
Definition top_pos (supabase : Client) (sid : string) : list (option Z) :=
  map pos
      (firstn 1
         (order pos_descending
            (List.filter (fun r => String.eqb (session_id r) sid)
                         (queue supabase)))).

(** [queueData && queueData.length > 0 ? queueData[0].pos + 1 : 0]; a null
    [pos] plus 1 is 1. *)
Definition nextOrder (queueData : option (list (option Z))) : Z :=
  match queueData with
  | Some (Some p :: _) => (p + 1)%Z
  | Some (None :: _) => 1%Z
  | _ => 0%Z
  end.

(** [insertSongToQueue]: the store it leaves.  [read_fails] and
    [insert_fails] tell whether the read of the last position and the insert
    come back with an error (the first is not looked at by the source);
    [fresh] is the id the database gives the new row. *)
Definition insertSongToQueue (sessionId : option string)
           (read_fails insert_fails : bool) (fresh : string) (song : Song)
           (supabase : Client) : Client :=
  if negb (truthy sessionId) then supabase
  else
    let queueData :=
      if read_fails then None
      else Some (top_pos supabase (string_of sessionId)) in
    if insert_fails then supabase
    else
      with_queue supabase
        (queue supabase
         ++ [mkRow fresh (string_of sessionId) (uri song) (title song)
                   (artist song) (Some (nextOrder queueData)) queued None]).

(** [queueNextSong]: the song it asks Spotify to queue, [None] when it
    returns before the request. *)
Definition queueNextSong (accessToken : option string) (songs : list Song)
           (currentlyPlaying : option Song) : option Song :=
  if negb (truthy accessToken) then None
  else if (length songs =? 0)%nat then None
  else
    let nextSong :=
      match currentlyPlaying with
      | None => nth_error songs 0
      | Some playing =>
          let availableSongs :=
            List.filter (fun s => negb (String.eqb (uri s) (uri playing)))
                        songs in
          nth_error availableSongs 0
      end in
    match nextSong with
    | None => None
    | Some next =>
        if match currentlyPlaying with
           | Some playing => String.eqb (uri next) (uri playing)
           | None => false
           end
        then None
        else if String.eqb (uri next) ""
                || negb (startsWith (uri next) "spotify:track:")
        then None
        else Some next
    end.


(** [response.ok] *)
Definition ok (http_status : Z) : bool :=
  (200 <=? http_status)%Z && (http_status <=? 299)%Z.


(** The body [fetchRecommendations] posts to get-recommendations:
    [{ session_id: sessionId, limit: 1 }]. *)
Definition recommendation_request (sessionId : option string)
  : GetRecommendations.Request :=
  GetRecommendations.mkRequest "POST" sessionId (Some 1%Z).

(** [fetchRecommendations]: the songs it returns. *)
Definition fetchRecommendations (sessionId : option string)
           (fetchTrackDetails : string -> option Song)
           (env : Env) (supabase : Client) : list Song :=
  if negb (truthy sessionId) then []
  else
    let response :=
      GetRecommendations.serve supabase env
                               (recommendation_request sessionId) in
    if negb (ok (GetRecommendations.http_status response)) then []
    else
      match GetRecommendations.body response with
      | GetRecommendations.Recommendations recommendations _ _ =>
          if (length recommendations =? 0)%nat then []
          else
            fold_left
              (fun recommendedSongs rec =>
                 let uri :=
                   convertSpotifyUrlToUri (GetRecommendations.ranked_uri rec) in
                 match fetchTrackDetails uri with
                 | Some fullSong => recommendedSongs ++ [fullSong]
                 | None =>
                     recommendedSongs
                       ++ [mkSong (GetRecommendations.ranked_id rec) uri
                                  (GetRecommendations.ranked_track_name rec)
                                  (GetRecommendations.ranked_artists rec)]
                 end)
              recommendations []
      | _ => []
      end.

(** *** Vocabulary of the properties *)

(** The song [fetchRecommendations] falls back to when Spotify has no
    details. *)
Definition fallback_song (rec : GetRecommendations.RankedSong) : Song :=
  mkSong (GetRecommendations.ranked_id rec)
         (convertSpotifyUrlToUri (GetRecommendations.ranked_uri rec))
         (GetRecommendations.ranked_track_name rec)
         (GetRecommendations.ranked_artists rec).

(** Every character of [s] is in [[a-zA-Z0-9]]. *)
Fixpoint alphanumeric (s : string) : bool :=
  match s with
  | EmptyString => true
  | String c rest => is_alphanumeric c && alphanumeric rest
  end.

(** [s] does not go on with a character of [[a-zA-Z0-9]]. *)
Definition ends_the_id (s : string) : bool :=
  match s with
  | EmptyString => true
  | String c _ => negb (is_alphanumeric c)
  end.

(** The rows of a session. *)
Definition session_rows (supabase : Client) (sid : string) : list QueueRow :=
  List.filter (fun r => String.eqb (session_id r) sid) (queue supabase).

End App.

(** ** Scenarios of the session screen *)

Module Evening.
Import JS Vibe Supabase Scenario Bystanders App.

Definition song_P : Song :=
  mkSong "p" "spotify:track:P" "Song P" "artist".

(** A candidate stored with the URL of its track. *)
Definition candidate_U : PopularSong :=
  mkPopular "3" "Song U" (Some "artist")
            "https://open.spotify.com/track/4uLU6hMCjMI75M1A2tKUQC?si=1"
            features_122.

(** W was played; popular_songs holds one row, with a URL. *)
Definition url_dataset : Client :=
  mkClient [row_W] [candidate_U] dataset dataset no_failure.

(** Spotify has no details. *)
Definition no_details (uri : string) : option Song := None.

End Evening.

(** * Properties *)

Import JS Vibe Supabase Scenario.

(** ** Numbers *)

Section NumberFacts.
Local Open Scope R_scope.





Lemma is_positive_Num (x : R) :
  is_positive (Num x) = true <-> 0 < x.
Proof.
  unfold is_positive; simpl.
  destruct (Rlt_dec 0 x); [tauto|].
  destruct (Rlt_dec x 0); split; intros; try discriminate; lra.
Qed.

Lemma is_positive_Num_false (x : R) :
  is_positive (Num x) = false <-> x <= 0.
Proof.
  destruct (is_positive (Num x)) eqn:E.
  - apply is_positive_Num in E. split; [discriminate | lra].
  - split; [|reflexivity]. intros _.
    destruct (Rle_or_lt x 0) as [H|H]; [exact H|].
    apply is_positive_Num in H. congruence.
Qed.



Lemma div_Num (x y : R) : y <> 0 -> div (Num x) (Num y) = Num (x / y).
Proof.
  intros H; simpl; destruct (Req_dec_T y 0); [contradiction | reflexivity].
Qed.


Lemma INR_length_nonzero {A : Type} (l : list A) : l <> [] -> INR (length l) <> 0.
Proof.
  destruct l; [contradiction|]. intros _.
  apply not_0_INR. simpl; lia.
Qed.


Lemma Math_sqrt_Num (x : R) : 0 <= x -> Math_sqrt (Num x) = Num (sqrt x).
Proof. intros H; simpl; destruct (Rlt_dec x 0); [lra | reflexivity]. Qed.

End NumberFacts.

(** ** Vibe model *)

Section VibeFacts.
Local Open Scope R_scope.

(** A finite vector is the vector of its real values. *)
Lemma finite_features_eta (f : AudioFeatures) :
  finite_features f = true ->
  f = mkFeatures (Num (real_of (tempo f))) (Num (real_of (energy f)))
                 (Num (real_of (danceability f))) (Num (real_of (valence f))).
Proof.
  destruct f as [[t| | |] [e| | |] [d| | |] [v| | |]];
    try discriminate; reflexivity.
Qed.

Lemma finite_fields (features : list AudioFeatures) :
  forallb finite_features features = true ->
  finite_field tempo features /\ finite_field energy features
  /\ finite_field danceability features /\ finite_field valence features.
Proof.
  intros H. rewrite forallb_forall in H.
  repeat split; intros f Hf; specialize (H f Hf);
    unfold finite_features in H;
    repeat (apply andb_true_iff in H; destruct H as [H ?]); assumption.
Qed.

Lemma fold_sum_finite (field : AudioFeatures -> number)
      (features : list AudioFeatures) (acc : R) :
  finite_field field features ->
  fold_left (fun sum f => add sum (field f)) features (Num acc)
  = Num (acc + Rsum (column field features)).
Proof.
  revert acc. induction features as [|f rest IH]; intros acc Hfin; simpl.
  - f_equal; lra.
  - assert (Hf : is_finite (field f) = true) by (apply Hfin; left; reflexivity).
    destruct (field f) as [x| | |] eqn:E; try discriminate. simpl.
    rewrite IH.
    + f_equal. lra.
    + intros g Hg. apply Hfin. right; exact Hg.
Qed.

Lemma reduce_sum_finite (field : AudioFeatures -> number)
      (features : list AudioFeatures) :
  finite_field field features ->
  reduce_sum field features = Num (Rsum (column field features)).
Proof.
  intros H. unfold reduce_sum. rewrite fold_sum_finite by exact H.
  f_equal; lra.
Qed.

Lemma column_length (field : AudioFeatures -> number)
      (features : list AudioFeatures) :
  length (column field features) = length features.
Proof. unfold column. apply length_map. Qed.

(** On finite vectors the centroid is the vector of the per-field means. *)
Lemma centroid_field_mean (field : AudioFeatures -> number)
      (features : list AudioFeatures) :
  features <> [] -> finite_field field features ->
  div (reduce_sum field features) (of_nat (length features))
  = Num (spec_mean (column field features)).
Proof.
  intros Hne Hfin. rewrite reduce_sum_finite by exact Hfin.
  unfold of_nat. rewrite div_Num by (apply INR_length_nonzero; exact Hne).
  unfold spec_mean. rewrite column_length. reflexivity.
Qed.

Lemma computeCentroid_finite (features : list AudioFeatures) :
  features <> [] -> forallb finite_features features = true ->
  computeCentroid features
  = mkFeatures (Num (spec_mean (column tempo features)))
               (Num (spec_mean (column energy features)))
               (Num (spec_mean (column danceability features)))
               (Num (spec_mean (column valence features))).
Proof.
  intros Hne Hfin. destruct (finite_fields _ Hfin) as (Ht & He & Hd & Hv).
  unfold computeCentroid.
  rewrite !centroid_field_mean by assumption. reflexivity.
Qed.



Lemma fold_sq_finite (field : AudioFeatures -> number) (mean : AudioFeatures)
      (m : R) (features : list AudioFeatures) (acc : R) :
  field mean = Num m -> finite_field field features ->
  fold_left (fun sum f => add sum (Math_pow (sub (field f) (field mean)) 2))
            features (Num acc)
  = Num (acc + Rsum (map (fun x => (x - m) ^ 2) (column field features))).
Proof.
  intros Hm. revert acc.
  induction features as [|f rest IH]; intros acc Hfin; cbn [fold_left].
  - simpl. f_equal; lra.
  - assert (Hf : is_finite (field f) = true) by (apply Hfin; left; reflexivity).
    rewrite Hm in *.
    destruct (field f) as [x| | |] eqn:E; try discriminate.
    cbn [sub neg add Math_pow].
    rewrite IH by (intros g Hg; apply Hfin; right; exact Hg).
    f_equal. cbn [column map Rsum fold_right real_of]. rewrite E.
    cbn [real_of]. unfold column, Rsum. lra.
Qed.

Lemma Rsum_squares_nonneg (m : R) (xs : list R) :
  0 <= Rsum (map (fun x => (x - m) ^ 2) xs).
Proof.
  induction xs as [|x rest IH]; [simpl; lra|].
  unfold Rsum in *. cbn [map fold_right].
  pose proof (pow2_ge_0 (x - m)). lra.
Qed.

Lemma spec_population_variance_nonneg (xs : list R) :
  0 <= spec_population_variance xs.
Proof.
  unfold spec_population_variance.
  destruct xs as [|x rest].
  - simpl. unfold Rdiv. rewrite Rinv_0. lra.
  - apply Rmult_le_pos; [apply Rsum_squares_nonneg|].
    apply Rlt_le, Rinv_0_lt_compat, lt_0_INR. simpl; lia.
Qed.

(** On finite vectors the variance of the source is the population
    variance. *)
Lemma variance_field (field : AudioFeatures -> number)
      (features : list AudioFeatures) :
  features <> [] -> finite_field field features ->
  field (computeCentroid features) = Num (spec_mean (column field features)) ->
  div (reduce_sq field (computeCentroid features) features)
      (of_nat (length features))
  = Num (spec_population_variance (column field features)).
Proof.
  intros Hne Hfin Hmean. unfold reduce_sq.
  rewrite (fold_sq_finite field _ _ features 0 Hmean Hfin).
  unfold of_nat. rewrite div_Num by (apply INR_length_nonzero; exact Hne).
  unfold spec_population_variance. rewrite column_length.
  f_equal. f_equal. lra.
Qed.

Lemma computeDynamicWeights_few (features : list AudioFeatures)
      (epsilon : option number) :
  (length features < 2)%nat ->
  computeDynamicWeights features epsilon
  = mkFeatures (Num 1) (Num 1) (Num 1) (Num 1).
Proof.
  intros H. unfold computeDynamicWeights.
  apply Nat.ltb_lt in H. rewrite H. reflexivity.
Qed.

Lemma computeDynamicWeights_finite (features : list AudioFeatures)
      (epsilon : option number) :
  (2 <= length features)%nat -> forallb finite_features features = true ->
  let eps := match epsilon with Some e => e | None => default_epsilon end in
  computeDynamicWeights features epsilon
  = mkFeatures
      (div (Num 1) (add (Num (spec_population_variance (column tempo features))) eps))
      (div (Num 1) (add (Num (spec_population_variance (column energy features))) eps))
      (div (Num 1)
           (add (Num (spec_population_variance (column danceability features))) eps))
      (div (Num 1) (add (Num (spec_population_variance (column valence features))) eps)).
Proof.
  intros Hlen Hfin eps.
  assert (Hne : features <> []) by (destruct features; [simpl in Hlen; lia | discriminate]).
  destruct (finite_fields _ Hfin) as (Ht & He & Hd & Hv).
  unfold computeDynamicWeights.
  assert (Hn : (length features <? 2)%nat = false) by (apply Nat.ltb_ge; exact Hlen).
  rewrite Hn. cbn [tempo energy danceability valence].
  rewrite !variance_field; try assumption; try reflexivity;
    rewrite computeCentroid_finite by assumption; reflexivity.
Qed.

Lemma computeDynamicWeights_real (features : list AudioFeatures)
      (epsilon : option number) (e : R) :
  (2 <= length features)%nat -> forallb finite_features features = true ->
  match epsilon with Some x => x | None => default_epsilon end = Num e ->
  0 < e ->
  computeDynamicWeights features epsilon
  = mkFeatures (Num (spec_weight (column tempo features) e))
               (Num (spec_weight (column energy features) e))
               (Num (spec_weight (column danceability features) e))
               (Num (spec_weight (column valence features) e)).
Proof.
  intros Hlen Hfin He Hpos.
  rewrite (computeDynamicWeights_finite features epsilon Hlen Hfin).
  rewrite He. cbn [add]. unfold spec_weight.
  rewrite !div_Num; [reflexivity | | | | ];
    match goal with
    | |- spec_population_variance ?xs + e <> 0 =>
        pose proof (spec_population_variance_nonneg xs); lra
    end.
Qed.

Lemma distance_finite (point centroid : AudioFeatures) (weights : Weights) :
  finite_features point = true -> finite_features centroid = true ->
  finite_features weights = true ->
  distance point centroid weights
  = Math_sqrt (Num (spec_weighted_sq point centroid weights)).
Proof.
  intros Hp Hc Hw.
  rewrite (finite_features_eta _ Hp), (finite_features_eta _ Hc),
    (finite_features_eta _ Hw).
  unfold distance, spec_weighted_sq.
  cbn [tempo energy danceability valence sub neg add mul Math_pow real_of].
  reflexivity.
Qed.

Lemma spec_weighted_sq_same (v : AudioFeatures) (weights : Weights) :
  spec_weighted_sq v v weights = 0.
Proof. unfold spec_weighted_sq. ring. Qed.

Lemma spec_weighted_sq_nonneg (point centroid : AudioFeatures) (weights : Weights) :
  positive_weights weights -> 0 <= spec_weighted_sq point centroid weights.
Proof.
  intros (Ht & He & Hd & Hv). unfold spec_weighted_sq.
  pose proof (pow2_ge_0 (real_of (tempo point) - real_of (tempo centroid))).
  pose proof (pow2_ge_0 (real_of (energy point) - real_of (energy centroid))).
  pose proof (pow2_ge_0 (real_of (danceability point) - real_of (danceability centroid))).
  pose proof (pow2_ge_0 (real_of (valence point) - real_of (valence centroid))).
  nra.
Qed.


End VibeFacts.








(** ** Lists *)

Lemma In_firstn {A : Type} (n : nat) (l : list A) (x : A) :
  In x (firstn n l) -> In x l.
Proof.
  revert l. induction n as [|n IH]; intros [|a l] H; cbn in H; try contradiction.
  destruct H as [<-|H]; [left; reflexivity | right; apply IH, H].
Qed.

(** ** The sort *)

Section SortFacts.
Context {A : Type} (comparefn : A -> A -> number).

Lemma sort_insert_Permutation (a : A) (l : list A) :
  Permutation (sort_insert comparefn a l) (a :: l).
Proof.
  induction l as [|b rest IH]; cbn [sort_insert]; [reflexivity|].
  destruct (is_positive (comparefn a b)); [|reflexivity].
  rewrite IH. apply perm_swap.
Qed.

Lemma sort_Permutation (l : list A) : Permutation (JS.sort comparefn l) l.
Proof.
  induction l as [|a rest IH]; cbn [JS.sort fold_right]; [reflexivity|].
  rewrite sort_insert_Permutation. constructor. exact IH.
Qed.

Lemma sort_In (a : A) (l : list A) : In a (JS.sort comparefn l) <-> In a l.
Proof.
  split; apply Permutation_in;
    [apply sort_Permutation | symmetry; apply sort_Permutation].
Qed.

Lemma sort_length (l : list A) : length (JS.sort comparefn l) = length l.
Proof. apply Permutation_length, sort_Permutation. Qed.

(** Stability: an element is only moved behind elements it compares greater
    than, so a class [keep] that no such pair shares keeps its order. *)
Lemma sort_insert_filter (keep : A -> bool) (a : A) (l : list A) :
  (forall b, In b l -> is_positive (comparefn a b) = true ->
             keep a = true -> keep b = false) ->
  List.filter keep (sort_insert comparefn a l) = List.filter keep (a :: l).
Proof.
  induction l as [|b rest IH]; intros Hsep; cbn [sort_insert]; [reflexivity|].
  destruct (is_positive (comparefn a b)) eqn:Hgt; [|reflexivity].
  cbn [List.filter]. rewrite IH by (intros c Hc; apply Hsep; right; exact Hc).
  cbn [List.filter].
  destruct (keep a) eqn:Ha; [|reflexivity].
  rewrite (Hsep b (or_introl eq_refl) Hgt eq_refl). reflexivity.
Qed.

Lemma sort_filter (keep : A -> bool) (l : list A) :
  (forall a b, In a l -> In b l -> is_positive (comparefn a b) = true ->
               keep a = true -> keep b = false) ->
  List.filter keep (JS.sort comparefn l) = List.filter keep l.
Proof.
  induction l as [|a rest IH]; intros Hsep; cbn [JS.sort fold_right];
    [reflexivity|].
  fold (JS.sort comparefn rest). rewrite sort_insert_filter.
  - cbn [List.filter]. rewrite IH; [reflexivity|].
    intros x y Hx Hy. apply Hsep; right; assumption.
  - intros b Hb. apply Hsep; [left; reflexivity|].
    right. apply sort_In. exact Hb.
Qed.

(** Order: when, on the elements at hand, "not greater" is a transitive
    [below], the result is sorted by it. *)
Context (below : A -> A -> Prop) (orderly : A -> Prop).
Hypothesis below_trans :
  forall a b c, orderly a -> orderly b -> orderly c ->
                below a b -> below b c -> below a c.
Hypothesis not_greater :
  forall a b, orderly a -> orderly b ->
              is_positive (comparefn a b) = false -> below a b.
Hypothesis greater :
  forall a b, orderly a -> orderly b ->
              is_positive (comparefn a b) = true -> below b a.

Lemma sort_insert_sorted (a : A) (l : list A) :
  orderly a -> Forall orderly l ->
  StronglySorted below l -> StronglySorted below (sort_insert comparefn a l).
Proof.
  intros Ha. induction l as [|b rest IH]; intros Hok Hs; cbn [sort_insert].
  - repeat constructor.
  - apply Forall_cons_1 in Hok. destruct Hok as [Hb Hrest].
    apply StronglySorted_inv in Hs. destruct Hs as [Hs Hall].
    destruct (is_positive (comparefn a b)) eqn:Hgt.
    + constructor; [apply IH; assumption|].
      apply List.Forall_forall. intros x Hx.
      apply (Permutation_in _ (sort_insert_Permutation a rest)) in Hx.
      destruct Hx as [<-|Hx]; [apply greater; assumption|].
      rewrite List.Forall_forall in Hall. apply Hall, Hx.
    + constructor; [constructor; assumption|].
      constructor; [apply not_greater; assumption|].
      apply List.Forall_forall. intros x Hx.
      assert (Hbx : below b x) by (rewrite List.Forall_forall in Hall; apply Hall, Hx).
      assert (Hox : orderly x) by (rewrite List.Forall_forall in Hrest; apply Hrest, Hx).
      apply (below_trans a b x); try assumption.
      apply not_greater; assumption.
Qed.

Lemma sort_sorted (l : list A) :
  Forall orderly l -> StronglySorted below (JS.sort comparefn l).
Proof.
  induction l as [|a rest IH]; intros Hok; cbn [JS.sort fold_right].
  - constructor.
  - apply Forall_cons_1 in Hok. destruct Hok as [Ha Hrest].
    fold (JS.sort comparefn rest).
    apply sort_insert_sorted; [exact Ha | | apply IH; exact Hrest].
    apply List.Forall_forall. intros x Hx.
    apply (proj1 (sort_In x rest)) in Hx.
    rewrite List.Forall_forall in Hrest. apply Hrest, Hx.
Qed.

End SortFacts.

(** ** rank-queue *)

Section RankQueueFacts.
Import RankQueue.

Lemma score_fold (supabase : Client) (centroid : AudioFeatures)
      (weights : Weights) (songs : list QueueRow)
      (ranked : list SongWithFeatures) (notFound : list string) :
  fold_left (fun '(ranked, notFound) result =>
               match snd result with
               | Some features =>
                   (ranked ++ [mkSong (fst result) (Some features)
                                      (distance features centroid weights)],
                    notFound)
               | None =>
                   (ranked ++ [mkSong (fst result) None Infinity],
                    notFound ++ [song_title (fst result)])
               end)
            (fetch_all supabase songs) (ranked, notFound)
  = (ranked ++ map (scored supabase centroid weights) songs,
     notFound
       ++ map song_title
            (List.filter
               (fun song =>
                  match getFeaturesFromDataset (song_title song) supabase with
                  | Some _ => false | None => true end)
               songs)).
Proof.
  revert ranked notFound.
  induction songs as [|song rest IH]; intros ranked notFound;
    cbn [fetch_all map fold_left List.filter].
  - rewrite !app_nil_r. reflexivity.
  - fold (fetch_all supabase rest). cbn [snd fst].
    assert (Hs : scored supabase centroid weights song
                 = match getFeaturesFromDataset (song_title song) supabase with
                   | Some features =>
                       mkSong song (Some features)
                              (distance features centroid weights)
                   | None => mkSong song None Infinity
                   end) by reflexivity.
    rewrite Hs.
    destruct (getFeaturesFromDataset (song_title song) supabase) as [f|];
      rewrite IH; cbn [map]; rewrite <- !app_assoc; reflexivity.
Qed.

Lemma score_eq (supabase : Client) (centroid : AudioFeatures)
      (weights : Weights) (songs : list QueueRow) :
  fst (score centroid weights (fetch_all supabase songs))
  = map (scored supabase centroid weights) songs.
Proof. unfold score. rewrite score_fold. reflexivity. Qed.

Lemma rank_songs_eq (supabase : Client) (centroid : AudioFeatures)
      (weights : Weights) (songs : list QueueRow) :
  fst (rank_songs supabase centroid weights songs)
  = JS.sort by_distance (map (scored supabase centroid weights) songs).
Proof.
  unfold rank_songs. rewrite <- score_eq.
  destruct (score centroid weights (fetch_all supabase songs)); reflexivity.
Qed.

Lemma position_fold (ranked : list SongWithFeatures) (position : Z)
      (updatePromises : list (string * Z)) :
  snd (fold_left (fun '(position, updatePromises) song =>
                    ((position + 1)%Z,
                     updatePromises ++ [(id (row song), position)]))
                 ranked (position, updatePromises))
  = updatePromises ++ numbered position (map (fun s => id (row s)) ranked).
Proof.
  revert position updatePromises.
  induction ranked as [|s rest IH]; intros position updatePromises;
    cbn [fold_left map numbered snd].
  - rewrite app_nil_r. reflexivity.
  - rewrite IH, <- app_assoc. reflexivity.
Qed.

Lemma position_updates_eq (currentlyPlayingSong : option QueueRow)
      (ranked : list SongWithFeatures) :
  position_updates currentlyPlayingSong ranked
  = match currentlyPlayingSong with
    | Some playing =>
        (id playing, 0%Z) :: numbered 1 (map (fun s => id (row s)) ranked)
    | None => numbered 0 (map (fun s => id (row s)) ranked)
    end.
Proof.
  unfold position_updates.
  destruct currentlyPlayingSong; rewrite position_fold; reflexivity.
Qed.

(** *** Step 2 *)

Lemma findIndex_Some {A : Type} (pred : A -> bool) (l : list A) (i : nat) :
  findIndex pred l = Some i ->
  exists l1 x l2,
    l = l1 ++ x :: l2 /\ nth_error l i = Some x /\ pred x = true
    /\ forall y, In y l1 -> pred y = false.
Proof.
  revert i. induction l as [|a rest IH]; intros i H; cbn [findIndex] in H;
    [discriminate|].
  destruct (pred a) eqn:Ha.
  - injection H as <-. exists [], a, rest. repeat split; auto.
    intros y [].
  - destruct (findIndex pred rest) as [j|] eqn:Hj; [|discriminate].
    cbn [option_map] in H. injection H as <-.
    destruct (IH j eq_refl) as (l1 & x & l2 & -> & Hn & Hx & Hl1).
    exists (a :: l1), x, l2. repeat split; auto.
    intros y [<-|Hy]; auto.
Qed.

Lemma findIndex_None {A : Type} (pred : A -> bool) (l : list A) :
  findIndex pred l = None -> forall y, In y l -> pred y = false.
Proof.
  induction l as [|a rest IH]; intros H y Hy; [destruct Hy|].
  cbn [findIndex] in H. destruct (pred a) eqn:Ha; [discriminate|].
  destruct (findIndex pred rest); [discriminate|].
  destruct Hy as [<-|Hy]; auto.
Qed.

(** The pinned song is the first loaded song with the playing URI, and every
    song with that URI leaves the songs to rank. *)
Lemma separate_pinned (playing_uri : option string) (allQueuedSongs : list QueueRow)
      (playing : QueueRow) (songsToRank : list QueueRow) :
  separate playing_uri allQueuedSongs = (Some playing, songsToRank) ->
  truthy playing_uri = true
  /\ spotify_uri playing = string_of playing_uri
  /\ (exists before behind,
         allQueuedSongs = before ++ playing :: behind
         /\ forall s, In s before -> spotify_uri s <> string_of playing_uri)
  /\ songsToRank
     = List.filter (fun s => negb (String.eqb (spotify_uri s)
                                              (string_of playing_uri)))
                   allQueuedSongs.
Proof.
  unfold separate. destruct (truthy playing_uri); [|discriminate].
  destruct (findIndex _ allQueuedSongs) as [i|] eqn:Hi; [|discriminate].
  destruct (findIndex_Some _ _ _ Hi) as (l1 & x & l2 & Hall & Hn & Hx & Hl1).
  rewrite Hn. intros H. injection H as <- <-.
  apply String.eqb_eq in Hx. repeat split; auto.
  exists l1, l2. split; [exact Hall|].
  intros s Hs. apply Hl1 in Hs. apply String.eqb_neq in Hs. exact Hs.
Qed.

Lemma separate_unpinned (playing_uri : option string)
      (allQueuedSongs songsToRank : list QueueRow) :
  separate playing_uri allQueuedSongs = (None, songsToRank) ->
  songsToRank = allQueuedSongs
  /\ (truthy playing_uri = true ->
      forall s, In s allQueuedSongs -> spotify_uri s <> string_of playing_uri).
Proof.
  unfold separate. destruct (truthy playing_uri).
  - destruct (findIndex _ allQueuedSongs) as [i|] eqn:Hi.
    + destruct (findIndex_Some _ _ _ Hi) as (l1 & x & l2 & Hall & Hn & _).
      rewrite Hn. discriminate.
    + intros H. injection H as <-. split; [reflexivity|].
      intros _ s Hs. apply (findIndex_None _ _ Hi) in Hs.
      apply String.eqb_neq in Hs. exact Hs.
  - intros H. injection H as <-. split; [reflexivity | discriminate].
Qed.

(** *** The comparator *)

Lemma by_distance_positive_differ (a b : SongWithFeatures) :
  is_positive (by_distance a b) = true -> distance_of a <> distance_of b.
Proof.
  unfold by_distance. intros H E. rewrite E in H.
  destruct (distance_of b) as [x| | |];
    cbn [is_Infinity andb sub add neg] in H.
  - apply is_positive_Num in H. lra.
  - apply is_positive_Num in H. lra.
  - discriminate.
  - discriminate.
Qed.

Lemma ascending_trans (a b c : SongWithFeatures) :
  orderly a -> orderly b -> orderly c ->
  ascending a b -> ascending b c -> ascending a c.
Proof.
  unfold orderly, ascending.
  destruct (distance_of a), (distance_of b), (distance_of c);
    cbn; try tauto. intros; lra.
Qed.

Lemma by_distance_not_greater (a b : SongWithFeatures) :
  orderly a -> orderly b ->
  is_positive (by_distance a b) = false -> ascending a b.
Proof.
  unfold orderly, ascending, by_distance.
  destruct (distance_of a) as [x| | |], (distance_of b) as [y| | |];
    cbn; try tauto.
  - intros _ _ H. apply is_positive_Num_false in H. lra.
  - intros _ _ H. apply is_positive_Num_false in H. lra.
Qed.

Lemma by_distance_greater (a b : SongWithFeatures) :
  orderly a -> orderly b ->
  is_positive (by_distance a b) = true -> ascending b a.
Proof.
  unfold orderly, ascending, by_distance.
  destruct (distance_of a) as [x| | |], (distance_of b) as [y| | |];
    cbn; try tauto.
  - intros _ _ H. apply is_positive_Num in H. lra.
  - intros _ _ H. apply is_positive_Num in H. lra.
Qed.


(** *** Finite features give finite distances *)

Lemma found_features_fold (supabase : Client) (songs : list QueueRow)
      (referenceFeatures : list AudioFeatures) :
  fold_left (fun referenceFeatures result =>
               match snd result with
               | Some features => referenceFeatures ++ [features]
               | None => referenceFeatures
               end)
            (fetch_all supabase songs) referenceFeatures
  = referenceFeatures
      ++ flat_map (fun song =>
                     match getFeaturesFromDataset (song_title song) supabase with
                     | Some features => [features]
                     | None => []
                     end)
                  songs.
Proof.
  revert referenceFeatures.
  induction songs as [|song rest IH]; intros referenceFeatures;
    cbn [fetch_all map fold_left flat_map].
  - rewrite app_nil_r. reflexivity.
  - fold (fetch_all supabase rest). cbn [snd].
    destruct (getFeaturesFromDataset (song_title song) supabase);
      rewrite IH; [rewrite <- app_assoc|]; reflexivity.
Qed.

Lemma reference_features_finite (supabase : Client) (songs : list QueueRow) :
  resolved_finite supabase songs = true ->
  forallb finite_features (reference_features supabase songs) = true.
Proof.
  intros H. unfold reference_features, found_features.
  rewrite found_features_fold. cbn [app].
  apply forallb_forall. intros f Hf. apply in_flat_map in Hf.
  destruct Hf as (song & Hsong & Hf).
  unfold resolved_finite in H. rewrite forallb_forall in H.
  specialize (H song (In_firstn _ _ _ Hsong)).
  destruct (getFeaturesFromDataset (song_title song) supabase) as [g|];
    [|destruct Hf].
  destruct Hf as [<-|[]]. exact H.
Qed.

Lemma computeCentroid_is_finite (features : list AudioFeatures) :
  features <> [] -> forallb finite_features features = true ->
  finite_features (computeCentroid features) = true.
Proof.
  intros Hne Hfin. rewrite computeCentroid_finite by assumption. reflexivity.
Qed.

Lemma computeDynamicWeights_positive (features : list AudioFeatures) :
  forallb finite_features features = true ->
  finite_features (computeDynamicWeights features None) = true
  /\ positive_weights (computeDynamicWeights features None).
Proof.
  intros Hfin.
  destruct (Nat.lt_ge_cases (length features) 2) as [Hlt|Hge].
  - rewrite computeDynamicWeights_few by exact Hlt.
    split; [reflexivity|]. unfold positive_weights; cbn. lra.
  - rewrite (computeDynamicWeights_real features None (1 / 1000000))
      by (assumption || reflexivity || lra).
    split; [reflexivity|]. unfold positive_weights, spec_weight; cbn.
    repeat split;
      match goal with
      | |- (0 < 1 / (spec_population_variance ?xs + _))%R =>
          pose proof (spec_population_variance_nonneg xs);
          apply Rdiv_lt_0_compat; lra
      end.
Qed.

Lemma distance_is_finite (point centroid : AudioFeatures) (weights : Weights) :
  finite_features point = true -> finite_features centroid = true ->
  finite_features weights = true -> positive_weights weights ->
  distance point centroid weights
  = Num (sqrt (spec_weighted_sq point centroid weights)).
Proof.
  intros Hp Hc Hw Hpos. rewrite distance_finite by assumption.
  apply Math_sqrt_Num, spec_weighted_sq_nonneg, Hpos.
Qed.

Lemma scored_row (supabase : Client) (centroid : AudioFeatures)
      (weights : Weights) (song : QueueRow) :
  row (scored supabase centroid weights song) = song.
Proof.
  unfold scored.
  destruct (getFeaturesFromDataset (song_title song) supabase); reflexivity.
Qed.

Lemma map_row_scored (supabase : Client) (centroid : AudioFeatures)
      (weights : Weights) (songs : list QueueRow) :
  map row (map (scored supabase centroid weights) songs) = songs.
Proof.
  induction songs as [|song rest IH]; cbn [map]; [reflexivity|].
  rewrite scored_row, IH. reflexivity.
Qed.



(** *** Step 9 and the store *)

Lemma numbered_fst (position : Z) (ids : list string) :
  map fst (numbered position ids) = ids.
Proof.
  revert position. induction ids as [|i rest IH]; intros position;
    cbn [numbered map fst]; [reflexivity|].
  rewrite IH. reflexivity.
Qed.

Lemma numbered_nth (position : Z) (ids : list string) (i : nat) (x : string) :
  nth_error ids i = Some x ->
  In (x, (position + Z.of_nat i)%Z) (numbered position ids).
Proof.
  revert position i. induction ids as [|y rest IH]; intros position [|i] H;
    cbn in H; try discriminate.
  - injection H as ->. left. f_equal. lia.
  - right. replace (position + Z.of_nat (S i))%Z
      with ((position + 1) + Z.of_nat i)%Z by lia.
    apply IH, H.
Qed.


Lemma apply_updates_queue (updates : list (string * Z)) (supabase : Client) :
  queue (apply_updates updates supabase) = map (updated updates) (queue supabase).
Proof.
  unfold apply_updates. cbn [queue].
  generalize (queue supabase) as rows.
  induction updates as [|u rest IH]; intros rows; cbn [fold_left].
  - unfold updated. cbn [fold_left]. rewrite map_id. reflexivity.
  - rewrite IH. unfold update_pos. rewrite map_map. reflexivity.
Qed.

Lemma updated_id (updates : list (string * Z)) (r : QueueRow) :
  id (updated updates r) = id r.
Proof.
  revert r. induction updates as [|u rest IH]; intros r; [reflexivity|].
  unfold updated in *. cbn [fold_left]. rewrite IH.
  destruct (String.eqb (id r) (fst u)); reflexivity.
Qed.

Lemma updated_untouched (updates : list (string * Z)) (r : QueueRow) :
  ~ In (id r) (map fst updates) -> updated updates r = r.
Proof.
  revert r. induction updates as [|u rest IH]; intros r H; [reflexivity|].
  unfold updated in *. cbn [fold_left].
  cbn [map] in H.
  destruct (String.eqb (id r) (fst u)) eqn:E.
  - apply String.eqb_eq in E. exfalso. apply H. left. symmetry; exact E.
  - apply IH. intros Hin. apply H. right. exact Hin.
Qed.

Lemma updated_pos (updates : list (string * Z)) (r : QueueRow) (p : Z) :
  List.NoDup (map fst updates) -> In (id r, p) updates ->
  updated updates r = set_pos r p.
Proof.
  revert r. induction updates as [|u rest IH]; intros r Hnd Hin; [destruct Hin|].
  cbn [map] in Hnd. apply NoDup_cons_iff in Hnd. destruct Hnd as [Hu Hnd].
  unfold updated in *. cbn [fold_left].
  destruct Hin as [->|Hin].
  - cbn [fst snd]. rewrite String.eqb_refl.
    change (fold_left _ rest (set_pos r p)) with (updated rest (set_pos r p)).
    apply updated_untouched. exact Hu.
  - destruct (String.eqb (id r) (fst u)) eqn:E.
    + apply String.eqb_eq in E. exfalso. apply Hu. rewrite <- E.
      change (id r) with (fst (id r, p)). apply in_map, Hin.
    + apply IH; assumption.
Qed.

Lemma stored_pos_untouched (updates : list (string * Z)) (supabase : Client)
      (target : string) :
  ~ In target (map fst updates) ->
  stored_pos (apply_updates updates supabase) target = stored_pos supabase target.
Proof.
  intros H. unfold stored_pos. rewrite apply_updates_queue.
  induction (queue supabase) as [|r rest IH]; [reflexivity|].
  cbn [map List.filter]. rewrite updated_id.
  destruct (String.eqb (id r) target) eqn:E; [|exact IH].
  apply String.eqb_eq in E. cbn [map]. rewrite IH. f_equal.
  rewrite updated_untouched; [reflexivity|]. rewrite E. exact H.
Qed.

Lemma stored_pos_updated (updates : list (string * Z)) (supabase : Client)
      (target : string) (p : Z) :
  List.NoDup (map fst updates) -> In (target, p) updates ->
  stored_pos (apply_updates updates supabase) target
  = map (fun _ => Some p) (stored_pos supabase target).
Proof.
  intros Hnd Hin. unfold stored_pos. rewrite apply_updates_queue.
  induction (queue supabase) as [|r rest IH]; [reflexivity|].
  cbn [map List.filter]. rewrite updated_id.
  destruct (String.eqb (id r) target) eqn:E; [|exact IH].
  apply String.eqb_eq in E. cbn [map]. rewrite IH. f_equal.
  rewrite (updated_pos updates r p); [reflexivity | exact Hnd |].
  rewrite E. exact Hin.
Qed.

(** With unique ids a stored row has one position. *)
Lemma stored_pos_unique (supabase : Client) (r : QueueRow) :
  List.NoDup (map id (queue supabase)) -> In r (queue supabase) ->
  stored_pos supabase (id r) = [pos r].
Proof.
  unfold stored_pos. induction (queue supabase) as [|a rest IH];
    intros Hnd Hin; [destruct Hin|].
  cbn [map] in Hnd. apply NoDup_cons_iff in Hnd. destruct Hnd as [Ha Hnd].
  cbn [List.filter]. destruct Hin as [->|Hin].
  - rewrite String.eqb_refl. cbn [map]. f_equal.
    assert (E : List.filter (fun x => String.eqb (id x) (id r)) rest = []).
    { clear -Ha. induction rest as [|b l IHl]; [reflexivity|].
      cbn [List.filter]. cbn [map] in Ha.
      destruct (String.eqb (id b) (id r)) eqn:E.
      - apply String.eqb_eq in E. exfalso. apply Ha. left. exact E.
      - apply IHl. intros H. apply Ha. right. exact H. }
    rewrite E. reflexivity.
  - destruct (String.eqb (id a) (id r)) eqn:E.
    + apply String.eqb_eq in E. exfalso. apply Ha. rewrite E.
      apply in_map, Hin.
    + apply IH; assumption.
Qed.

(** *** The run *)

Lemma serve_ranked (supabase : Client) (env : Env) (req : Request) :
  ranked_ok (serve supabase env req) = true ->
  failure supabase ReadQueue = None
  /\ (2 < length (pool_of supabase req))%nat
  /\ reference_features supabase (pool_of supabase req) <> []
  /\ updates (serve supabase env req)
     = position_updates (pinned_of supabase req) (ranked_of supabase req)
  /\ after (serve supabase env req)
     = apply_updates (updates (serve supabase env req)) supabase
  /\ http_status (response (serve supabase env req)) = 200%Z.
Proof.
  unfold ranked_ok, serve.
  destruct (String.eqb (method req) "OPTIONS"); [discriminate|].
  unfold try_serve.
  destruct (negb (truthy (req_session_id req))); [discriminate|].
  destruct (negb (truthy (SUPABASE_URL env))
            || negb (truthy (SUPABASE_SERVICE_ROLE_KEY env))); [discriminate|].
  unfold select_queued, respond.
  destruct (failure supabase ReadQueue) as [message|]; [discriminate|].
  cbn [error data].
  unfold ranked_of, centroid_of, weights_of, pinned_of, pool_of, loaded.
  destruct (queued_rows supabase (string_of (req_session_id req)))
    as [|first others]; [discriminate|].
  destruct (separate (currently_playing_uri req) (first :: others))
    as [currentlyPlayingSong songsToRank].
  cbn [fst snd].
  destruct (length songsToRank <=? 2)%nat eqn:Hlen; [discriminate|].
  destruct (length (reference_features supabase songsToRank) =? 0)%nat eqn:Href;
    [discriminate|].
  destruct (rank_songs supabase _ _ songsToRank) as [ranked notFound].
  cbn [fst snd response updates after body http_status]. intros _.
  apply Nat.leb_gt in Hlen. apply Nat.eqb_neq in Href.
  repeat split; try reflexivity; try lia.
  intros E. rewrite E in Href. apply Href. reflexivity.
Qed.

(** *** What is loaded, what is ranked *)

Lemma order_insert_Permutation {A : Type} (before : A -> A -> bool)
      (a : A) (l : list A) :
  Permutation (order_insert before a l) (a :: l).
Proof.
  induction l as [|b rest IH]; cbn [order_insert]; [reflexivity|].
  destruct (before a b); [reflexivity|].
  rewrite IH. apply perm_swap.
Qed.

Lemma order_Permutation {A : Type} (before : A -> A -> bool) (l : list A) :
  Permutation (order before l) l.
Proof.
  induction l as [|a rest IH]; cbn [order fold_right]; [reflexivity|].
  rewrite order_insert_Permutation. constructor. exact IH.
Qed.

Lemma NoDup_map_filter {A B : Type} (f : A -> B) (keep : A -> bool) (l : list A) :
  List.NoDup (map f l) -> List.NoDup (map f (List.filter keep l)).
Proof.
  induction l as [|a rest IH]; intros H; [constructor|].
  cbn [map] in H. apply NoDup_cons_iff in H. destruct H as [Ha H].
  cbn [List.filter]. destruct (keep a); [|apply IH, H].
  cbn [map]. constructor; [|apply IH, H].
  intros Hin. apply Ha. apply in_map_iff in Hin.
  destruct Hin as (x & Hx & Hin). apply filter_In in Hin.
  apply in_map_iff. exists x. tauto.
Qed.

Lemma NoDup_map_inj {A B : Type} (f : A -> B) (l : list A) (a b : A) :
  List.NoDup (map f l) -> In a l -> In b l -> f a = f b -> a = b.
Proof.
  induction l as [|x rest IH]; intros H Ha Hb E; [destruct Ha|].
  cbn [map] in H. apply NoDup_cons_iff in H. destruct H as [Hx H].
  destruct Ha as [->|Ha], Hb as [->|Hb]; auto.
  - exfalso. apply Hx. rewrite E. apply in_map, Hb.
  - exfalso. apply Hx. rewrite <- E. apply in_map, Ha.
Qed.

Lemma loaded_In (supabase : Client) (req : Request) (r : QueueRow) :
  In r (loaded supabase req) ->
  In r (queue supabase)
  /\ session_id r = string_of (req_session_id req)
  /\ status r = queued /\ pos r <> None.
Proof.
  unfold loaded, queued_rows. intros H.
  apply (Permutation_in _ (order_Permutation _ _)) in H.
  apply filter_In in H. destruct H as [Hin H].
  apply andb_true_iff in H. destruct H as [H Hpos].
  apply andb_true_iff in H. destruct H as [Hsid Hst].
  apply String.eqb_eq in Hsid.
  repeat split; auto.
  - destruct (status r); [reflexivity | discriminate].
  - destruct (pos r); [discriminate | discriminate].
Qed.

Lemma loaded_NoDup (supabase : Client) (req : Request) :
  List.NoDup (map id (queue supabase)) ->
  List.NoDup (map id (loaded supabase req)).
Proof.
  intros H. unfold loaded, queued_rows.
  eapply Permutation_NoDup.
  - apply Permutation_map. symmetry. apply order_Permutation.
  - apply NoDup_map_filter, H.
Qed.

Lemma pool_In (supabase : Client) (req : Request) (s : QueueRow) :
  In s (pool_of supabase req) -> In s (loaded supabase req).
Proof.
  unfold pool_of.
  destruct (separate (currently_playing_uri req) (loaded supabase req))
    as [[playing|] songsToRank] eqn:E; cbn [snd].
  - apply separate_pinned in E. destruct E as (_ & _ & _ & ->).
    intros H. apply filter_In in H. tauto.
  - apply separate_unpinned in E. destruct E as [-> _]. auto.
Qed.

Lemma pool_NoDup (supabase : Client) (req : Request) :
  List.NoDup (map id (queue supabase)) ->
  List.NoDup (map id (pool_of supabase req)).
Proof.
  intros H. apply (loaded_NoDup supabase req) in H. unfold pool_of.
  destruct (separate (currently_playing_uri req) (loaded supabase req))
    as [[playing|] songsToRank] eqn:E; cbn [snd].
  - apply separate_pinned in E. destruct E as (_ & _ & _ & ->).
    apply NoDup_map_filter, H.
  - apply separate_unpinned in E. destruct E as [-> _]. exact H.
Qed.

(** No song with the playing URI is ranked once a song is pinned. *)
Lemma pool_excludes_playing (supabase : Client) (req : Request)
      (playing s : QueueRow) :
  pinned_of supabase req = Some playing -> In s (pool_of supabase req) ->
  spotify_uri s <> string_of (currently_playing_uri req).
Proof.
  unfold pinned_of, pool_of.
  destruct (separate (currently_playing_uri req) (loaded supabase req))
    as [pinned songsToRank] eqn:E; cbn [fst snd].
  intros ->. apply separate_pinned in E. destruct E as (_ & _ & _ & ->).
  intros H. apply filter_In in H. destruct H as [_ H].
  apply negb_true_iff, String.eqb_neq in H. exact H.
Qed.

Lemma pinned_first (supabase : Client) (req : Request) (playing : QueueRow) :
  pinned_of supabase req = Some playing ->
  truthy (currently_playing_uri req) = true
  /\ spotify_uri playing = string_of (currently_playing_uri req)
  /\ exists before behind,
       loaded supabase req = before ++ playing :: behind
       /\ forall s, In s before ->
                    spotify_uri s <> string_of (currently_playing_uri req).
Proof.
  unfold pinned_of.
  destruct (separate (currently_playing_uri req) (loaded supabase req))
    as [pinned songsToRank] eqn:E; cbn [fst].
  intros ->. apply separate_pinned in E. tauto.
Qed.

Lemma pinned_when_matched (supabase : Client) (req : Request) (s : QueueRow) :
  truthy (currently_playing_uri req) = true ->
  In s (loaded supabase req) ->
  spotify_uri s = string_of (currently_playing_uri req) ->
  exists playing, pinned_of supabase req = Some playing.
Proof.
  intros Ht Hs Huri. unfold pinned_of.
  destruct (separate (currently_playing_uri req) (loaded supabase req))
    as [[playing|] songsToRank] eqn:E; cbn [fst].
  - exists playing. reflexivity.
  - apply separate_unpinned in E. destruct E as [_ E].
    exfalso. exact (E Ht s Hs Huri).
Qed.

Lemma ranked_of_eq (supabase : Client) (req : Request) :
  ranked_of supabase req
  = JS.sort by_distance
            (map (scored supabase (centroid_of supabase req)
                         (weights_of supabase req))
                 (pool_of supabase req)).
Proof. unfold ranked_of. apply rank_songs_eq. Qed.

Lemma ranked_rows (supabase : Client) (req : Request) :
  Permutation (map row (ranked_of supabase req)) (pool_of supabase req).
Proof.
  rewrite ranked_of_eq.
  rewrite (Permutation_map row (sort_Permutation by_distance _)).
  rewrite map_row_scored. reflexivity.
Qed.

Lemma ranked_In (supabase : Client) (req : Request) (s : SongWithFeatures) :
  In s (ranked_of supabase req) ->
  In (row s) (pool_of supabase req)
  /\ s = scored supabase (centroid_of supabase req) (weights_of supabase req)
                (row s).
Proof.
  rewrite ranked_of_eq. intros H. apply sort_In in H.
  apply in_map_iff in H. destruct H as (song & <- & Hsong).
  rewrite scored_row. split; [exact Hsong | reflexivity].
Qed.

(** Every update of a run addresses another row. *)
Lemma update_ids_NoDup (supabase : Client) (req : Request) :
  List.NoDup (map id (queue supabase)) ->
  List.NoDup
    (map fst (position_updates (pinned_of supabase req) (ranked_of supabase req))).
Proof.
  intros Hnd. rewrite position_updates_eq.
  assert (Hids : List.NoDup (map (fun s => id (row s)) (ranked_of supabase req))).
  { rewrite <- (map_map row id).
    eapply Permutation_NoDup; [|apply (pool_NoDup supabase req Hnd)].
    apply Permutation_map. symmetry. apply ranked_rows. }
  destruct (pinned_of supabase req) as [playing|] eqn:Hp.
  - cbn [map fst]. rewrite numbered_fst. constructor; [|exact Hids].
    intros Hin. rewrite <- (map_map row id) in Hin.
    apply in_map_iff in Hin. destruct Hin as (r & Hid & Hr).
    apply in_map_iff in Hr. destruct Hr as (s & <- & Hs).
    apply ranked_In in Hs. destruct Hs as [Hpool _].
    destruct (pinned_first _ _ _ Hp) as (_ & Huri & before & behind & Hl & _).
    assert (Hplaying : In playing (loaded supabase req))
      by (rewrite Hl; apply in_elt).
    assert (E : row s = playing).
    { apply (NoDup_map_inj id (loaded supabase req)); auto.
      - apply loaded_NoDup, Hnd.
      - apply pool_In, Hpool. }
    apply (pool_excludes_playing _ _ _ _ Hp Hpool). rewrite E. exact Huri.
  - rewrite numbered_fst. exact Hids.
Qed.

Lemma run_vibe_finite (supabase : Client) (req : Request) :
  reference_features supabase (pool_of supabase req) <> [] ->
  resolved_finite supabase (pool_of supabase req) = true ->
  finite_features (centroid_of supabase req) = true
  /\ finite_features (weights_of supabase req) = true
  /\ positive_weights (weights_of supabase req).
Proof.
  intros Hne Hfin. apply reference_features_finite in Hfin.
  unfold centroid_of, weights_of. split.
  - apply computeCentroid_is_finite; assumption.
  - apply computeDynamicWeights_positive, Hfin.
Qed.



(** After a ranking run, a row an update addresses holds the position of
    that update. *)
Lemma stored_after_run (supabase : Client) (env : Env) (req : Request)
      (r : QueueRow) (p : Z) :
  ranked_ok (serve supabase env req) = true ->
  List.NoDup (map id (queue supabase)) ->
  In r (queue supabase) ->
  In (id r, p) (updates (serve supabase env req)) ->
  stored_pos (after (serve supabase env req)) (id r) = [Some p].
Proof.
  intros Hok Hnd Hr Hin.
  destruct (serve_ranked _ _ _ Hok) as (_ & _ & _ & Hup & Hafter & _).
  rewrite Hafter.
  rewrite (stored_pos_updated _ _ _ p); [| |exact Hin].
  - rewrite stored_pos_unique by assumption. reflexivity.
  - rewrite Hup. apply update_ids_NoDup, Hnd.
Qed.

(** *** Stability of the ranking *)




Lemma at_distance_true (d : number) (s : SongWithFeatures) :
  at_distance d s = true <-> distance_of s = d.
Proof.
  unfold at_distance.
  destruct (number_eq_dec (distance_of s) d); split; auto; discriminate.
Qed.

(** Songs at one distance keep the order they had before the sort. *)
Lemma sort_by_distance_stable (d : number) (l : list SongWithFeatures) :
  List.filter (at_distance d) (JS.sort by_distance l)
  = List.filter (at_distance d) l.
Proof.
  apply sort_filter. intros a b _ _ Hgt Ha.
  apply at_distance_true in Ha.
  destruct (at_distance d b) eqn:Hb; [|reflexivity].
  apply at_distance_true in Hb.
  exfalso. apply (by_distance_positive_differ a b Hgt). congruence.
Qed.


(** *** The sorted array does not depend on the sorting algorithm *)

Lemma at_distance_self (s : SongWithFeatures) :
  at_distance (distance_of s) s = true.
Proof. apply at_distance_true. reflexivity. Qed.

Lemma ascending_refl (a : SongWithFeatures) : orderly a -> ascending a a.
Proof.
  unfold orderly, ascending. destruct (distance_of a); cbn; try tauto.
  intros _. apply Rle_refl.
Qed.

Lemma ascending_antisym (a b : SongWithFeatures) :
  orderly a -> orderly b -> ascending a b -> ascending b a ->
  distance_of a = distance_of b.
Proof.
  unfold orderly, ascending.
  destruct (distance_of a) as [x| | |], (distance_of b) as [y| | |];
    cbn; try tauto.
  intros _ _ H1 H2. f_equal. apply Rle_antisym; assumption.
Qed.

Lemma ascending_head (a b : SongWithFeatures) (r1 r2 : list SongWithFeatures) :
  orderly b -> StronglySorted ascending (b :: r2) ->
  List.filter (at_distance (distance_of a)) (a :: r1)
  = List.filter (at_distance (distance_of a)) (b :: r2) ->
  ascending b a.
Proof.
  intros Hb Hs H.
  assert (Hin : In a (b :: r2)).
  { assert (Ha : In a (List.filter (at_distance (distance_of a)) (a :: r1))).
    { cbn [List.filter]. rewrite at_distance_self. left; reflexivity. }
    rewrite H in Ha. apply filter_In in Ha. tauto. }
  destruct Hin as [<-|Hin]; [apply ascending_refl, Hb|].
  apply StronglySorted_inv in Hs. destruct Hs as [_ Hall].
  rewrite List.Forall_forall in Hall. apply Hall, Hin.
Qed.

(** Two ascending arrays in which the songs at each distance come in the
    same order are the same array. *)
Lemma ascending_stable_unique (l1 l2 : list SongWithFeatures) :
  Forall orderly l1 -> Forall orderly l2 ->
  StronglySorted ascending l1 -> StronglySorted ascending l2 ->
  (forall d, List.filter (at_distance d) l1 = List.filter (at_distance d) l2) ->
  l1 = l2.
Proof.
  revert l2. induction l1 as [|a r1 IH]; intros [|b r2] Hok1 Hok2 Hs1 Hs2 H.
  - reflexivity.
  - specialize (H (distance_of b)). cbn [List.filter] in H.
    rewrite at_distance_self in H. discriminate.
  - specialize (H (distance_of a)). cbn [List.filter] in H.
    rewrite at_distance_self in H. discriminate.
  - apply Forall_cons_1 in Hok1, Hok2.
    destruct Hok1 as [Ha Hr1]. destruct Hok2 as [Hb Hr2].
    assert (E : distance_of a = distance_of b).
    { apply ascending_antisym; try assumption.
      - apply (ascending_head b a r2 r1 Ha Hs1). symmetry. apply H.
      - apply (ascending_head a b r1 r2 Hb Hs2). apply H. }
    pose proof (H (distance_of a)) as Hd. cbn [List.filter] in Hd.
    rewrite at_distance_self in Hd. rewrite E in Hd at 2.
    rewrite at_distance_self in Hd. injection Hd as <- Htail.
    f_equal. apply IH; try assumption.
    + apply StronglySorted_inv in Hs1. tauto.
    + apply StronglySorted_inv in Hs2. tauto.
    + intros d. specialize (H d). cbn [List.filter] in H.
      destruct (at_distance d a) eqn:Ed; [|exact H].
      apply at_distance_true in Ed. subst d. exact Htail.
Qed.

(** Whatever stable sort the engine runs, an array that is ascending and
    keeps the songs of every distance in their order is the array of
    [JS.sort]. *)
Lemma sort_by_distance_unique (unsorted ranked : list SongWithFeatures) :
  Forall orderly unsorted ->
  StronglySorted ascending ranked ->
  (forall d, List.filter (at_distance d) ranked
             = List.filter (at_distance d) unsorted) ->
  ranked = JS.sort by_distance unsorted.
Proof.
  intros Hok Hs H. rewrite List.Forall_forall in Hok.
  apply ascending_stable_unique.
  - apply List.Forall_forall. intros s Hin. apply Hok.
    assert (Hf : In s (List.filter (at_distance (distance_of s)) ranked)).
    { apply filter_In. split; [exact Hin | apply at_distance_self]. }
    rewrite H in Hf. apply filter_In in Hf. tauto.
  - apply List.Forall_forall. intros s Hin. apply Hok.
    apply (proj1 (sort_In by_distance s unsorted)). exact Hin.
  - exact Hs.
  - apply (sort_sorted by_distance ascending orderly).
    + apply ascending_trans.
    + apply by_distance_not_greater.
    + apply by_distance_greater.
    + apply List.Forall_forall. exact Hok.
  - intros d. rewrite sort_by_distance_stable. apply H.
Qed.

(** *** The updates of a run and the rows they leave *)

Lemma run_updates (supabase : Client) (env : Env) (req : Request) :
  ranked_ok (serve supabase env req) = true ->
  updates (serve supabase env req)
  = match pinned_of supabase req with
    | Some playing => [(id playing, 0%Z)]
    | None => []
    end
    ++ numbered (first_rank (pinned_of supabase req))
                (map (fun s => id (row s)) (ranked_of supabase req)).
Proof.
  intros Hok.
  destruct (serve_ranked _ _ _ Hok) as (_ & _ & _ & Hup & _).
  rewrite Hup, position_updates_eq.
  destruct (pinned_of supabase req); reflexivity.
Qed.

Lemma pinned_loaded (supabase : Client) (req : Request) (playing : QueueRow) :
  pinned_of supabase req = Some playing -> In playing (loaded supabase req).
Proof.
  intros Hp.
  destruct (pinned_first _ _ _ Hp) as (_ & _ & before & behind & -> & _).
  apply in_elt.
Qed.

Lemma pinned_stored (supabase : Client) (env : Env) (req : Request)
      (playing : QueueRow) :
  ranked_ok (serve supabase env req) = true ->
  List.NoDup (map id (queue supabase)) ->
  pinned_of supabase req = Some playing ->
  In (id playing, 0%Z) (updates (serve supabase env req))
  /\ stored_pos (after (serve supabase env req)) (id playing) = [Some 0%Z].
Proof.
  intros Hok Hnd Hp.
  assert (Hin : In (id playing, 0%Z) (updates (serve supabase env req)))
    by (rewrite run_updates, Hp by exact Hok; left; reflexivity).
  split; [exact Hin|].
  apply stored_after_run; auto.
  apply pinned_loaded, loaded_In in Hp. tauto.
Qed.

Lemma ranked_stored (supabase : Client) (env : Env) (req : Request)
      (i : nat) (s : SongWithFeatures) :
  ranked_ok (serve supabase env req) = true ->
  List.NoDup (map id (queue supabase)) ->
  nth_error (ranked_of supabase req) i = Some s ->
  stored_pos (after (serve supabase env req)) (id (row s))
  = [Some (first_rank (pinned_of supabase req) + Z.of_nat i)%Z].
Proof.
  intros Hok Hnd Hi.
  assert (Hs : In s (ranked_of supabase req))
    by (eapply nth_error_In; exact Hi).
  apply ranked_In in Hs. destruct Hs as [Hpool _].
  apply stored_after_run; auto.
  - apply pool_In, loaded_In in Hpool. tauto.
  - rewrite run_updates by exact Hok. apply in_or_app. right.
    apply numbered_nth. rewrite nth_error_map, Hi. reflexivity.
Qed.

(** A loaded song with the playing URI that is not the pinned one is not
    addressed by any update. *)
Lemma duplicate_untouched (supabase : Client) (env : Env) (req : Request)
      (playing other : QueueRow) :
  ranked_ok (serve supabase env req) = true ->
  List.NoDup (map id (queue supabase)) ->
  pinned_of supabase req = Some playing ->
  In other (loaded supabase req) ->
  spotify_uri other = string_of (currently_playing_uri req) ->
  other <> playing ->
  ~ In other (pool_of supabase req)
  /\ (forall s, In s (ranked_of supabase req) -> id (row s) <> id other)
  /\ ~ In (id other) (map fst (updates (serve supabase env req))).
Proof.
  intros Hok Hnd Hp Hother Huri Hdiff.
  assert (Hpool : ~ In other (pool_of supabase req)).
  { intros Hin. exact (pool_excludes_playing _ _ _ _ Hp Hin Huri). }
  assert (Hranked : forall s, In s (ranked_of supabase req) ->
                              id (row s) <> id other).
  { intros s Hs E. apply ranked_In in Hs. destruct Hs as [Hs _].
    apply Hpool.
    rewrite <- (NoDup_map_inj id (loaded supabase req) (row s) other); auto.
    - apply loaded_NoDup, Hnd.
    - apply pool_In, Hs. }
  split; [exact Hpool|]. split; [exact Hranked|].
  rewrite run_updates, Hp by exact Hok.
  rewrite map_app, numbered_fst. cbn [map fst app].
  intros [E|Hin].
  - apply Hdiff. symmetry.
    apply (NoDup_map_inj id (loaded supabase req)); auto.
    + apply loaded_NoDup, Hnd.
    + apply pinned_loaded, Hp.
  - apply in_map_iff in Hin. destruct Hin as (s & E & Hs).
    exact (Hranked s Hs E).
Qed.

Lemma apply_no_update (supabase : Client) : apply_updates [] supabase = supabase.
Proof. destruct supabase; reflexivity. Qed.

Lemma rank_well_formed (env : Env) (req : Request) :
  well_formed env req = true ->
  String.eqb (method req) "OPTIONS" = false
  /\ truthy (req_session_id req) = true
  /\ truthy (SUPABASE_URL env) = true
  /\ truthy (SUPABASE_SERVICE_ROLE_KEY env) = true.
Proof.
  unfold well_formed. intros H.
  repeat (apply andb_true_iff in H; destruct H as [H ?]).
  apply negb_true_iff in H. auto.
Qed.

End RankQueueFacts.





(** C4.  When the queue read returns songs and, the currently playing song
    set aside, at most 2 of them are left to rank, rerank issues no update,
    leaves the store as it was and answers 200 with success and the message
    "Not enough songs to rank". *)
Theorem too_few_songs_no_write
        (supabase : Client) (env : Env) (req : RankQueue.Request) :
  RankQueue.well_formed env req = true ->
  failure supabase ReadQueue = None ->
  RankQueue.loaded supabase req <> [] ->
  (length (RankQueue.pool_of supabase req) < 3)%nat ->
  RankQueue.serve supabase env req
  = RankQueue.mkOutcome
      (RankQueue.mkResponse 200
         (RankQueue.Message true "Not enough songs to rank"))
      [] supabase.
Proof.
  intros Hwf Hf Hl Hp.
  destruct (rank_well_formed _ _ Hwf) as (Hm & Hs & Hu & Hk).
  unfold RankQueue.serve. rewrite Hm.
  unfold RankQueue.try_serve. rewrite Hs, Hu, Hk. cbn [negb orb].
  unfold select_queued, respond. rewrite Hf. cbn [error data].
  unfold RankQueue.pool_of, RankQueue.loaded in *.
  destruct (queued_rows supabase (string_of (RankQueue.req_session_id req)))
    as [|first others]; [contradiction|].
  destruct (RankQueue.separate (RankQueue.currently_playing_uri req)
                               (first :: others))
    as [currentlyPlayingSong songsToRank].
  cbn [snd] in Hp.
  assert (E : (length songsToRank <=? 2)%nat = true)
    by (apply Nat.leb_le; lia).
  rewrite E. rewrite apply_no_update. reflexivity.
Qed.

Lemma too_few_songs_no_write_witness :
  RankQueue.serve three_songs env rerank_request
  = RankQueue.mkOutcome
      (RankQueue.mkResponse 200
         (RankQueue.Message true "Not enough songs to rank"))
      [] three_songs.
Proof.
  apply (too_few_songs_no_write three_songs env rerank_request);
    try reflexivity.
  - cbv. discriminate.
  - cbv. lia.
Defined.

(** C10.  When the currently playing URI matches several loaded entries, the
    first of them is pinned and gets position 0.  Every other matching entry
    is left out of the songs to rank and of the updates, so that it keeps
    the position it had; if that position is one of 1, ..., number of ranked
    songs, a ranked song ends up on the same position: the stored positions
    are then not distinct, let alone contiguous. *)
Theorem duplicate_playing_uri
        (supabase : Client) (env : Env) (req : RankQueue.Request)
        (a b : QueueRow) :
  RankQueue.ranked_ok (RankQueue.serve supabase env req) = true ->
  List.NoDup (map id (queue supabase)) ->
  truthy (RankQueue.currently_playing_uri req) = true ->
  In a (RankQueue.loaded supabase req) ->
  In b (RankQueue.loaded supabase req) ->
  a <> b ->
  spotify_uri a = string_of (RankQueue.currently_playing_uri req) ->
  spotify_uri b = string_of (RankQueue.currently_playing_uri req) ->
  let o := RankQueue.serve supabase env req in
  let ranked := RankQueue.ranked_of supabase req in
  exists playing,
    RankQueue.pinned_of supabase req = Some playing
    /\ spotify_uri playing = string_of (RankQueue.currently_playing_uri req)
    /\ (exists before behind,
           RankQueue.loaded supabase req = before ++ playing :: behind
           /\ forall s, In s before ->
                        spotify_uri s
                        <> string_of (RankQueue.currently_playing_uri req))
    /\ In (id playing, 0%Z) (RankQueue.updates o)
    /\ RankQueue.stored_pos (RankQueue.after o) (id playing) = [Some 0%Z]
    /\ (exists other,
           In other (RankQueue.loaded supabase req)
           /\ spotify_uri other = string_of (RankQueue.currently_playing_uri req)
           /\ other <> playing)
    /\ forall other,
        In other (RankQueue.loaded supabase req) ->
        spotify_uri other = string_of (RankQueue.currently_playing_uri req) ->
        other <> playing ->
        ~ In other (RankQueue.pool_of supabase req)
        /\ ~ In (id other) (map fst (RankQueue.updates o))
        /\ RankQueue.stored_pos (RankQueue.after o) (id other) = [pos other]
        /\ forall k,
            pos other = Some k ->
            (1 <= k <= Z.of_nat (length ranked))%Z ->
            exists s,
              In s ranked
              /\ id (RankQueue.row s) <> id other
              /\ RankQueue.stored_pos (RankQueue.after o) (id (RankQueue.row s))
                 = [Some k].
Proof.
  intros Hok Hnd Ht Ha Hb Hab Hua Hub o ranked.
  destruct (pinned_when_matched _ _ _ Ht Ha Hua) as [playing Hp].
  exists playing.
  destruct (pinned_first _ _ _ Hp) as (_ & Hpu & Hfirst).
  destruct (pinned_stored _ _ _ _ Hok Hnd Hp) as [Hin Hstored].
  split; [exact Hp|]. split; [exact Hpu|]. split; [exact Hfirst|].
  split; [exact Hin|]. split; [exact Hstored|]. split.
  - destruct (String.eqb (id a) (id playing)) eqn:E.
    + apply String.eqb_eq in E.
      apply (NoDup_map_inj id (RankQueue.loaded supabase req)) in E;
        [|apply loaded_NoDup, Hnd | exact Ha | apply pinned_loaded, Hp].
      subst a. exists b. repeat split; auto.
    + exists a. repeat split; auto.
      intros ->. rewrite String.eqb_refl in E. discriminate.
  - intros other Hother Huri Hdiff.
    destruct (duplicate_untouched _ _ _ _ _ Hok Hnd Hp Hother Huri Hdiff)
      as (Hpool & Hranked & Hup).
    assert (Hkeep : RankQueue.stored_pos (RankQueue.after o) (id other)
                    = [pos other]).
    { destruct (serve_ranked _ _ _ Hok) as (_ & _ & _ & _ & Hafter & _).
      unfold o. rewrite Hafter, stored_pos_untouched by exact Hup.
      apply stored_pos_unique; [exact Hnd|].
      apply loaded_In in Hother. tauto. }
    split; [exact Hpool|]. split; [exact Hup|]. split; [exact Hkeep|].
    intros k Hk Hrange.
    destruct (nth_error ranked (Z.to_nat (k - 1))) as [s|] eqn:Hs.
    + exists s. split; [eapply nth_error_In; exact Hs|].
      split; [apply Hranked; eapply nth_error_In; exact Hs|].
      unfold o. rewrite (ranked_stored _ _ _ _ _ Hok Hnd Hs), Hp.
      cbn [RankQueue.first_rank]. do 2 f_equal. lia.
    + apply nth_error_None in Hs. fold ranked in Hs. lia.
Qed.

Lemma duplicate_playing_uri_witness :
  let o := RankQueue.serve twice_queued env rerank_request in
  RankQueue.pinned_of twice_queued rerank_request = Some row_P
  /\ RankQueue.stored_pos (RankQueue.after o) "p" = [Some 0%Z]
  /\ ~ In "p2"%string (map fst (RankQueue.updates o))
  /\ RankQueue.stored_pos (RankQueue.after o) "p2" = [Some 1%Z]
  /\ exists s,
       In s (RankQueue.ranked_of twice_queued rerank_request)
       /\ id (RankQueue.row s) <> "p2"%string
       /\ RankQueue.stored_pos (RankQueue.after o) (id (RankQueue.row s))
          = [Some 1%Z].
Proof.
  intros o.
  destruct (duplicate_playing_uri twice_queued env rerank_request row_P row_P')
    as (playing & Hp & _ & _ & _ & Hstored & _ & Hothers).
  - reflexivity.
  - repeat constructor; cbn; intuition discriminate.
  - reflexivity.
  - left. reflexivity.
  - right. left. reflexivity.
  - discriminate.
  - reflexivity.
  - reflexivity.
  - assert (E : playing = row_P)
      by (cbv in Hp; injection Hp as <-; reflexivity).
    rewrite E in Hp, Hstored, Hothers.
    destruct (Hothers row_P') as (_ & Hup & Hkeep & Hclash).
    + right. left. reflexivity.
    + reflexivity.
    + discriminate.
    + split; [exact Hp|]. split; [exact Hstored|]. split; [exact Hup|].
      split; [exact Hkeep|].
      apply (Hclash 1%Z); [reflexivity|].
      rewrite ranked_of_eq, sort_length, length_map. cbv. split; discriminate.
Defined.

(** ** get-recommendations *)

Section GetRecommendationsFacts.
Import GetRecommendations.

Lemma score_fold_candidates (excludeUris : gset string)
      (centroid : AudioFeatures) (weights : Weights)
      (candidates : list PopularSong) (ranked : list RankedSong) (r : RankedSong) :
  In r (fold_left
          (fun ranked candidate =>
             if bool_decide (popular_uri candidate ∈ excludeUris) then ranked
             else
               let candidateFeatures := popular_features candidate in
               let dist := distance candidateFeatures centroid weights in
               ranked ++ [mkRanked (popular_id candidate)
                                   (track_name candidate)
                                   match artists candidate with
                                   | Some a => if String.eqb a "" then "Unknown"
                                               else a
                                   | None => "Unknown"
                                   end
                                   (popular_uri candidate)
                                   candidateFeatures dist])
          candidates ranked) ->
  In r ranked
  \/ exists candidate,
       In candidate candidates
       /\ (popular_uri candidate ∉ excludeUris)
       /\ ranked_uri r = popular_uri candidate
       /\ ranked_distance r
          = distance (popular_features candidate) centroid weights.
Proof.
  revert ranked. induction candidates as [|c rest IH]; intros ranked H;
    cbn [fold_left] in H; [left; exact H|].
  apply IH in H. destruct H as [H|(c' & Hc' & H)].
  - destruct (bool_decide (popular_uri c ∈ excludeUris)) eqn:E; [left; exact H|].
    apply in_app_or in H. destruct H as [H|[<-|[]]]; [left; exact H|].
    right. exists c. apply bool_decide_eq_false in E.
    repeat split; auto. left; reflexivity.
  - right. exists c'. split; [right; exact Hc' | exact H].
Qed.

(** A scored candidate is a candidate outside the exclusion set. *)
Lemma score_In (excludeUris : gset string)
      (centroid : AudioFeatures) (weights : Weights)
      (candidates : list PopularSong) (r : RankedSong) :
  In r (score excludeUris centroid weights candidates) ->
  exists candidate,
    In candidate candidates
    /\ (popular_uri candidate ∉ excludeUris)
    /\ ranked_uri r = popular_uri candidate
    /\ ranked_distance r = distance (popular_features candidate) centroid weights.
Proof.
  intros H. apply score_fold_candidates in H. destruct H as [[]|H]. exact H.
Qed.

Lemma slice0_In {A : Type} (l : list A) (n : Z) (x : A) :
  In x (slice0 l n) -> In x l.
Proof. unfold slice0. apply In_firstn. Qed.

Lemma well_formed_true (env : Env) (req : Request) :
  well_formed env req = true ->
  String.eqb (method req) "OPTIONS" = false
  /\ truthy (req_session_id req) = true
  /\ truthy (SUPABASE_URL env) = true
  /\ truthy (SUPABASE_SERVICE_ROLE_KEY env) = true.
Proof.
  unfold well_formed. intros H.
  repeat (apply andb_true_iff in H; destruct H as [H ?]).
  apply negb_true_iff in H. auto.
Qed.

(** A recommendation of a response is one of the scored candidates. *)
Lemma recommendations_scored (supabase : Client) (env : Env) (req : Request)
      (r : RankedSong) :
  In r (recommendations_of (serve supabase env req)) ->
  In r (scored_of supabase req).
Proof.
  unfold recommendations_of, serve.
  destruct (String.eqb (method req) "OPTIONS"); [intros []|].
  unfold try_serve.
  destruct (negb (truthy (req_session_id req))); [intros []|].
  destruct (negb (truthy (SUPABASE_URL env))
            || negb (truthy (SUPABASE_SERVICE_ROLE_KEY env))); [intros []|].
  unfold scored_of, excluded_of, seeds_of, candidates_of.
  unfold select_played, select_candidates, respond.
  destruct (failure supabase ReadPlayed); [intros []|]. cbn [error data].
  destruct (played_rows supabase (string_of (req_session_id req)))
    as [|song songs]; [intros []|].
  destruct (length (seed_features supabase (song :: songs)) =? 0)%nat;
    [intros []|].
  destruct (failure supabase ReadCandidates); [intros []|]. cbn [error data].
  destruct (firstn 1000 (popular_songs supabase)) as [|c cs]; [intros []|].
  destruct (length (slice0 _ _) =? 0)%nat; [intros []|].
  cbn [body]. intros H. apply slice0_In, sort_In in H. exact H.
Qed.

(** The run up to the candidates: what the function answers once the played
    songs, their seed features and the candidates are there. *)
Lemma serve_scored (supabase : Client) (env : Env) (req : Request) :
  well_formed env req = true ->
  failure supabase ReadPlayed = None ->
  played_rows supabase (string_of (req_session_id req)) <> [] ->
  seeds_of supabase req <> [] ->
  failure supabase ReadCandidates = None ->
  candidates_of supabase <> [] ->
  let ranked := JS.sort by_distance (scored_of supabase req) in
  let recommendations := slice0 ranked (limit_of req) in
  serve supabase env req
  = if (length recommendations =? 0)%nat
    then mkResponse 200
           (NoRecommendations "All popular songs are already in queue")
    else mkResponse 200
           (Recommendations recommendations
              (length (seeds_of supabase req)) (length ranked)).
Proof.
  intros Hwf Hp Hrows Hseeds Hc Hcand.
  destruct (well_formed_true _ _ Hwf) as (Hm & Hs & Hu & Hk).
  unfold serve. rewrite Hm. unfold try_serve. rewrite Hs, Hu, Hk.
  cbn [negb orb].
  unfold scored_of, excluded_of, seeds_of, candidates_of, limit_of in *.
  unfold select_played, select_candidates, respond. rewrite Hp, Hc.
  cbn [error data].
  destruct (played_rows supabase (string_of (req_session_id req)))
    as [|song songs]; [contradiction|].
  destruct (length (seed_features supabase (song :: songs)) =? 0)%nat eqn:E.
  { apply Nat.eqb_eq in E. apply length_zero_iff_nil in E. contradiction. }
  destruct (firstn 1000 (popular_songs supabase)) as [|c cs];
    [contradiction|].
  cbv zeta.
  destruct (length (slice0 _ _) =? 0)%nat; reflexivity.
Qed.

Lemma exclusion_set_In (rows : list QueueRow) (uri : string) :
  uri ∈ exclusion_set (Some rows) <-> In uri (map spotify_uri rows).
Proof.
  unfold exclusion_set. rewrite elem_of_list_to_set. apply list_elem_of_In.
Qed.


Lemma slice0_all {A : Type} (l : list A) (n : Z) :
  (Z.of_nat (length l) <= n)%Z -> slice0 l n = l.
Proof.
  intros H. unfold slice0.
  assert (E : (n <? 0)%Z = false) by (apply Z.ltb_ge; lia).
  rewrite E. rewrite Z.min_r by exact H. rewrite Nat2Z.id. apply firstn_all.
Qed.

Lemma seen_rows_In (supabase : Client) (sid : string) (q : QueueRow) :
  In q (queue supabase) -> session_id q = sid -> In q (seen_rows supabase sid).
Proof.
  intros Hq Hs. unfold seen_rows. apply filter_In. split; [exact Hq|].
  rewrite Hs, String.eqb_refl. destruct (status q); reflexivity.
Qed.

(** Without played song of the session the played read returns no row. *)
Lemma played_rows_none (supabase : Client) (sid : string) :
  (forall q, In q (queue supabase) -> session_id q = sid -> status q <> played) ->
  played_rows supabase sid = [].
Proof.
  intros H. unfold played_rows.
  assert (E : List.filter
                (fun r => String.eqb (session_id r) sid
                          && Status_eqb (status r) played)
                (queue supabase) = []).
  { induction (queue supabase) as [|q rest IH]; [reflexivity|].
    cbn [List.filter].
    destruct (String.eqb (session_id q) sid) eqn:Es.
    - apply String.eqb_eq in Es.
      pose proof (H q (or_introl eq_refl) Es) as Hq.
      destruct (status q); [|contradiction]. cbn.
      apply IH. intros x Hx. apply H. right; exact Hx.
    - cbn. apply IH. intros x Hx. apply H. right; exact Hx. }
  rewrite E. reflexivity.
Qed.

(** The scenario of the failing exclusion read, up to the sort. *)
Lemma seen_fails_recommendations :
  let supabase := one_played seen_fails in
  serve supabase env recommend_request
  = mkResponse 200
      (Recommendations (JS.sort by_distance (scored_of supabase recommend_request))
                       1 2)
  /\ exists distance_X distance_N,
      scored_of supabase recommend_request
      = [mkRanked "1" "Song X" "artist" "spotify:track:X" features_120 distance_X;
         mkRanked "2" "Song N" "Unknown" "spotify:track:N" features_122 distance_N].
Proof.
  intros supabase.
  assert (Hscored : exists distance_X distance_N,
      scored_of supabase recommend_request
      = [mkRanked "1" "Song X" "artist" "spotify:track:X" features_120 distance_X;
         mkRanked "2" "Song N" "Unknown" "spotify:track:N" features_122 distance_N]).
  { eexists. eexists. reflexivity. }
  split; [|exact Hscored].
  destruct Hscored as (dX & dN & Hscored).
  rewrite serve_scored;
    [ | reflexivity | reflexivity | discriminate | discriminate
      | reflexivity | discriminate ].
  cbv zeta.
  rewrite slice0_all
    by (rewrite sort_length, Hscored; cbv; discriminate).
  rewrite !sort_length, Hscored. reflexivity.
Qed.

End GetRecommendationsFacts.

(** C7, as the source has it.  No recommendation carries a URI of the
    exclusion set; and when the read of the seen songs succeeds, the
    exclusion set holds the URI of every entry of the session, queued or
    played, so that no recommendation carries the URI of such an entry. *)
Theorem recommendations_exclude_seen
        (supabase : Client) (env : Env) (req : GetRecommendations.Request)
        (r : GetRecommendations.RankedSong) :
  In r (GetRecommendations.recommendations_of
          (GetRecommendations.serve supabase env req)) ->
  (GetRecommendations.ranked_uri r ∉ GetRecommendations.excluded_of supabase req)
  /\ (failure supabase ReadSeen = None ->
      forall q,
        In q (queue supabase) ->
        session_id q = string_of (GetRecommendations.req_session_id req) ->
        status q = queued \/ status q = played ->
        (spotify_uri q ∈ GetRecommendations.excluded_of supabase req)
        /\ spotify_uri q <> GetRecommendations.ranked_uri r).
Proof.
  intros Hr. apply recommendations_scored, score_In in Hr.
  destruct Hr as (candidate & _ & Hout & Huri & _).
  rewrite Huri. split; [exact Hout|].
  intros Hseen q Hq Hsid _.
  assert (Hin : spotify_uri q ∈ GetRecommendations.excluded_of supabase req).
  { unfold GetRecommendations.excluded_of, select_seen, respond.
    rewrite Hseen. cbn [data]. apply exclusion_set_In, in_map.
    apply seen_rows_In; assumption. }
  split; [exact Hin|]. intros E. apply Hout. rewrite <- E. exact Hin.
Qed.

Lemma recommendations_exclude_seen_witness :
  In song_N
     (GetRecommendations.recommendations_of
        (GetRecommendations.serve (one_played no_failure) env recommend_request))
  /\ (GetRecommendations.ranked_uri song_N
      ∉ GetRecommendations.excluded_of (one_played no_failure) recommend_request)
  /\ (spotify_uri (row_X 0)
      ∈ GetRecommendations.excluded_of (one_played no_failure) recommend_request)
  /\ spotify_uri (row_X 0) <> GetRecommendations.ranked_uri song_N.
Proof.
  assert (Hin : In song_N
                   (GetRecommendations.recommendations_of
                      (GetRecommendations.serve (one_played no_failure) env
                                                recommend_request))).
  { rewrite serve_scored;
      [ | reflexivity | reflexivity | discriminate | discriminate
        | reflexivity | discriminate ].
    cbv zeta.
    assert (Hs : GetRecommendations.scored_of (one_played no_failure)
                                              recommend_request
                 = [song_N]) by reflexivity.
    rewrite Hs. cbn [JS.sort fold_right sort_insert].
    rewrite slice0_all by (cbv; discriminate).
    left. reflexivity. }
  destruct (recommendations_exclude_seen
              (one_played no_failure) env recommend_request song_N Hin)
    as [Hout Hseen].
  destruct (Hseen eq_refl (row_X 0)) as [Hx Hne].
  - right. left. reflexivity.
  - reflexivity.
  - left. reflexivity.
  - split; [exact Hin|]. split; [exact Hout|]. split; [exact Hx | exact Hne].
Defined.

(** C7 as the specification states it fails when the read of the seen
    songs fails: the failure is only logged, the exclusion set is empty, and
    the URI of the queued song X is recommended. *)
Lemma recommendation_of_a_queued_uri :
  let supabase := one_played seen_fails in
  exists r q,
    In r (GetRecommendations.recommendations_of
            (GetRecommendations.serve supabase env recommend_request))
    /\ In q (queue supabase)
    /\ session_id q = "session-1"%string
    /\ status q = queued
    /\ spotify_uri q = GetRecommendations.ranked_uri r.
Proof.
  intros supabase.
  destruct seen_fails_recommendations as (Hserve & dX & dN & Hscored).
  fold supabase in Hserve, Hscored.
  exists (GetRecommendations.mkRanked
            "1" "Song X" "artist" "spotify:track:X" features_120 dX), (row_X 0).
  split; [|repeat split].
  - rewrite Hserve. unfold GetRecommendations.recommendations_of.
    cbn [GetRecommendations.body]. apply sort_In. rewrite Hscored.
    left. reflexivity.
  - right. left. reflexivity.
Qed.

(** C8.  For a well-formed call whose session has no played entry, the
    played read succeeding, recommend answers 200 with the message "No
    played songs yet. Play some songs first!" and no recommendation; the
    answer is not the one of the error path (status 500 and an [error]
    field), though its [success] flag is false. *)
Theorem no_played_songs_is_not_an_error
        (supabase : Client) (env : Env) (req : GetRecommendations.Request) :
  GetRecommendations.well_formed env req = true ->
  failure supabase ReadPlayed = None ->
  (forall q, In q (queue supabase) ->
             session_id q = string_of (GetRecommendations.req_session_id req) ->
             status q <> played) ->
  let answer := GetRecommendations.serve supabase env req in
  answer
  = GetRecommendations.mkResponse 200
      (GetRecommendations.Message
         false "No played songs yet. Play some songs first!")
  /\ GetRecommendations.recommendations_of answer = []
  /\ GetRecommendations.is_error answer = false.
Proof.
  intros Hwf Hp Hnone answer.
  assert (E : answer
              = GetRecommendations.mkResponse 200
                  (GetRecommendations.Message
                     false "No played songs yet. Play some songs first!")).
  { destruct (well_formed_true _ _ Hwf) as (Hm & Hs & Hu & Hk).
    unfold answer, GetRecommendations.serve. rewrite Hm.
    unfold GetRecommendations.try_serve. rewrite Hs, Hu, Hk.
    cbn [negb orb]. unfold select_played, respond. rewrite Hp.
    cbn [error data]. rewrite played_rows_none by exact Hnone.
    reflexivity. }
  rewrite E. repeat split.
Qed.

Lemma no_played_songs_is_not_an_error_witness :
  let supabase := client [row_X 0] no_failure in
  GetRecommendations.serve supabase env recommend_request
  = GetRecommendations.mkResponse 200
      (GetRecommendations.Message
         false "No played songs yet. Play some songs first!")
  /\ GetRecommendations.is_error
       (GetRecommendations.serve supabase env recommend_request) = false.
Proof.
  intros supabase.
  destruct (no_played_songs_is_not_an_error supabase env recommend_request)
    as (Hanswer & _ & Herror).
  - reflexivity.
  - reflexivity.
  - intros q [<-|[]] _. discriminate.
  - split; [exact Hanswer | exact Herror].
Defined.

(** C9, as the source has it.  For a well-formed call: a failure of the
    queue read of rerank, of the played-songs read of recommend or of its
    candidate read ends the run on the error answer (status 500, the message
    of the failure), rerank having issued no update.  A failure of the read
    of the seen songs does not: it leaves the exclusion set empty and the run
    goes on to the candidates, none of which is then excluded, and answers
    200. *)
Theorem read_failures (supabase : Client) (env : Env) (message : string) :
  (forall req,
      RankQueue.well_formed env req = true ->
      failure supabase ReadQueue = Some message ->
      RankQueue.serve supabase env req
      = RankQueue.mkOutcome
          (RankQueue.mkResponse 500
             (RankQueue.Failure ("Failed to fetch queue: " ++ message)))
          [] supabase)
  /\ (forall req,
         GetRecommendations.well_formed env req = true ->
         (failure supabase ReadPlayed = Some message ->
          GetRecommendations.serve supabase env req
          = GetRecommendations.mkResponse 500
              (GetRecommendations.Failure
                 ("Failed to fetch played songs: " ++ message)))
         /\ (failure supabase ReadPlayed = None ->
             played_rows supabase
                         (string_of (GetRecommendations.req_session_id req))
             <> [] ->
             GetRecommendations.seeds_of supabase req <> [] ->
             (failure supabase ReadCandidates = Some message ->
              GetRecommendations.serve supabase env req
              = GetRecommendations.mkResponse 500
                  (GetRecommendations.Failure
                     ("Failed to fetch candidates: " ++ message)))
             /\ (failure supabase ReadSeen = Some message ->
                 failure supabase ReadCandidates = None ->
                 GetRecommendations.candidates_of supabase <> [] ->
                 let seeds := GetRecommendations.seeds_of supabase req in
                 let ranked :=
                   JS.sort GetRecommendations.by_distance
                           (GetRecommendations.score
                              ∅ (computeCentroid seeds)
                              (computeDynamicWeights seeds None)
                              (GetRecommendations.candidates_of supabase)) in
                 let recommendations :=
                   slice0 ranked (GetRecommendations.limit_of req) in
                 GetRecommendations.excluded_of supabase req = ∅
                 /\ GetRecommendations.serve supabase env req
                    = (if (length recommendations =? 0)%nat
                       then GetRecommendations.mkResponse 200
                              (GetRecommendations.NoRecommendations
                                 "All popular songs are already in queue")
                       else GetRecommendations.mkResponse 200
                              (GetRecommendations.Recommendations
                                 recommendations (length seeds) (length ranked)))
                 /\ GetRecommendations.is_error
                      (GetRecommendations.serve supabase env req) = false))).
Proof.
  split.
  - intros req Hwf Hq.
    destruct (rank_well_formed _ _ Hwf) as (Hm & Hs & Hu & Hk).
    unfold RankQueue.serve. rewrite Hm.
    unfold RankQueue.try_serve. rewrite Hs, Hu, Hk.
    cbn [negb orb]. unfold select_queued, respond. rewrite Hq.
    cbn [error]. rewrite apply_no_update. reflexivity.
  - intros req Hwf.
    destruct (well_formed_true _ _ Hwf) as (Hm & Hs & Hu & Hk).
    split.
    + intros Hp. unfold GetRecommendations.serve. rewrite Hm.
      unfold GetRecommendations.try_serve. rewrite Hs, Hu, Hk.
      cbn [negb orb]. unfold select_played, respond. rewrite Hp.
      reflexivity.
    + intros Hp Hrows Hseeds. split.
      * intros Hc. unfold GetRecommendations.serve. rewrite Hm.
        unfold GetRecommendations.try_serve. rewrite Hs, Hu, Hk.
        cbn [negb orb]. unfold select_played, select_candidates, respond.
        rewrite Hp, Hc. cbn [error data].
        unfold GetRecommendations.seeds_of in Hseeds.
        destruct (played_rows supabase
                    (string_of (GetRecommendations.req_session_id req)))
          as [|song songs]; [contradiction|].
        destruct (length (GetRecommendations.seed_features
                            supabase (song :: songs)) =? 0)%nat eqn:E.
        { apply Nat.eqb_eq, length_zero_iff_nil in E. contradiction. }
        reflexivity.
      * intros Hseen Hc Hcand seeds ranked recommendations.
        assert (Hex : GetRecommendations.excluded_of supabase req = ∅).
        { unfold GetRecommendations.excluded_of, select_seen, respond.
          rewrite Hseen. reflexivity. }
        assert (Hserve :
                  GetRecommendations.serve supabase env req
                  = (if (length recommendations =? 0)%nat
                     then GetRecommendations.mkResponse 200
                            (GetRecommendations.NoRecommendations
                               "All popular songs are already in queue")
                     else GetRecommendations.mkResponse 200
                            (GetRecommendations.Recommendations
                               recommendations (length seeds) (length ranked)))).
        { rewrite serve_scored by assumption. cbv zeta.
          unfold recommendations, ranked, seeds,
            GetRecommendations.scored_of.
          rewrite Hex. reflexivity. }
        split; [exact Hex|]. split; [exact Hserve|].
        rewrite Hserve.
        destruct (length recommendations =? 0)%nat; reflexivity.
Qed.

Lemma read_failures_witness :
  RankQueue.serve (client [row_P; row_X 1] queue_fails) env rerank_request
  = RankQueue.mkOutcome
      (RankQueue.mkResponse 500
         (RankQueue.Failure "Failed to fetch queue: timeout"))
      [] (client [row_P; row_X 1] queue_fails)
  /\ GetRecommendations.is_error
       (GetRecommendations.serve (one_played seen_fails) env recommend_request)
     = false.
Proof.
  split.
  - destruct (read_failures (client [row_P; row_X 1] queue_fails) env "timeout")
      as [Hrank _].
    apply (Hrank rerank_request); reflexivity.
  - destruct (read_failures (one_played seen_fails) env "timeout")
      as [_ Hrecommend].
    destruct (Hrecommend recommend_request eq_refl) as [_ Hrun].
    destruct Hrun as [_ Hseen];
      [reflexivity | discriminate | discriminate |].
    destruct Hseen as (_ & _ & Herror);
      [reflexivity | reflexivity | discriminate |].
    exact Herror.
Defined.

(** C9 as the specification states it fails on the read of the seen songs:
    the read fails, and recommend answers 200 with recommendations, not the
    error answer. *)
Lemma exclusion_read_failure_is_not_reported :
  let supabase := one_played seen_fails in
  let answer := GetRecommendations.serve supabase env recommend_request in
  failure supabase ReadSeen = Some "timeout"%string
  /\ GetRecommendations.http_status answer = 200%Z
  /\ GetRecommendations.is_error answer = false
  /\ length (GetRecommendations.recommendations_of answer) = 2%nat.
Proof.
  intros supabase answer.
  destruct seen_fails_recommendations as (Hserve & dX & dN & Hscored).
  fold supabase in Hserve, Hscored. fold answer in Hserve.
  rewrite Hserve. repeat split.
  unfold GetRecommendations.recommendations_of. cbn [GetRecommendations.body].
  rewrite sort_length, Hscored. reflexivity.
Qed.

(** ** The scenario of the specification, run

    P is playing; X and Y, the first two songs to rank, set the centroid; C
    lies on the centroid and moves first, X and Y are at one distance and
    keep their order, Z has no features and goes last. *)

Section FiveSongs.
Import RankQueue.

Lemma five_songs_unsorted :
  map (scored five_songs five_centroid five_weights) (pool_of five_songs rerank_request)
  = [song_X; song_Y; song_Z; song_C].
Proof. reflexivity. Qed.

Lemma five_songs_centroid : five_centroid = features_121.
Proof.
  unfold five_centroid, centroid_of.
  assert (E : reference_features five_songs (pool_of five_songs rerank_request)
              = [features_120; features_122]) by reflexivity.
  rewrite E, computeCentroid_finite by (discriminate || reflexivity).
  unfold features_121, spec_mean, column, Rsum.
  cbn [map fold_right length INR tempo energy danceability valence
       features_120 features_122 real_of].
  f_equal; f_equal; lra.
Qed.

Lemma five_songs_weights :
  finite_features five_weights = true /\ positive_weights five_weights.
Proof.
  destruct (run_vibe_finite five_songs rerank_request) as (_ & Hw & Hpos);
    [discriminate | reflexivity |].
  split; assumption.
Qed.

Lemma five_songs_distances :
  exists d : R,
    (0 < d)%R
    /\ distance_of song_C = Num 0
    /\ distance_of song_X = Num d
    /\ distance_of song_Y = Num d
    /\ distance_of song_Z = Infinity.
Proof.
  destruct five_songs_weights as [Hw Hpos].
  exists (sqrt (spec_weighted_sq features_120 features_121 five_weights)).
  assert (HX : distance_of song_X = distance features_120 five_centroid five_weights)
    by reflexivity.
  assert (HY : distance_of song_Y = distance features_122 five_centroid five_weights)
    by reflexivity.
  assert (HC : distance_of song_C = distance features_121 five_centroid five_weights)
    by reflexivity.
  rewrite HX, HY, HC, five_songs_centroid.
  rewrite !distance_is_finite by (assumption || reflexivity).
  assert (E : spec_weighted_sq features_122 features_121 five_weights
              = spec_weighted_sq features_120 features_121 five_weights).
  { unfold spec_weighted_sq, features_120, features_121, features_122.
    cbn [tempo energy danceability valence real_of]. field. }
  assert (P : (0 < spec_weighted_sq features_120 features_121 five_weights)%R).
  { destruct Hpos as (Ht & He & Hd & Hv).
    unfold spec_weighted_sq, features_120, features_121.
    cbn [tempo energy danceability valence real_of].
    assert ((120 - 121) ^ 2 = 1)%R by field.
    pose proof (pow2_ge_0 (8 / 10 - 81 / 100)).
    pose proof (pow2_ge_0 (7 / 10 - 69 / 100)).
    pose proof (pow2_ge_0 (6 / 10 - 59 / 100)).
    nra. }
  rewrite E, spec_weighted_sq_same, sqrt_0.
  repeat split. apply sqrt_lt_R0, P.
Qed.

(** The sorted array of the run. *)
Lemma five_songs_ranked :
  ranked_of five_songs rerank_request = [song_C; song_X; song_Y; song_Z].
Proof.
  destruct five_songs_distances as (d & Hd & HC & HX & HY & HZ).
  rewrite ranked_of_eq. fold five_centroid five_weights. rewrite five_songs_unsorted.
  assert (CX : ascending song_C song_X)
    by (unfold ascending; rewrite HC, HX; cbn [JS.le]; lra).
  assert (CY : ascending song_C song_Y)
    by (unfold ascending; rewrite HC, HY; cbn [JS.le]; lra).
  assert (CZ : ascending song_C song_Z)
    by (unfold ascending; rewrite HC, HZ; exact I).
  assert (XY : ascending song_X song_Y)
    by (unfold ascending; rewrite HX, HY; cbn [JS.le]; lra).
  assert (XZ : ascending song_X song_Z)
    by (unfold ascending; rewrite HX, HZ; exact I).
  assert (YZ : ascending song_Y song_Z)
    by (unfold ascending; rewrite HY, HZ; exact I).
  symmetry. apply sort_by_distance_unique.
  - apply List.Forall_forall. intros s Hs. unfold orderly.
    destruct Hs as [<-|[<-|[<-|[<-|[]]]]];
      rewrite ?HC, ?HX, ?HY, ?HZ; exact I.
  - apply SSorted_cons;
      [apply SSorted_cons;
       [apply SSorted_cons; [apply SSorted_cons; [apply SSorted_nil|]|]|]|].
    + apply List.Forall_nil.
    + apply List.Forall_cons; [exact YZ | apply List.Forall_nil].
    + apply List.Forall_cons; [exact XY|].
      apply List.Forall_cons; [exact XZ | apply List.Forall_nil].
    + apply List.Forall_cons; [exact CX|].
      apply List.Forall_cons; [exact CY|].
      apply List.Forall_cons; [exact CZ | apply List.Forall_nil].
  - intros e. cbn [List.filter]. unfold at_distance.
    rewrite HC, HX, HY, HZ.
    destruct (number_eq_dec (Num 0) e) as [<-|];
      destruct (number_eq_dec (Num d) _) as [E|]; try reflexivity.
    injection E as E. lra.
Qed.

(** P stays on 0; C, X, Y and Z get 1, 2, 3 and 4. *)
Example five_songs_updates :
  updates (serve five_songs env rerank_request)
  = [("p", 0); ("c", 1); ("x", 2); ("y", 3); ("z", 4)]%string%Z.
Proof.
  rewrite run_updates by reflexivity.
  rewrite five_songs_ranked. reflexivity.
Qed.

Example five_songs_stored :
  map (fun r => (id r, pos r))
      (queue (after (serve five_songs env rerank_request)))
  = [("p", Some 0); ("x", Some 2); ("y", Some 3); ("z", Some 4);
     ("c", Some 1)]%string%Z.
Proof.
  destruct (serve_ranked five_songs env rerank_request eq_refl)
    as (_ & _ & _ & _ & Hafter & _).
  rewrite Hafter, five_songs_updates. reflexivity.
Qed.

End FiveSongs.

(** * Further properties

    What the rest of the two functions, and of the client code that calls
    them, does. *)

(** ** Vibe model: symmetry, bounds, monotonicity, triangle inequality *)

Section VibeMore.
Import Fields.
Local Open Scope R_scope.

Lemma square_sub_sym (a b : number) :
  Math_pow (sub a b) 2 = Math_pow (sub b a) 2.
Proof.
  destruct a as [x| | |], b as [y| | |]; cbn; try reflexivity.
  f_equal. ring.
Qed.














End VibeMore.

Import Fields.

(** X1.  [distance] does not change when point and centroid are swapped,
    whatever the numbers are (NaN and the infinities included). *)
Theorem distance_symmetric (point centroid : AudioFeatures) (weights : Weights) :
  distance point centroid weights = distance centroid point weights.
Proof.
  unfold distance.
  rewrite (square_sub_sym (tempo point)), (square_sub_sym (energy point)),
    (square_sub_sym (danceability point)), (square_sub_sym (valence point)).
  reflexivity.
Qed.









(** ** rank-queue: what a run writes, and what it leaves *)

Section RankQueueMore.
Import RankQueue QueueOrder.

Lemma serve_after (supabase : Client) (env : Env) (req : Request) :
  after (serve supabase env req)
  = apply_updates (updates (serve supabase env req)) supabase.
Proof.
  unfold serve.
  destruct (String.eqb (method req) "OPTIONS").
  - cbn [after updates]. rewrite apply_no_update. reflexivity.
  - destruct (try_serve supabase env req) as [completion issued]. reflexivity.
Qed.

Lemma serve_unranked (supabase : Client) (env : Env) (req : Request) :
  ranked_ok (serve supabase env req) = false ->
  updates (serve supabase env req) = [].
Proof.
  unfold ranked_ok, serve.
  destruct (String.eqb (method req) "OPTIONS"); [reflexivity|].
  unfold try_serve.
  destruct (negb (truthy (req_session_id req))); [reflexivity|].
  destruct (negb (truthy (SUPABASE_URL env))
            || negb (truthy (SUPABASE_SERVICE_ROLE_KEY env))); [reflexivity|].
  destruct (error (select_queued supabase (string_of (req_session_id req))));
    [reflexivity|].
  destruct (data (select_queued supabase (string_of (req_session_id req))))
    as [[|first others]|]; [reflexivity| |reflexivity].
  destruct (separate (currently_playing_uri req) (first :: others))
    as [currentlyPlayingSong songsToRank].
  destruct (length songsToRank <=? 2)%nat; [reflexivity|].
  destruct (length (reference_features supabase songsToRank) =? 0)%nat;
    [reflexivity|].
  destruct (rank_songs supabase _ _ songsToRank) as [ranked notFound].
  cbn [response body]. discriminate.
Qed.

Lemma rank_songs_notFound (supabase : Client) (centroid : AudioFeatures)
      (weights : Weights) (songs : list QueueRow) :
  snd (rank_songs supabase centroid weights songs)
  = unknown_titles supabase songs.
Proof.
  unfold rank_songs, score. rewrite score_fold. reflexivity.
Qed.

Lemma serve_statistics (supabase : Client) (env : Env) (req : Request) :
  ranked_ok (serve supabase env req) = true ->
  body (response (serve supabase env req))
  = Ranking (length (ranked_of supabase req))
            (length (ranked_of supabase req)
             + match pinned_of supabase req with Some _ => 1 | None => 0 end)
            (match pinned_of supabase req with Some _ => true | None => false end)
            (length (List.filter resolved (ranked_of supabase req)))
            (length (unknown_titles supabase (pool_of supabase req)))
            (unknown_titles supabase (pool_of supabase req))
            (length (reference_features supabase (pool_of supabase req)))
            (centroid_of supabase req) (weights_of supabase req).
Proof.
  unfold ranked_ok, serve.
  destruct (String.eqb (method req) "OPTIONS"); [discriminate|].
  unfold try_serve.
  destruct (negb (truthy (req_session_id req))); [discriminate|].
  destruct (negb (truthy (SUPABASE_URL env))
            || negb (truthy (SUPABASE_SERVICE_ROLE_KEY env))); [discriminate|].
  unfold select_queued, respond.
  destruct (failure supabase ReadQueue) as [message|]; [discriminate|].
  cbn [error data].
  unfold ranked_of, centroid_of, weights_of, pinned_of, pool_of, loaded.
  destruct (queued_rows supabase (string_of (req_session_id req)))
    as [|first others]; [discriminate|].
  destruct (separate (currently_playing_uri req) (first :: others))
    as [currentlyPlayingSong songsToRank].
  cbn [fst snd].
  destruct (length songsToRank <=? 2)%nat; [discriminate|].
  destruct (length (reference_features supabase songsToRank) =? 0)%nat;
    [discriminate|].
  rewrite <- (rank_songs_notFound supabase
                (computeCentroid (reference_features supabase songsToRank))
                (computeDynamicWeights (reference_features supabase songsToRank) None)
                songsToRank).
  destruct (rank_songs supabase _ _ songsToRank) as [ranked notFound].
  cbn [fst snd response body]. intros _. reflexivity.
Qed.

(** The columns an update of [pos] leaves. *)
Lemma updated_columns (updates : list (string * Z)) (r : QueueRow) :
  columns_but_pos (updated updates r) = columns_but_pos r.
Proof.
  unfold updated. revert r.
  induction updates as [|u rest IH]; intros r; cbn [fold_left]; [reflexivity|].
  rewrite IH. destruct (String.eqb (id r) (fst u)); reflexivity.
Qed.

Lemma updated_keeps_position (updates : list (string * Z)) (r : QueueRow) :
  pos r <> None -> pos (updated updates r) <> None.
Proof.
  unfold updated. revert r.
  induction updates as [|u rest IH]; intros r H; cbn [fold_left]; [exact H|].
  apply IH. destruct (String.eqb (id r) (fst u)); [discriminate | exact H].
Qed.

Lemma loaded_iff (supabase : Client) (req : Request) (r : QueueRow) :
  In r (loaded supabase req)
  <-> In r (queue supabase)
      /\ ~ not_in_play (string_of (req_session_id req)) r.
Proof.
  split.
  - intros H. destruct (loaded_In _ _ _ H) as (Hin & Hs & Hst & Hp).
    split; [exact Hin|]. intros [N|[N|N]]; [contradiction | | contradiction].
    rewrite Hst in N. discriminate.
  - intros [Hin Hn]. unfold loaded, queued_rows.
    apply (Permutation_in _ (Permutation_sym (order_Permutation _ _))).
    apply filter_In. split; [exact Hin|].
    unfold not_in_play in Hn.
    destruct (String.eqb_spec (session_id r) (string_of (req_session_id req)))
      as [_|N]; [|exfalso; apply Hn; left; exact N].
    destruct (status r) eqn:Hst; [|exfalso; apply Hn; right; left; reflexivity].
    destruct (pos r) eqn:Hp; [reflexivity|].
    exfalso. apply Hn. right. right. reflexivity.
Qed.

(** Every update of a run names a row the queue read returned. *)
Lemma update_ids_loaded (supabase : Client) (env : Env) (req : Request)
      (target : string) :
  In target (map fst (updates (serve supabase env req))) ->
  exists s, In s (loaded supabase req) /\ id s = target.
Proof.
  destruct (ranked_ok (serve supabase env req)) eqn:Hok.
  - rewrite (run_updates _ _ _ Hok), map_app, numbered_fst.
    intros H. apply in_app_or in H. destruct H as [H|H].
    + destruct (pinned_of supabase req) as [playing|] eqn:Hp; [|contradiction].
      destruct H as [<-|[]]. exists playing. split; [|reflexivity].
      apply pinned_loaded, Hp.
    + apply in_map_iff in H. destruct H as (s & <- & Hs).
      exists (row s). split; [|reflexivity].
      apply pool_In. apply (ranked_In _ _ _ Hs).
  - rewrite (serve_unranked _ _ _ Hok). contradiction.
Qed.

Lemma untouched_row (supabase : Client) (env : Env) (req : Request)
      (r : QueueRow) :
  List.NoDup (map id (queue supabase)) ->
  In r (queue supabase) ->
  not_in_play (string_of (req_session_id req)) r ->
  updated (updates (serve supabase env req)) r = r.
Proof.
  intros Hnd Hin Hout. apply updated_untouched. intros Hid.
  destruct (update_ids_loaded _ _ _ _ Hid) as (s & Hs & E).
  assert (s = r).
  { apply (NoDup_map_inj id (queue supabase)); auto.
    apply (loaded_In _ _ _ Hs). }
  subst s. apply loaded_iff in Hs. destruct Hs as [_ Hs]. contradiction.
Qed.

Lemma Permutation_filter_length {A : Type} (keep : A -> bool) (l l' : list A) :
  Permutation l l' ->
  length (List.filter keep l) = length (List.filter keep l').
Proof.
  induction 1 as [|x l l' _ IH|x y l|l l' l'' _ IH1 _ IH2];
    cbn [List.filter]; [reflexivity | | | congruence].
  - destruct (keep x); cbn [length]; congruence.
  - destruct (keep x), (keep y); reflexivity.
Qed.

Lemma resolved_and_unknown (supabase : Client) (centroid : AudioFeatures)
      (weights : Weights) (songs : list QueueRow) :
  (length (List.filter resolved (map (scored supabase centroid weights) songs))
   + length (unknown_titles supabase songs))%nat
  = length songs.
Proof.
  unfold unknown_titles. rewrite length_map.
  induction songs as [|song rest IH]; [reflexivity|].
  cbn [map List.filter]. unfold resolved at 1, scored at 1.
  destruct (getFeaturesFromDataset (song_title song) supabase);
    cbn [features length]; lia.
Qed.

Lemma numbered_length (position : Z) (ids : list string) :
  length (numbered position ids) = length ids.
Proof.
  revert position. induction ids as [|i rest IH]; intros position;
    cbn [numbered length]; [reflexivity | rewrite IH; reflexivity].
Qed.

Lemma found_features_length (supabase : Client) (songs : list QueueRow) :
  (length (found_features (fetch_all supabase songs)) <= length songs)%nat.
Proof.
  unfold found_features. rewrite found_features_fold. cbn [app].
  induction songs as [|song rest IH]; [reflexivity|].
  cbn [flat_map]. rewrite length_app.
  destruct (getFeaturesFromDataset (song_title song) supabase);
    cbn [length]; lia.
Qed.

Lemma reference_features_eq (supabase : Client) (songs : list QueueRow) :
  reference_features supabase songs
  = flat_map (fun song =>
                match getFeaturesFromDataset (song_title song) supabase with
                | Some features => [features]
                | None => []
                end)
             (firstn (Nat.min 2 (length songs - 1)) songs).
Proof.
  unfold reference_features, found_features. rewrite found_features_fold.
  reflexivity.
Qed.

End RankQueueMore.

Section RankQueueRuns.
Import RankQueue QueueOrder Bystanders.

(** X6.  Whatever the request, a run of rank-queue writes nothing but [pos]
    in table queue: every other column of every row, the order of the rows
    and the other tables are as before; and when ids are unique a row the
    queue read does not return (another session, a played song, a row
    without position) is left exactly as it was. *)
Theorem rerank_writes_positions_only
        (supabase : Client) (env : Env) (req : Request) :
  let o := serve supabase env req in
  popular_songs (after o) = popular_songs supabase
  /\ get_song_features (after o) = get_song_features supabase
  /\ popular_songs_ilike (after o) = popular_songs_ilike supabase
  /\ failure (after o) = failure supabase
  /\ map columns_but_pos (queue (after o))
     = map columns_but_pos (queue supabase)
  /\ (List.NoDup (map id (queue supabase)) ->
      forall i r,
        nth_error (queue supabase) i = Some r ->
        not_in_play (string_of (req_session_id req)) r ->
        nth_error (queue (after o)) i = Some r).
Proof.
  intros o. unfold o. rewrite serve_after.
  repeat (split; [reflexivity|]).
  rewrite apply_updates_queue. split.
  - rewrite map_map. apply map_ext. intros r. apply updated_columns.
  - intros Hnd i r Hi Hout. rewrite nth_error_map, Hi. cbn [option_map].
    f_equal. apply untouched_row; auto.
    apply nth_error_In with i. exact Hi.
Qed.

Lemma rerank_writes_positions_only_witness :
  nth_error (queue (after (serve bystanders env rerank_request))) 0
  = Some row_W
  /\ nth_error (queue (after (serve bystanders env rerank_request))) 1
     = Some row_other.
Proof.
  destruct (rerank_writes_positions_only bystanders env rerank_request)
    as (_ & _ & _ & _ & _ & H).
  assert (Hnd : List.NoDup (map id (queue bystanders)))
    by (repeat constructor; cbn; intuition discriminate).
  split.
  - apply (H Hnd 0%nat row_W eq_refl). right. left. reflexivity.
  - apply (H Hnd 1%nat row_other eq_refl). left. discriminate.
Defined.

(** X7.  A run of rank-queue that does not answer with the ranking
    statistics (the preflight, every error, an empty or short queue, unknown
    reference songs) issues no update and leaves the store as it was. *)
Theorem no_statistics_no_write (supabase : Client) (env : Env) (req : Request) :
  ranked_ok (serve supabase env req) = false ->
  updates (serve supabase env req) = []
  /\ after (serve supabase env req) = supabase.
Proof.
  intros H. rewrite serve_after, (serve_unranked _ _ _ H), apply_no_update.
  split; reflexivity.
Qed.

Lemma no_statistics_no_write_witness :
  updates (serve unknown_first env plain_request) = []
  /\ after (serve unknown_first env plain_request) = unknown_first.
Proof.
  apply (no_statistics_no_write unknown_first env plain_request).
  reflexivity.
Defined.

(** X8.  The statistics of a rerank agree with each other and with what was
    done: [ranked_count] is the number of songs to rank and at least 3,
    [total_songs] adds the pinned song and is the number of updates issued,
    [songs_with_features] and [songs_not_found] add up to [ranked_count],
    [not_found_songs] lists the unknown titles in queue order, between 1 and
    2 reference songs were used, and the centroid and weights are theirs. *)
Theorem ranking_statistics
        (supabase : Client) (env : Env) (req : Request)
        (ranked_count total_songs : nat) (currently_playing_excluded : bool)
        (songs_with_features songs_not_found : nat)
        (not_found_songs : list string) (reference_songs_used : nat)
        (centroid : AudioFeatures) (weights : Weights) :
  body (response (serve supabase env req))
  = Ranking ranked_count total_songs currently_playing_excluded
            songs_with_features songs_not_found not_found_songs
            reference_songs_used centroid weights ->
  ranked_count = length (pool_of supabase req)
  /\ (3 <= ranked_count)%nat
  /\ currently_playing_excluded
     = match pinned_of supabase req with Some _ => true | None => false end
  /\ total_songs
     = (ranked_count + if currently_playing_excluded then 1 else 0)%nat
  /\ total_songs = length (updates (serve supabase env req))
  /\ not_found_songs = unknown_titles supabase (pool_of supabase req)
  /\ songs_not_found = length not_found_songs
  /\ (songs_with_features + songs_not_found)%nat = ranked_count
  /\ (1 <= reference_songs_used <= 2)%nat
  /\ reference_songs_used
     = length (reference_features supabase (pool_of supabase req))
  /\ centroid = computeCentroid (reference_features supabase (pool_of supabase req))
  /\ weights
     = computeDynamicWeights (reference_features supabase (pool_of supabase req))
                             None.
Proof.
  intros Hbody.
  assert (Hok : ranked_ok (serve supabase env req) = true)
    by (unfold ranked_ok; rewrite Hbody; reflexivity).
  destruct (serve_ranked _ _ _ Hok) as (_ & Hlen & Href & Hup & _).
  rewrite (serve_statistics _ _ _ Hok) in Hbody.
  injection Hbody as <- <- <- <- <- <- <- <- <-.
  assert (Hl : length (ranked_of supabase req) = length (pool_of supabase req)).
  { rewrite ranked_of_eq, sort_length, length_map. reflexivity. }
  rewrite Hl.
  split; [reflexivity|]. split; [lia|]. split; [reflexivity|].
  split; [destruct (pinned_of supabase req); reflexivity|].
  split.
  { rewrite Hup, position_updates_eq.
    destruct (pinned_of supabase req); cbn [length];
      rewrite numbered_length, length_map, Hl; lia. }
  split; [reflexivity|]. split; [reflexivity|].
  split.
  { rewrite ranked_of_eq.
    rewrite (Permutation_filter_length resolved _ _ (sort_Permutation _ _)).
    apply resolved_and_unknown. }
  split.
  { split.
    - destruct (reference_features supabase (pool_of supabase req));
        [contradiction Href; reflexivity | cbn [length]; lia].
    - unfold reference_features.
      etransitivity; [apply found_features_length|].
      rewrite length_firstn. lia. }
  repeat split; reflexivity.
Qed.

Lemma ranking_statistics_witness :
  exists ranked_count total_songs excluded with_features not_found titles used
         centroid weights,
    body (response (serve five_songs env rerank_request))
    = Ranking ranked_count total_songs excluded with_features not_found titles
              used centroid weights
    /\ ranked_count = 4%nat /\ total_songs = 5%nat /\ excluded = true
    /\ titles = ["Song Z"%string] /\ not_found = 1%nat
    /\ (with_features + not_found)%nat = ranked_count
    /\ used = 2%nat.
Proof.
  assert (Hok : ranked_ok (serve five_songs env rerank_request) = true)
    by reflexivity.
  pose proof (serve_statistics _ _ _ Hok) as Hbody.
  destruct (ranking_statistics _ _ _ _ _ _ _ _ _ _ _ _ Hbody)
    as (Hrc & _ & Hex & Hts & _ & Hnf & Hsnf & Hsum & _ & Hused & _).
  do 9 eexists. split; [exact Hbody|].
  assert (Hl : length (ranked_of five_songs rerank_request) = 4%nat)
    by (rewrite ranked_of_eq, sort_length; reflexivity).
  assert (Hpool : pool_of five_songs rerank_request
                  = [row_X 1; row_Y 2; row_Z 3; row_C 4]) by reflexivity.
  assert (Hpin : pinned_of five_songs rerank_request = Some row_P)
    by reflexivity.
  rewrite Hpool in Hrc, Hnf, Hused |- *. rewrite Hpin in Hex |- *.
  split; [exact Hrc|]. split; [rewrite Hl; reflexivity|].
  split; [reflexivity|]. split; [reflexivity|]. split; [reflexivity|].
  split; [exact Hsum | reflexivity].
Defined.

(** X9.  With a readable queue of more than two songs to rank, the ranking
    is done exactly when the dataset knows one of the first two of them; if
    it knows neither the run answers success false with a message, status
    200, and writes nothing, whatever it knows of the later songs. *)
Theorem ranking_needs_a_known_reference
        (supabase : Client) (env : Env) (req : Request) :
  well_formed env req = true ->
  failure supabase ReadQueue = None ->
  (2 < length (pool_of supabase req))%nat ->
  if forallb (fun song =>
                match getFeaturesFromDataset (song_title song) supabase with
                | Some _ => false
                | None => true
                end)
             (firstn 2 (pool_of supabase req))
  then serve supabase env req
       = mkOutcome
           (mkResponse 200
              (Message false "Reference songs not found in dataset"))
           [] supabase
  else ranked_ok (serve supabase env req) = true.
Proof.
  intros Hwf Hq Hlen.
  destruct (rank_well_formed _ _ Hwf) as (Hm & Hs & Hu & Hk).
  assert (Href : reference_features supabase (pool_of supabase req)
                 = flat_map (fun song =>
                     match getFeaturesFromDataset (song_title song) supabase with
                     | Some features => [features]
                     | None => []
                     end)
                     (firstn 2 (pool_of supabase req))).
  { rewrite reference_features_eq.
    replace (Nat.min 2 (length (pool_of supabase req) - 1)) with 2%nat by lia.
    reflexivity. }
  assert (Hnil : (length (reference_features supabase (pool_of supabase req)) =? 0)%nat
                 = forallb (fun song =>
                     match getFeaturesFromDataset (song_title song) supabase with
                     | Some _ => false
                     | None => true
                     end)
                     (firstn 2 (pool_of supabase req))).
  { rewrite Href. clear Href.
    induction (firstn 2 (pool_of supabase req)) as [|song rest IH];
      [reflexivity|].
    cbn [flat_map forallb].
    destruct (getFeaturesFromDataset (song_title song) supabase);
      [reflexivity | exact IH]. }
  rewrite <- Hnil. clear Hnil.
  unfold ranked_ok, serve. rewrite Hm. unfold try_serve. rewrite Hs, Hu, Hk.
  cbn [negb orb]. unfold select_queued, respond. rewrite Hq. cbn [error data].
  revert Hlen. unfold pool_of, loaded.
  destruct (queued_rows supabase (string_of (req_session_id req)))
    as [|first others].
  { unfold separate. destruct (truthy (currently_playing_uri req));
      cbn; intros; lia. }
  destruct (separate (currently_playing_uri req) (first :: others))
    as [currentlyPlayingSong songsToRank].
  cbn [snd]. intros Hlen.
  assert (E : (length songsToRank <=? 2)%nat = false)
    by (apply Nat.leb_gt; lia).
  rewrite E.
  destruct (length (reference_features supabase songsToRank) =? 0)%nat.
  - rewrite apply_no_update. reflexivity.
  - destruct (rank_songs supabase _ _ songsToRank) as [ranked notFound].
    reflexivity.
Qed.

Lemma ranking_needs_a_known_reference_witness :
  serve unknown_first env plain_request
  = mkOutcome
      (mkResponse 200 (Message false "Reference songs not found in dataset"))
      [] unknown_first.
Proof.
  apply (ranking_needs_a_known_reference unknown_first env plain_request).
  - reflexivity.
  - reflexivity.
  - cbn. lia.
Defined.

End RankQueueRuns.

(** ** rank-queue: the queue read back after a rerank *)

Section ReadBack.
Import RankQueue QueueOrder Bystanders.

Lemma filter_map_commute {A : Type} (keep : A -> bool) (f : A -> A) (l : list A) :
  (forall x, In x l -> keep (f x) = keep x) ->
  List.filter keep (map f l) = map f (List.filter keep l).
Proof.
  induction l as [|a rest IH]; intros H; [reflexivity|].
  cbn [map List.filter]. rewrite (H a (or_introl eq_refl)).
  rewrite IH by (intros x Hx; apply H; right; exact Hx).
  destruct (keep a); reflexivity.
Qed.

Lemma filter_partition_Permutation {A : Type} (keep : A -> bool) (l : list A) :
  Permutation l (List.filter keep l
                 ++ List.filter (fun x => negb (keep x)) l).
Proof.
  induction l as [|a rest IH]; [constructor|].
  cbn [List.filter]. destruct (keep a); cbn [negb app].
  - constructor. exact IH.
  - apply Permutation_cons_app. exact IH.
Qed.

Lemma StronglySorted_remove {A : Type} (R : A -> A -> Prop)
      (l1 l2 : list A) (a : A) :
  StronglySorted R (l1 ++ a :: l2) ->
  StronglySorted R (l1 ++ l2)
  /\ Forall (fun t => R t a) l1 /\ Forall (R a) l2.
Proof.
  induction l1 as [|b rest IH]; cbn [app]; intros H.
  - apply StronglySorted_inv in H. destruct H as [Hs Hf].
    split; [exact Hs|]. split; [constructor | exact Hf].
  - apply StronglySorted_inv in H. destruct H as [Hs Hf].
    destruct (IH Hs) as (Hs' & Hb & Ha).
    rewrite List.Forall_forall in Hf.
    split; [|split; [|exact Ha]].
    + constructor; [exact Hs'|].
      rewrite List.Forall_forall. intros x Hx. apply Hf.
      apply in_app_or in Hx. apply in_or_app.
      destruct Hx; [left | right; right]; assumption.
    + constructor; [|exact Hb].
      apply Hf. apply in_or_app. right. left. reflexivity.
Qed.

Lemma order_insert_place {A : Type} (before : A -> A -> bool)
      (a : A) (l1 l2 : list A) :
  Forall (fun t => before a t = false) l1 ->
  Forall (fun t => before a t = true) l2 ->
  order_insert before a (l1 ++ l2) = l1 ++ a :: l2.
Proof.
  intros H1 H2. induction H1 as [|b rest Hb _ IH]; cbn [app order_insert].
  - destruct H2 as [|c others Hc _]; cbn [order_insert]; [reflexivity|].
    rewrite Hc. reflexivity.
  - rewrite Hb, IH. reflexivity.
Qed.

(** A list ordered by [before] is the one strictly ascending arrangement of
    its rows, when there is one. *)
Lemma order_strict {A : Type} (before : A -> A -> bool) (l arranged : list A) :
  Permutation l arranged ->
  StronglySorted (fun x y => before x y = true /\ before y x = false) arranged ->
  order before l = arranged.
Proof.
  revert arranged. induction l as [|a rest IH]; intros arranged HP HS.
  - apply Permutation_nil in HP. subst. reflexivity.
  - assert (Hin : In a arranged)
      by (apply (Permutation_in _ HP); left; reflexivity).
    apply in_split in Hin. destruct Hin as (l1 & l2 & ->).
    apply Permutation_cons_app_inv in HP.
    apply StronglySorted_remove in HS. destruct HS as (HS & H1 & H2).
    unfold order. cbn [fold_right]. fold (order before rest).
    rewrite (IH _ HP HS). apply order_insert_place.
    + eapply List.Forall_impl; [|exact H1]. intros t [_ Ht]. exact Ht.
    + eapply List.Forall_impl; [|exact H2]. intros t [Ht _]. exact Ht.
Qed.

Lemma order_insert_map {A : Type} (before : A -> A -> bool) (f : A -> A)
      (a : A) (l : list A) :
  (forall x y, before (f x) (f y) = before x y) ->
  order_insert before (f a) (map f l) = map f (order_insert before a l).
Proof.
  intros H. induction l as [|b rest IH]; [reflexivity|].
  cbn [map order_insert]. rewrite H.
  destruct (before a b); cbn [map]; [reflexivity | rewrite IH; reflexivity].
Qed.

Lemma order_map {A : Type} (before : A -> A -> bool) (f : A -> A) (l : list A) :
  (forall x y, before (f x) (f y) = before x y) ->
  order before (map f l) = map f (order before l).
Proof.
  intros H. induction l as [|a rest IH]; [reflexivity|].
  unfold order in *. cbn [map fold_right].
  rewrite IH. apply order_insert_map, H.
Qed.

Lemma positioned_from (position : Z) (rows : list QueueRow) :
  Forall (fun t => exists q, pos t = Some q /\ (position <= q)%Z)
         (positioned position rows).
Proof.
  revert position. induction rows as [|r rest IH]; intros position;
    cbn [positioned]; constructor.
  - exists position. split; [reflexivity | lia].
  - eapply List.Forall_impl; [|apply IH].
    intros t (q & Hq & Hle). exists q. split; [exact Hq | lia].
Qed.

Lemma positioned_sorted (position : Z) (rows : list QueueRow) :
  StronglySorted
    (fun x y => pos_ascending x y = true /\ pos_ascending y x = false)
    (positioned position rows).
Proof.
  revert position. induction rows as [|r rest IH]; intros position;
    cbn [positioned]; constructor; [apply IH|].
  eapply List.Forall_impl; [|apply positioned_from].
  intros t (q & Hq & Hle). unfold pos_ascending. rewrite Hq. cbn [set_pos pos].
  split; [apply Z.leb_le | apply Z.leb_gt]; lia.
Qed.

Lemma positioned_length (position : Z) (rows : list QueueRow) :
  length (positioned position rows) = length rows.
Proof.
  revert position. induction rows as [|r rest IH]; intros position;
    cbn [positioned length]; [reflexivity | rewrite IH; reflexivity].
Qed.

Lemma updated_positioned (updates : list (string * Z)) (rows : list QueueRow)
      (position : Z) :
  List.NoDup (map fst updates) ->
  incl (numbered position (map id rows)) updates ->
  map (updated updates) rows = positioned position rows.
Proof.
  intros Hnd. revert position.
  induction rows as [|r rest IH]; intros position Hincl; [reflexivity|].
  cbn [map positioned numbered] in *. f_equal.
  - apply updated_pos; [exact Hnd|]. apply Hincl. left. reflexivity.
  - apply IH. intros u Hu. apply Hincl. right. exact Hu.
Qed.

Lemma singleton_filter {A : Type} (l : list A) (x : A) :
  List.NoDup l -> In x l -> (forall y, In y l -> y = x) -> l = [x].
Proof.
  intros Hnd Hin Hall.
  destruct l as [|a [|b rest]]; [contradiction | |].
  - rewrite (Hall a (or_introl eq_refl)). reflexivity.
  - exfalso. inversion Hnd as [|? ? Hnot _]. apply Hnot.
    rewrite (Hall a (or_introl eq_refl)),
      (Hall b (or_intror (or_introl eq_refl))).
    left. reflexivity.
Qed.

(** The pinned song and the ranked songs are the songs the queue read
    returned, when no other queued row carries the playing URI. *)
Lemma pinned_then_ranked_loaded (supabase : Client) (req : Request) :
  List.NoDup (map id (queue supabase)) ->
  (forall playing s,
      pinned_of supabase req = Some playing ->
      In s (loaded supabase req) ->
      spotify_uri s = spotify_uri playing -> s = playing) ->
  Permutation (pinned_then_ranked supabase req) (loaded supabase req).
Proof.
  intros Hnd Hone. unfold pinned_then_ranked.
  pose proof (ranked_rows supabase req) as Hperm.
  pose proof (loaded_NoDup supabase req Hnd) as HndL.
  apply NoDup_map_inv in HndL.
  destruct (pinned_of supabase req) as [playing|] eqn:Hp.
  - cbn [app].
    pose proof (Hone playing) as Hone'. specialize (fun s => Hone' s eq_refl).
    pose proof (pinned_loaded _ _ _ Hp) as Hin.
    unfold pinned_of in Hp. unfold pool_of in Hperm.
    destruct (separate (currently_playing_uri req) (loaded supabase req))
      as [pinned pool] eqn:Hsep.
    cbn [fst snd] in *. subst pinned.
    destruct (separate_pinned _ _ _ _ Hsep) as (_ & Huri & _ & Hpool).
    set (same := fun s => String.eqb (spotify_uri s)
                                     (string_of (currently_playing_uri req))).
    assert (Hsame : List.filter same (loaded supabase req) = [playing]).
    { apply singleton_filter.
      - apply List.NoDup_filter, HndL.
      - apply filter_In. split; [exact Hin|].
        unfold same. apply String.eqb_eq. exact Huri.
      - intros y Hy. apply filter_In in Hy. destruct Hy as [Hy E].
        unfold same in E. apply String.eqb_eq in E.
        apply Hone'; [exact Hy | congruence]. }
    etransitivity;
      [|symmetry; apply (filter_partition_Permutation same)].
    rewrite Hsame. cbn [app]. constructor.
    rewrite Hperm, Hpool. reflexivity.
  - cbn [app]. rewrite Hperm.
    unfold pinned_of in Hp. unfold pool_of.
    destruct (separate (currently_playing_uri req) (loaded supabase req))
      as [pinned pool] eqn:Hsep.
    cbn [fst snd] in *. subst pinned.
    destruct (separate_unpinned _ _ _ Hsep) as [-> _]. reflexivity.
Qed.

(** The rows a queue read keeps are the same after the updates of a run. *)
Lemma updates_keep_selection (supabase : Client) (env : Env) (req : Request)
      (sid : string) (r : QueueRow) :
  List.NoDup (map id (queue supabase)) ->
  In r (queue supabase) ->
  let keep := fun r => String.eqb (session_id r) sid
                       && Status_eqb (status r) queued
                       && match pos r with Some _ => true | None => false end in
  keep (updated (updates (serve supabase env req)) r) = keep r.
Proof.
  intros Hnd Hin keep.
  destruct (in_dec string_dec (id r)
                   (map fst (updates (serve supabase env req)))) as [Hid|Hid].
  - destruct (update_ids_loaded _ _ _ _ Hid) as (s & Hs & E).
    assert (s = r).
    { apply (NoDup_map_inj id (queue supabase)); auto.
      apply (loaded_In _ _ _ Hs). }
    subst s. destruct (loaded_In _ _ _ Hs) as (_ & _ & _ & Hpos).
    pose proof (updated_columns (updates (serve supabase env req)) r) as Hc.
    unfold columns_but_pos in Hc. injection Hc as _ Hsid _ _ _ Hst _.
    pose proof (updated_keeps_position (updates (serve supabase env req)) r Hpos)
      as Hpos'.
    unfold keep. rewrite Hsid, Hst.
    destruct (pos r); [|contradiction].
    destruct (pos (updated (updates (serve supabase env req)) r));
      [reflexivity | contradiction].
  - rewrite updated_untouched by exact Hid. reflexivity.
Qed.

(** The queue read after a rerank. *)
Lemma read_back_positions (supabase : Client) (env : Env) (req : Request) :
  ranked_ok (serve supabase env req) = true ->
  List.NoDup (map id (queue supabase)) ->
  (forall playing s,
      pinned_of supabase req = Some playing ->
      In s (loaded supabase req) ->
      spotify_uri s = spotify_uri playing -> s = playing) ->
  loaded (after (serve supabase env req)) req
  = positioned 0 (pinned_then_ranked supabase req).
Proof.
  intros Hok Hnd Hone.
  pose proof (pinned_then_ranked_loaded supabase req Hnd Hone) as Hperm.
  assert (Hups : updates (serve supabase env req)
                 = numbered 0 (map id (pinned_then_ranked supabase req))).
  { rewrite (run_updates _ _ _ Hok). unfold pinned_then_ranked.
    destruct (pinned_of supabase req); cbn [app map numbered first_rank];
      rewrite map_map; reflexivity. }
  assert (HndU : List.NoDup (map fst (updates (serve supabase env req)))).
  { destruct (serve_ranked _ _ _ Hok) as (_ & _ & _ & Hup & _).
    rewrite Hup. apply update_ids_NoDup, Hnd. }
  rewrite <- (updated_positioned (updates (serve supabase env req)))
    by (try exact HndU; rewrite Hups; apply incl_refl).
  rewrite serve_after. unfold loaded at 1, queued_rows.
  rewrite apply_updates_queue.
  rewrite filter_map_commute
    by (intros r Hr; apply (updates_keep_selection supabase env req); assumption).
  apply order_strict.
  - apply Permutation_map.
    etransitivity; [|symmetry; exact Hperm].
    unfold loaded, queued_rows. symmetry. apply order_Permutation.
  - rewrite (updated_positioned (updates (serve supabase env req)) _ 0)
      by (try exact HndU; rewrite Hups; apply incl_refl).
    apply positioned_sorted.
Qed.

(** X10.  After a rerank of a queue with unique ids in which no other
    queued row carries the playing URI, reading the queue back returns the
    pinned song (if any) followed by the ranked songs in ranked order, their
    positions rewritten to 0, 1, 2, ... without gap; no song is lost and
    none is added. *)
Theorem rerank_read_back (supabase : Client) (env : Env) (req : Request) :
  ranked_ok (serve supabase env req) = true ->
  List.NoDup (map id (queue supabase)) ->
  (forall playing s,
      pinned_of supabase req = Some playing ->
      In s (loaded supabase req) ->
      spotify_uri s = spotify_uri playing -> s = playing) ->
  loaded (after (serve supabase env req)) req
  = positioned 0 (pinned_then_ranked supabase req)
  /\ Permutation (pinned_then_ranked supabase req) (loaded supabase req).
Proof.
  intros Hok Hnd Hone. split.
  - apply read_back_positions; assumption.
  - apply pinned_then_ranked_loaded; assumption.
Qed.

Lemma rerank_read_back_witness :
  loaded (after (serve bystanders env rerank_request)) rerank_request
  = positioned 0 (pinned_then_ranked bystanders rerank_request)
  /\ Permutation (pinned_then_ranked bystanders rerank_request)
                 [row_P; row_X 4; row_Y 7; row_Z 9].
Proof.
  apply (rerank_read_back bystanders env rerank_request).
  - reflexivity.
  - repeat constructor; cbn; intuition discriminate.
  - intros playing s Hp Hs E.
    assert (Hpin : pinned_of bystanders rerank_request = Some row_P)
      by reflexivity.
    rewrite Hpin in Hp. injection Hp as <-.
    assert (Hl : loaded bystanders rerank_request
                 = [row_P; row_X 4; row_Y 7; row_Z 9]) by reflexivity.
    rewrite Hl in Hs.
    destruct Hs as [<-|[<-|[<-|[<-|[]]]]];
      [reflexivity | discriminate E | discriminate E | discriminate E].
Defined.

Lemma try_serve_same_queue (updates : list (string * Z)) (supabase : Client)
      (env : Env) (req : Request) :
  queued_rows (apply_updates updates supabase) (string_of (req_session_id req))
  = queued_rows supabase (string_of (req_session_id req)) ->
  try_serve (apply_updates updates supabase) env req
  = try_serve supabase env req.
Proof.
  intros H. unfold try_serve, select_queued, respond. rewrite H. reflexivity.
Qed.

(** X11.  Ids being unique, a run of rank-queue for one session changes
    nothing of what a later run for another session reads, answers and
    writes. *)
Theorem rerank_leaves_other_sessions
        (supabase : Client) (env env' : Env) (req req' : Request) :
  List.NoDup (map id (queue supabase)) ->
  string_of (req_session_id req') <> string_of (req_session_id req) ->
  let o := serve supabase env req in
  loaded (after o) req' = loaded supabase req'
  /\ response (serve (after o) env' req') = response (serve supabase env' req')
  /\ updates (serve (after o) env' req') = updates (serve supabase env' req').
Proof.
  intros Hnd Hsid o. unfold o. rewrite serve_after.
  assert (Hq : queued_rows (apply_updates (updates (serve supabase env req)) supabase)
                           (string_of (req_session_id req'))
               = queued_rows supabase (string_of (req_session_id req'))).
  { unfold queued_rows. rewrite apply_updates_queue.
    rewrite filter_map_commute
      by (intros r Hr; apply (updates_keep_selection supabase env req);
          assumption).
    f_equal. rewrite <- (map_id (List.filter _ (queue supabase))) at 2.
    apply map_ext_in. intros r Hr. apply filter_In in Hr.
    destruct Hr as [Hr Hkeep].
    apply untouched_row; [exact Hnd | exact Hr |].
    left. intros E. apply Hsid. rewrite <- E.
    apply andb_true_iff in Hkeep. destruct Hkeep as [Hkeep _].
    apply andb_true_iff in Hkeep. destruct Hkeep as [Hkeep _].
    apply String.eqb_eq in Hkeep. symmetry. exact Hkeep. }
  split; [exact Hq|].
  unfold serve.
  destruct (String.eqb (method req') "OPTIONS"); [split; reflexivity|].
  rewrite (try_serve_same_queue _ _ _ _ Hq).
  destruct (try_serve supabase env' req') as [completion issued].
  split; reflexivity.
Qed.

Lemma rerank_leaves_other_sessions_witness :
  let o := serve bystanders env rerank_request in
  loaded (after o) other_request = [row_other]
  /\ response (serve (after o) env other_request)
     = mkResponse 200 (Message true "Not enough songs to rank").
Proof.
  intros o.
  destruct (rerank_leaves_other_sessions
              bystanders env env rerank_request other_request)
    as (Hl & Hr & _).
  - repeat constructor; cbn; intuition discriminate.
  - discriminate.
  - fold o in Hl, Hr. rewrite Hl, Hr. split; reflexivity.
Defined.

(** X12.  rank-queue answers with status 200 or 500, and with 500 exactly
    when the request is not a preflight and carries no session id, or a
    credential is missing, or the read of the queue fails; an unknown song
    or a failing dataset lookup never makes it fail.  A 500 writes
    nothing. *)
Theorem rerank_status (supabase : Client) (env : Env) (req : Request) :
  let o := serve supabase env req in
  (http_status (response o) = 200%Z \/ http_status (response o) = 500%Z)
  /\ (http_status (response o) = 500%Z
      <-> String.eqb (method req) "OPTIONS" = false
          /\ (truthy (req_session_id req) = false
              \/ truthy (SUPABASE_URL env) = false
              \/ truthy (SUPABASE_SERVICE_ROLE_KEY env) = false
              \/ failure supabase ReadQueue <> None))
  /\ (http_status (response o) = 500%Z -> updates o = [] /\ after o = supabase).
Proof.
  intros o.
  assert (Hw : http_status (response o) = 500%Z ->
               updates o = [] /\ after o = supabase).
  { intros H. unfold o. rewrite serve_after.
    assert (Hok : ranked_ok (serve supabase env req) = false).
    { destruct (ranked_ok (serve supabase env req)) eqn:Hok; [|reflexivity].
      destruct (serve_ranked _ _ _ Hok) as (_ & _ & _ & _ & _ & H200).
      fold o in H200. rewrite H200 in H. discriminate. }
    rewrite (serve_unranked _ _ _ Hok), apply_no_update. split; reflexivity. }
  split; [|split; [|exact Hw]]; clear Hw; unfold o, serve;
    destruct (String.eqb (method req) "OPTIONS");
    try (cbn; intuition discriminate);
    unfold try_serve;
    (destruct (truthy (req_session_id req));
     [|cbn; intuition discriminate]);
    (destruct (truthy (SUPABASE_URL env));
     [|cbn; intuition discriminate]);
    (destruct (truthy (SUPABASE_SERVICE_ROLE_KEY env));
     [|cbn; intuition discriminate]);
    cbn [negb orb]; unfold select_queued, respond;
    (destruct (failure supabase ReadQueue) as [message|];
     [cbn; intuition discriminate|]);
    cbn [error data];
    (destruct (queued_rows supabase (string_of (req_session_id req)))
       as [|first others]; [cbn; intuition discriminate|]);
    destruct (separate (currently_playing_uri req) (first :: others))
      as [currentlyPlayingSong songsToRank];
    (destruct (length songsToRank <=? 2)%nat; [cbn; intuition discriminate|]);
    (destruct (length (reference_features supabase songsToRank) =? 0)%nat;
     [cbn; intuition discriminate|]);
    destruct (rank_songs supabase _ _ songsToRank) as [ranked notFound];
    cbn; intuition discriminate.
Qed.

Lemma rerank_status_witness :
  let o := serve (client [row_P; row_X 1] queue_fails) env rerank_request in
  http_status (response o) = 500%Z
  /\ updates o = [] /\ after o = client [row_P; row_X 1] queue_fails.
Proof.
  intros o.
  destruct (rerank_status (client [row_P; row_X 1] queue_fails) env
                          rerank_request)
    as (_ & [_ H500] & Hwrite).
  assert (H : http_status (response o) = 500%Z).
  { apply H500. split; [reflexivity|].
    right. right. right. discriminate. }
  split; [exact H | apply Hwrite, H].
Defined.

End ReadBack.

(** ** rank-queue and get-recommendations on one store *)

Section Recommendations_after_rerank.
Import GetRecommendations QueueOrder.

Lemma updated_title (updates : list (string * Z)) (r : QueueRow) :
  song_title (updated updates r) = song_title r.
Proof.
  pose proof (updated_columns updates r) as Hc.
  unfold columns_but_pos in Hc. injection Hc as _ _ _ H _ _ _. exact H.
Qed.

Lemma updated_uri (updates : list (string * Z)) (r : QueueRow) :
  spotify_uri (updated updates r) = spotify_uri r.
Proof.
  pose proof (updated_columns updates r) as Hc.
  unfold columns_but_pos in Hc. injection Hc as _ _ H _ _ _ _. exact H.
Qed.

Lemma played_rows_updated (updates : list (string * Z)) (supabase : Client)
      (sid : string) :
  played_rows (apply_updates updates supabase) sid
  = map (updated updates) (played_rows supabase sid).
Proof.
  unfold played_rows. rewrite apply_updates_queue.
  rewrite filter_map_commute.
  - rewrite order_map; [apply firstn_map|].
    intros x y. unfold played_at_descending.
    pose proof (updated_columns updates x) as Hx.
    pose proof (updated_columns updates y) as Hy.
    unfold columns_but_pos in Hx, Hy.
    injection Hx as _ _ _ _ _ _ Hx. injection Hy as _ _ _ _ _ _ Hy.
    rewrite Hx, Hy. reflexivity.
  - intros r _. pose proof (updated_columns updates r) as Hc.
    unfold columns_but_pos in Hc. injection Hc as _ Hs _ _ _ Hst _.
    rewrite Hs, Hst. reflexivity.
Qed.

Lemma seen_rows_updated (updates : list (string * Z)) (supabase : Client)
      (sid : string) :
  seen_rows (apply_updates updates supabase) sid
  = map (updated updates) (seen_rows supabase sid).
Proof.
  unfold seen_rows. rewrite apply_updates_queue.
  apply filter_map_commute.
  intros r _. pose proof (updated_columns updates r) as Hc.
  unfold columns_but_pos in Hc. injection Hc as _ Hs _ _ _ Hst _.
  rewrite Hs, Hst. reflexivity.
Qed.

Lemma seed_features_fold_updated (updates : list (string * Z))
      (supabase : Client) (rows : list QueueRow)
      (seedFeatures : list AudioFeatures) :
  fold_left (fun seedFeatures song =>
               match getFeaturesFromPopularSongs
                       (song_title song) (apply_updates updates supabase) with
               | Some features => seedFeatures ++ [features]
               | None => seedFeatures
               end)
            (map (updated updates) rows) seedFeatures
  = fold_left (fun seedFeatures song =>
                 match getFeaturesFromPopularSongs (song_title song) supabase with
                 | Some features => seedFeatures ++ [features]
                 | None => seedFeatures
                 end)
              rows seedFeatures.
Proof.
  revert seedFeatures.
  induction rows as [|r rest IH]; intros seedFeatures; [reflexivity|].
  cbn [map fold_left]. rewrite updated_title.
  change (getFeaturesFromPopularSongs (song_title r)
            (apply_updates updates supabase))
    with (getFeaturesFromPopularSongs (song_title r) supabase).
  apply IH.
Qed.

Lemma seed_features_updated (updates : list (string * Z)) (supabase : Client)
      (rows : list QueueRow) :
  seed_features (apply_updates updates supabase) (map (updated updates) rows)
  = seed_features supabase rows.
Proof. apply seed_features_fold_updated. Qed.

Lemma recommendations_after_updates (updates : list (string * Z))
      (supabase : Client) (env : Env) (req : Request) :
  serve (apply_updates updates supabase) env req = serve supabase env req.
Proof.
  unfold serve. destruct (String.eqb (method req) "OPTIONS"); [reflexivity|].
  f_equal. unfold try_serve.
  destruct (negb (truthy (req_session_id req))); [reflexivity|].
  destruct (negb (truthy (SUPABASE_URL env))
            || negb (truthy (SUPABASE_SERVICE_ROLE_KEY env))); [reflexivity|].
  unfold select_played, select_seen, respond.
  rewrite played_rows_updated, seen_rows_updated.
  change (failure (apply_updates updates supabase)) with (failure supabase).
  destruct (failure supabase ReadPlayed) as [message|]; [reflexivity|].
  cbn [error data].
  destruct (played_rows supabase (string_of (req_session_id req)))
    as [|first others] eqn:Hplayed; [reflexivity|].
  change (updated updates first :: map (updated updates) others)
    with (map (updated updates) (first :: others)).
  cbn [map].
  change (updated updates first :: map (updated updates) others)
    with (map (updated updates) (first :: others)).
  rewrite seed_features_updated.
  destruct (length (seed_features supabase (first :: others)) =? 0)%nat;
    [reflexivity|].
  assert (Hex : exclusion_set
                  (data match failure supabase ReadSeen with
                        | Some message => mkResult None (Some message)
                        | None =>
                            mkResult
                              (Some (map (updated updates)
                                         (seen_rows supabase
                                            (string_of (req_session_id req)))))
                              None
                        end)
                = exclusion_set
                    (data match failure supabase ReadSeen with
                          | Some message => mkResult None (Some message)
                          | None =>
                              mkResult
                                (Some (seen_rows supabase
                                         (string_of (req_session_id req))))
                                None
                          end)).
  { destruct (failure supabase ReadSeen); [reflexivity|].
    cbn [data]. unfold exclusion_set. rewrite map_map.
    f_equal. apply map_ext. intros r. apply updated_uri. }
  rewrite Hex. reflexivity.
Qed.

(** X13.  A run of rank-queue never changes what get-recommendations
    answers: for every request, the answer on the store the run leaves is the
    answer on the store it found. *)
Theorem rerank_keeps_recommendations
        (supabase : Client) (env env' : Env)
        (rerank : RankQueue.Request) (req : Request) :
  serve (RankQueue.after (RankQueue.serve supabase env rerank)) env' req
  = serve supabase env' req.
Proof.
  rewrite serve_after. apply recommendations_after_updates.
Qed.

End Recommendations_after_rerank.

(** ** get-recommendations: the nearest candidates *)

Section RecommendationsMore.
Import GetRecommendations Recommending.

Lemma score_fold_map (excludeUris : gset string)
      (centroid : AudioFeatures) (weights : Weights)
      (candidates : list PopularSong) (ranked : list RankedSong) :
  fold_left
    (fun ranked candidate =>
       if bool_decide (popular_uri candidate ∈ excludeUris) then ranked
       else
         let candidateFeatures := popular_features candidate in
         let dist := distance candidateFeatures centroid weights in
         ranked ++ [mkRanked (popular_id candidate)
                             (track_name candidate)
                             match artists candidate with
                             | Some a => if String.eqb a "" then "Unknown"
                                         else a
                             | None => "Unknown"
                             end
                             (popular_uri candidate)
                             candidateFeatures dist])
    candidates ranked
  = ranked
      ++ map (as_ranked centroid weights)
             (List.filter
                (fun c => negb (bool_decide (popular_uri c ∈ excludeUris)))
                candidates).
Proof.
  revert ranked. induction candidates as [|c rest IH]; intros ranked;
    cbn [fold_left List.filter map].
  - rewrite app_nil_r. reflexivity.
  - rewrite IH.
    destruct (bool_decide (popular_uri c ∈ excludeUris)); cbn [negb map];
      [reflexivity|].
    rewrite <- app_assoc. reflexivity.
Qed.

Lemma score_as_map (excludeUris : gset string)
      (centroid : AudioFeatures) (weights : Weights)
      (candidates : list PopularSong) :
  score excludeUris centroid weights candidates
  = map (as_ranked centroid weights)
        (List.filter
           (fun c => negb (bool_decide (popular_uri c ∈ excludeUris)))
           candidates).
Proof. unfold score. rewrite score_fold_map. reflexivity. Qed.

Lemma seed_features_fold_length (supabase : Client) (rows : list QueueRow)
      (seedFeatures : list AudioFeatures) :
  (length
     (fold_left (fun seedFeatures song =>
                   match getFeaturesFromPopularSongs (song_title song) supabase with
                   | Some features => seedFeatures ++ [features]
                   | None => seedFeatures
                   end)
                rows seedFeatures)
   <= length seedFeatures + length rows)%nat.
Proof.
  revert seedFeatures.
  induction rows as [|r rest IH]; intros seedFeatures; cbn [fold_left length];
    [lia|].
  etransitivity; [apply IH|].
  destruct (getFeaturesFromPopularSongs (song_title r) supabase);
    [rewrite length_app; cbn [length]; lia | lia].
Qed.

Lemma seeds_at_most_five (supabase : Client) (req : Request) :
  (length (seeds_of supabase req) <= 5)%nat.
Proof.
  unfold seeds_of, seed_features.
  etransitivity; [apply seed_features_fold_length|].
  unfold played_rows. rewrite length_firstn. cbn [length]. lia.
Qed.

Lemma scored_at_most_candidates (supabase : Client) (req : Request) :
  (length (scored_of supabase req) <= length (candidates_of supabase) <= 1000)%nat.
Proof.
  unfold scored_of. rewrite score_as_map, length_map. split.
  - apply List.filter_length_le.
  - unfold candidates_of. rewrite length_firstn. lia.
Qed.

Lemma slice0_length {A : Type} (l : list A) (n : Z) :
  length (slice0 l n)
  = Z.to_nat (if (n <? 0)%Z then Z.max (Z.of_nat (length l) + n) 0
              else Z.min n (Z.of_nat (length l))).
Proof.
  unfold slice0. rewrite length_firstn.
  destruct (n <? 0)%Z eqn:E;
    [apply Z.ltb_lt in E | apply Z.ltb_ge in E]; lia.
Qed.

(** The run that answers with recommendations, read backwards. *)
Lemma serve_recommendations (supabase : Client) (env : Env) (req : Request)
      (recs : list RankedSong) (seeds total : nat) :
  body (serve supabase env req) = Recommendations recs seeds total ->
  recs = slice0 (JS.sort by_distance (scored_of supabase req)) (limit_of req)
  /\ recs <> []
  /\ seeds = length (seeds_of supabase req)
  /\ seeds_of supabase req <> []
  /\ total = length (scored_of supabase req).
Proof.
  unfold serve.
  destruct (String.eqb (method req) "OPTIONS"); [discriminate|].
  unfold try_serve.
  destruct (negb (truthy (req_session_id req))); [discriminate|].
  destruct (negb (truthy (SUPABASE_URL env))
            || negb (truthy (SUPABASE_SERVICE_ROLE_KEY env))); [discriminate|].
  unfold scored_of, excluded_of, seeds_of, candidates_of, limit_of.
  unfold select_played, select_candidates, respond.
  destruct (failure supabase ReadPlayed); [discriminate|]. cbn [error data].
  destruct (played_rows supabase (string_of (req_session_id req)))
    as [|song songs]; [discriminate|].
  destruct (length (seed_features supabase (song :: songs)) =? 0)%nat eqn:Hs;
    [discriminate|].
  destruct (failure supabase ReadCandidates); [discriminate|]. cbn [error data].
  destruct (firstn 1000 (popular_songs supabase)) as [|c cs]; [discriminate|].
  destruct (length (slice0 _ _) =? 0)%nat eqn:Hr; [discriminate|].
  cbn [body]. intros H. injection H as <- <- <-.
  apply Nat.eqb_neq in Hs, Hr. rewrite sort_length.
  repeat split; try reflexivity.
  - intros E. rewrite E in Hr. apply Hr. reflexivity.
  - intros E. rewrite E in Hs. apply Hs. reflexivity.
Qed.




Lemma StronglySorted_firstn {A : Type} (R : A -> A -> Prop) (n : nat) (l : list A) :
  StronglySorted R l -> StronglySorted R (firstn n l).
Proof.
  intros H. revert n. induction H as [|a l _ IH Hf]; intros n.
  - rewrite firstn_nil. constructor.
  - destruct n as [|n]; cbn [firstn]; constructor; [apply IH|].
    rewrite List.Forall_forall in *. intros x Hx. apply Hf.
    apply In_firstn in Hx. exact Hx.
Qed.





(** X15.  Every recommendation is made of one of the first 1000 rows of
    popular_songs: id, track name, URI and features are the row's, the
    artists are the row's or "Unknown" when the column is null or empty
    (never the empty string), and the distance is the one of the row's
    features to the centroid of the seeds under their weights. *)
Theorem recommendation_provenance
        (supabase : Client) (env : Env) (req : Request) (r : RankedSong) :
  In r (recommendations_of (serve supabase env req)) ->
  exists candidate,
    In candidate (firstn 1000 (popular_songs supabase))
    /\ r = as_ranked (computeCentroid (seeds_of supabase req))
                     (computeDynamicWeights (seeds_of supabase req) None)
                     candidate
    /\ ranked_id r = popular_id candidate
    /\ ranked_track_name r = track_name candidate
    /\ ranked_uri r = popular_uri candidate
    /\ ranked_features r = popular_features candidate
    /\ ranked_artists r <> ""%string
    /\ (forall a, artists candidate = Some a -> a <> ""%string ->
                  ranked_artists r = a).
Proof.
  intros H. apply recommendations_scored in H.
  unfold scored_of in H. rewrite score_as_map in H.
  apply in_map_iff in H. destruct H as (c & <- & Hc).
  apply filter_In in Hc. destruct Hc as [Hc _].
  exists c. split; [exact Hc|]. split; [reflexivity|].
  unfold as_ranked. cbn [ranked_id ranked_track_name ranked_uri
                         ranked_features ranked_artists].
  repeat (split; [reflexivity|]). split.
  - destruct (artists c) as [a|]; [|discriminate].
    destruct (String.eqb_spec a ""); [discriminate | assumption].
  - intros a -> Ha. destruct (String.eqb_spec a ""); [contradiction | reflexivity].
Qed.

Lemma recommendation_provenance_witness :
  exists candidate,
    In candidate (firstn 1000 (popular_songs (one_played no_failure)))
    /\ ranked_id song_N = popular_id candidate
    /\ ranked_uri song_N = popular_uri candidate
    /\ ranked_artists song_N <> ""%string.
Proof.
  assert (Hin : In song_N
                   (recommendations_of
                      (serve (one_played no_failure) env recommend_request))).
  { rewrite serve_scored;
      [ | reflexivity | reflexivity | discriminate | discriminate
        | reflexivity | discriminate ].
    cbv zeta.
    assert (Hs : scored_of (one_played no_failure) recommend_request
                 = [song_N]) by reflexivity.
    rewrite Hs. cbn [JS.sort fold_right sort_insert].
    rewrite slice0_all by (cbv; discriminate).
    left. reflexivity. }
  destruct (recommendation_provenance _ _ _ _ Hin)
    as (c & Hc & _ & Hid & _ & Huri & _ & Hart & _).
  exists c. repeat split; assumption.
Defined.

(** X16.  The numbers of an answer with recommendations: between 1 and 5
    seed songs were used, [total_candidates] is the number of scored
    candidates, at most the number of candidates read and at most 1000, and
    between 1 and [total_candidates] recommendations are returned, never
    more than a limit that is not negative. *)
Theorem recommendation_statistics
        (supabase : Client) (env : Env) (req : Request)
        (recs : list RankedSong) (seeds total : nat) :
  body (serve supabase env req) = Recommendations recs seeds total ->
  http_status (serve supabase env req) = 200%Z
  /\ seeds = length (seeds_of supabase req)
  /\ (1 <= seeds <= 5)%nat
  /\ total = length (scored_of supabase req)
  /\ (total <= length (candidates_of supabase) <= 1000)%nat
  /\ (1 <= length recs <= total)%nat
  /\ ((0 <= limit_of req)%Z -> (Z.of_nat (length recs) <= limit_of req)%Z).
Proof.
  intros Hbody.
  destruct (serve_recommendations _ _ _ _ _ _ Hbody)
    as (Hrecs & Hne & -> & Hseeds & ->).
  split.
  { revert Hbody. unfold serve.
    destruct (String.eqb (method req) "OPTIONS"); [discriminate|].
    unfold try_serve.
    destruct (negb (truthy (req_session_id req))); [discriminate|].
    destruct (negb (truthy (SUPABASE_URL env))
              || negb (truthy (SUPABASE_SERVICE_ROLE_KEY env))); [discriminate|].
    destruct (error (select_played supabase _)); [discriminate|].
    destruct (data (select_played supabase _)) as [[|song songs]|];
      [discriminate| |discriminate].
    destruct (length (seed_features supabase (song :: songs)) =? 0)%nat;
      [discriminate|].
    destruct (error (select_candidates supabase)); [discriminate|].
    destruct (data (select_candidates supabase)) as [[|c cs]|];
      [discriminate| |discriminate].
    destruct (length (slice0 _ _) =? 0)%nat; [discriminate | reflexivity]. }
  split; [reflexivity|]. split.
  { pose proof (seeds_at_most_five supabase req).
    destruct (seeds_of supabase req); [contradiction Hseeds; reflexivity|].
    cbn [length] in *. lia. }
  split; [reflexivity|]. split; [apply scored_at_most_candidates|].
  assert (Hlen : length recs
                 = Z.to_nat
                     (if (limit_of req <? 0)%Z
                      then Z.max (Z.of_nat (length (scored_of supabase req))
                                  + limit_of req) 0
                      else Z.min (limit_of req)
                                 (Z.of_nat (length (scored_of supabase req))))).
  { rewrite Hrecs, slice0_length, sort_length. reflexivity. }
  split.
  - split; [destruct recs; [contradiction Hne; reflexivity | cbn [length]; lia]|].
    rewrite Hlen. destruct (limit_of req <? 0)%Z eqn:El;
      [apply Z.ltb_lt in El | apply Z.ltb_ge in El]; lia.
  - intros Hl. rewrite Hlen.
    assert (E : (limit_of req <? 0)%Z = false) by (apply Z.ltb_ge; exact Hl).
    rewrite E. lia.
Qed.

Lemma recommendation_statistics_witness :
  let supabase := one_played seen_fails in
  http_status (serve supabase env recommend_request) = 200%Z
  /\ (1 <= 1 <= 5)%nat
  /\ 2%nat = length (scored_of supabase recommend_request)
  /\ (1 <= length (JS.sort by_distance (scored_of supabase recommend_request))
      <= 2)%nat.
Proof.
  intros supabase.
  destruct (recommendation_statistics supabase env recommend_request
              (JS.sort by_distance (scored_of supabase recommend_request)) 1 2)
    as (Hst & _ & Hseeds & Htotal & _ & Hrecs & _).
  - destruct seen_fails_recommendations as [H _]. fold supabase in H.
    rewrite H. reflexivity.
  - repeat split; try assumption; lia.
Defined.

(** X17.  Once the seeds and the candidates are there, the answer "All
    popular songs are already in queue" is given exactly when no candidate
    was left by the exclusion, or the limit is 0, or the limit is negative
    and at least as large in magnitude as the number of scored candidates;
    with a smaller negative limit the songs returned are the sorted
    candidates without the last [- limit] of them. *)
Theorem nothing_to_recommend
        (supabase : Client) (env : Env) (req : Request) :
  well_formed env req = true ->
  failure supabase ReadPlayed = None ->
  played_rows supabase (string_of (req_session_id req)) <> [] ->
  seeds_of supabase req <> [] ->
  failure supabase ReadCandidates = None ->
  candidates_of supabase <> [] ->
  let n := Z.of_nat (length (scored_of supabase req)) in
  (serve supabase env req
   = mkResponse 200
       (NoRecommendations "All popular songs are already in queue")
   <-> (n = 0 \/ limit_of req = 0 \/ limit_of req <= - n)%Z)
  /\ ((- n < limit_of req < 0)%Z ->
      recommendations_of (serve supabase env req)
      = firstn (Z.to_nat (n + limit_of req))
               (JS.sort by_distance (scored_of supabase req))).
Proof.
  intros Hwf Hp Hrows Hseeds Hc Hcand n.
  rewrite (serve_scored _ _ _ Hwf Hp Hrows Hseeds Hc Hcand). cbv zeta.
  pose proof (slice0_length (JS.sort by_distance (scored_of supabase req))
                            (limit_of req)) as Hlen.
  rewrite sort_length in Hlen. fold n in Hlen.
  split.
  - destruct (length (slice0 _ _) =? 0)%nat eqn:E.
    + apply Nat.eqb_eq in E. split; [intros _|reflexivity].
      rewrite E in Hlen. destruct (limit_of req <? 0)%Z eqn:El;
        [apply Z.ltb_lt in El | apply Z.ltb_ge in El]; lia.
    + apply Nat.eqb_neq in E. split; [discriminate|].
      intros H. exfalso. apply E. rewrite Hlen.
      destruct (limit_of req <? 0)%Z eqn:El;
        [apply Z.ltb_lt in El | apply Z.ltb_ge in El]; lia.
  - intros Hl.
    assert (El : (limit_of req <? 0)%Z = true) by (apply Z.ltb_lt; lia).
    destruct (length (slice0 _ _) =? 0)%nat eqn:E.
    + apply Nat.eqb_eq in E. rewrite E, El in Hlen. lia.
    + cbn [recommendations_of body]. unfold slice0. rewrite El, sort_length.
      fold n. f_equal. lia.
Qed.

Lemma nothing_to_recommend_witness :
  serve (one_played no_failure) env zero_limit_request
  = mkResponse 200
      (NoRecommendations "All popular songs are already in queue").
Proof.
  destruct (nothing_to_recommend (one_played no_failure) env zero_limit_request)
    as [H _];
    [reflexivity | reflexivity | discriminate | discriminate | reflexivity
     | discriminate |].
  apply H. right. left. reflexivity.
Defined.

(** X18.  get-recommendations answers with status 200 or 500, and with 500
    exactly when the request is not a preflight and carries no session id,
    or a credential is missing, or the read of the played songs fails, or
    played songs and seed features were found and the read of the candidates
    fails.  It is then the answer of the catch block and holds no
    recommendation. *)
Theorem recommend_status (supabase : Client) (env : Env) (req : Request) :
  let answer := serve supabase env req in
  (http_status answer = 200%Z \/ http_status answer = 500%Z)
  /\ (http_status answer = 500%Z <-> fails supabase env req = true)
  /\ is_error answer = fails supabase env req
  /\ (fails supabase env req = true -> recommendations_of answer = []).
Proof.
  intros answer. unfold answer, fails, serve, seeds_of.
  destruct (String.eqb (method req) "OPTIONS");
    [cbn; intuition discriminate|].
  unfold try_serve.
  destruct (truthy (req_session_id req)); [|cbn; intuition discriminate].
  destruct (truthy (SUPABASE_URL env)); [|cbn; intuition discriminate].
  destruct (truthy (SUPABASE_SERVICE_ROLE_KEY env));
    [|cbn; intuition discriminate].
  cbn [negb orb andb]. unfold select_played, select_candidates, respond.
  destruct (failure supabase ReadPlayed); [cbn; intuition discriminate|].
  cbn [error data].
  destruct (played_rows supabase (string_of (req_session_id req)))
    as [|song songs]; [cbn; intuition discriminate|].
  destruct (seed_features supabase (song :: songs)) as [|seed seeds];
    [cbn; intuition discriminate|].
  cbn [length Nat.eqb].
  destruct (failure supabase ReadCandidates); [cbn; intuition discriminate|].
  cbn [error data].
  destruct (firstn 1000 (popular_songs supabase)) as [|c cs];
    [cbn; intuition discriminate|].
  destruct (length (slice0 _ _) =? 0)%nat;
    cbn [http_status body is_error recommendations_of Z.eqb Pos.eqb];
    intuition discriminate.
Qed.

Lemma recommend_status_witness :
  fails (client [row_W] queue_fails) (mkEnv None None) recommend_request = true
  /\ http_status (serve (client [row_W] queue_fails) (mkEnv None None)
                        recommend_request)
     = 500%Z.
Proof.
  destruct (recommend_status (client [row_W] queue_fails) (mkEnv None None)
                             recommend_request)
    as (_ & [_ H500] & _).
  split; [reflexivity | apply H500; reflexivity].
Defined.

End RecommendationsMore.

(** ** The two feature lookups: the cleaned title *)

Section CleanTitle.













End CleanTitle.

(** ** app/index.tsx: Spotify URLs and URIs *)

Section SpotifyUris.
Import App Evening.

Lemma append_String (a : ascii) (p s : string) :
  (String a p ++ s)%string = String a (p ++ s).
Proof. reflexivity. Qed.

Lemma append_EmptyString (s : string) : (EmptyString ++ s)%string = s.
Proof. reflexivity. Qed.

Lemma strip_prefix_app (p s : string) : strip_prefix p (p ++ s) = Some s.
Proof.
  induction p as [|a p IH]; [reflexivity|].
  rewrite append_String. cbn [strip_prefix].
  rewrite Ascii.eqb_refl. exact IH.
Qed.

Lemma startsWith_app (p s : string) : startsWith (p ++ s) p = true.
Proof. unfold startsWith. rewrite strip_prefix_app. reflexivity. Qed.

Lemma alphanumerics_app (captured behind : string) :
  alphanumeric captured = true -> ends_the_id behind = true ->
  alphanumerics (captured ++ behind) = captured.
Proof.
  intros Hc Hb. induction captured as [|c rest IH].
  - rewrite append_EmptyString.
    destruct behind as [|b behind]; [reflexivity|].
    cbn [alphanumerics ends_the_id] in *.
    apply negb_true_iff in Hb. rewrite Hb. reflexivity.
  - rewrite append_String. cbn [alphanumerics alphanumeric] in *.
    apply andb_true_iff in Hc. destruct Hc as [Hc Hrest].
    rewrite Hc, (IH Hrest). reflexivity.
Qed.

Lemma convert_fixed (urlOrUri : string) :
  startsWith urlOrUri "spotify:track:" = true ->
  convertSpotifyUrlToUri urlOrUri = urlOrUri.
Proof. intros H. unfold convertSpotifyUrlToUri. rewrite H. reflexivity. Qed.

Lemma convert_shape (urlOrUri : string) :
  startsWith (convertSpotifyUrlToUri urlOrUri) "spotify:track:" = true
  \/ (convertSpotifyUrlToUri urlOrUri = urlOrUri
      /\ startsWith urlOrUri "spotify:track:" = false
      /\ match_track urlOrUri = None).
Proof.
  unfold convertSpotifyUrlToUri.
  destruct (startsWith urlOrUri "spotify:track:") eqn:E; [left; exact E|].
  destruct (match_track urlOrUri) as [captured|].
  - left. apply (startsWith_app "spotify:track:").
  - right. repeat split.
Qed.

Lemma convert_idempotent (urlOrUri : string) :
  convertSpotifyUrlToUri (convertSpotifyUrlToUri urlOrUri)
  = convertSpotifyUrlToUri urlOrUri.
Proof.
  destruct (convert_shape urlOrUri) as [H|(H & _)].
  - apply convert_fixed, H.
  - rewrite !H. reflexivity.
Qed.

Lemma convert_track_url (captured behind : string) :
  captured <> EmptyString ->
  alphanumeric captured = true -> ends_the_id behind = true ->
  convertSpotifyUrlToUri
    ("https://open.spotify.com/track/" ++ captured ++ behind)
  = ("spotify:track:" ++ captured)%string.
Proof.
  intros Hne Hc Hb. unfold convertSpotifyUrlToUri.
  rewrite !append_String, !append_EmptyString.
  cbn [startsWith strip_prefix Ascii.eqb Bool.eqb match_track].
  rewrite (alphanumerics_app captured behind Hc Hb).
  destruct captured; [contradiction Hne; reflexivity | reflexivity].
Qed.

(** X20.  [convertSpotifyUrlToUri] is idempotent and leaves a track URI as
    it is; what it returns is a track URI, or its argument when that holds no
    ["track/"] followed by a letter or digit; and the URL of a track on
    open.spotify.com, with or without a query behind the id, becomes the URI
    of that track. *)
Theorem convertSpotifyUrlToUri_normalises (urlOrUri captured behind : string) :
  convertSpotifyUrlToUri (convertSpotifyUrlToUri urlOrUri)
  = convertSpotifyUrlToUri urlOrUri
  /\ (startsWith urlOrUri "spotify:track:" = true ->
      convertSpotifyUrlToUri urlOrUri = urlOrUri)
  /\ (startsWith (convertSpotifyUrlToUri urlOrUri) "spotify:track:" = true
      \/ (convertSpotifyUrlToUri urlOrUri = urlOrUri
          /\ match_track urlOrUri = None))
  /\ (captured <> EmptyString ->
      alphanumeric captured = true -> ends_the_id behind = true ->
      convertSpotifyUrlToUri
        ("https://open.spotify.com/track/" ++ captured ++ behind)
      = ("spotify:track:" ++ captured)%string).
Proof.
  split; [apply convert_idempotent|]. split; [apply convert_fixed|].
  split; [|apply convert_track_url].
  destruct (convert_shape urlOrUri) as [H|(H & _ & Hm)];
    [left; exact H | right; split; assumption].
Qed.

Lemma convertSpotifyUrlToUri_normalises_witness :
  convertSpotifyUrlToUri (popular_uri candidate_U)
  = "spotify:track:4uLU6hMCjMI75M1A2tKUQC"%string
  /\ convertSpotifyUrlToUri "spotify:track:P" = "spotify:track:P"%string.
Proof.
  destruct (convertSpotifyUrlToUri_normalises
              "spotify:track:P" "4uLU6hMCjMI75M1A2tKUQC" "?si=1")
    as (_ & Hfixed & _ & Hurl).
  split.
  - apply Hurl; [discriminate | reflexivity | reflexivity].
  - apply Hfixed. reflexivity.
Defined.

End SpotifyUris.

(** ** Ordered reads *)

Section OrderFacts.
Context {A : Type} (before : A -> A -> bool) (good : A -> Prop).
Hypothesis before_trans :
  forall a b c, before a b = true -> before b c = true -> before a c = true.
Hypothesis before_total :
  forall a b, good a -> good b -> before a b = false -> before b a = true.

Lemma order_insert_sorted (a : A) (l : list A) :
  good a -> Forall good l ->
  StronglySorted (fun x y => before x y = true) l ->
  StronglySorted (fun x y => before x y = true) (order_insert before a l).
Proof.
  intros Ha Hl Hs. induction Hs as [|b rest Hs IH Hb]; cbn [order_insert].
  - constructor; constructor.
  - apply List.Forall_cons_iff in Hl. destruct Hl as [Hgb Hl].
    destruct (before a b) eqn:E.
    + constructor; [constructor; assumption|].
      constructor; [exact E|].
      eapply List.Forall_impl; [|exact Hb].
      intros c Hc. apply (before_trans a b c); assumption.
    + constructor; [apply IH, Hl|].
      rewrite List.Forall_forall in *. intros c Hc.
      apply (Permutation_in _ (order_insert_Permutation before a rest)) in Hc.
      destruct Hc as [<-|Hc]; [apply before_total; assumption | apply Hb, Hc].
Qed.

Lemma order_good (l : list A) : Forall good l -> Forall good (order before l).
Proof.
  intros H. rewrite List.Forall_forall in *. intros x Hx.
  apply H. apply (Permutation_in _ (order_Permutation before l)). exact Hx.
Qed.

Lemma order_sorted (l : list A) :
  Forall good l ->
  StronglySorted (fun x y => before x y = true) (order before l).
Proof.
  induction l as [|a rest IH]; intros H; [constructor|].
  apply List.Forall_cons_iff in H. destruct H as [Ha H].
  unfold order. cbn [fold_right]. fold (order before rest).
  apply order_insert_sorted; [exact Ha | apply order_good, H | apply IH, H].
Qed.

Lemma order_insert_filter (keep : A -> bool) (a : A) (l : list A) :
  StronglySorted (fun x y => before x y = true) l ->
  List.filter keep (order_insert before a l)
  = if keep a then order_insert before a (List.filter keep l)
    else List.filter keep l.
Proof.
  intros Hs. induction Hs as [|b rest Hs IH Hb]; cbn [order_insert List.filter].
  - destruct (keep a); reflexivity.
  - destruct (before a b) eqn:E; cbn [List.filter].
    + destruct (keep a) eqn:Ka; [|reflexivity].
      destruct (keep b) eqn:Kb; cbn [order_insert]; [rewrite E; reflexivity|].
      destruct (List.filter keep rest) as [|c others] eqn:F; [reflexivity|].
      cbn [order_insert].
      assert (Hc : In c rest).
      { assert (In c (List.filter keep rest)) by (rewrite F; left; reflexivity).
        apply filter_In in H. apply H. }
      rewrite List.Forall_forall in Hb.
      rewrite (before_trans a b c E (Hb c Hc)). reflexivity.
    + rewrite IH. destruct (keep b), (keep a); cbn [order_insert];
        rewrite ?E; reflexivity.
Qed.

Lemma order_filter (keep : A -> bool) (l : list A) :
  Forall good l ->
  order before (List.filter keep l) = List.filter keep (order before l).
Proof.
  induction l as [|a rest IH]; intros H; [reflexivity|].
  apply List.Forall_cons_iff in H. destruct H as [Ha H].
  cbn [List.filter]. unfold order at 2. cbn [fold_right].
  fold (order before rest).
  rewrite (order_insert_filter keep a _ (order_sorted rest H)).
  destruct (keep a); [|apply IH, H].
  unfold order at 1. cbn [fold_right]. fold (order before (List.filter keep rest)).
  rewrite (IH H). reflexivity.
Qed.

Lemma order_insert_last (a b : A) (l : list A) :
  before b a = true ->
  order_insert before b (l ++ [a]) = order_insert before b l ++ [a].
Proof.
  intros H. induction l as [|c rest IH]; cbn [app order_insert].
  - rewrite H. reflexivity.
  - destruct (before b c); [reflexivity | rewrite IH; reflexivity].
Qed.

Lemma order_app_last (a : A) (l : list A) :
  (forall b, In b l -> before b a = true) ->
  order before (l ++ [a]) = order before l ++ [a].
Proof.
  induction l as [|b rest IH]; intros H; [reflexivity|].
  unfold order in *. cbn [app fold_right].
  rewrite IH by (intros c Hc; apply H; right; exact Hc).
  apply order_insert_last. apply H. left. reflexivity.
Qed.

End OrderFacts.

Lemma pos_ascending_trans (a b c : QueueRow) :
  pos_ascending a b = true -> pos_ascending b c = true ->
  pos_ascending a c = true.
Proof.
  unfold pos_ascending.
  destruct (pos a), (pos b), (pos c); try discriminate; try reflexivity.
  rewrite !Z.leb_le. lia.
Qed.

Lemma pos_ascending_total (a b : QueueRow) :
  pos a <> None -> pos b <> None ->
  pos_ascending a b = false -> pos_ascending b a = true.
Proof.
  unfold pos_ascending.
  destruct (pos a), (pos b); try contradiction; intros _ _.
  rewrite Z.leb_gt, Z.leb_le. lia.
Qed.

Lemma queued_filter_positions (rows : list QueueRow) (sid : string) :
  Forall (fun r => pos r <> None)
         (List.filter
            (fun r => String.eqb (session_id r) sid
                      && Status_eqb (status r) queued
                      && match pos r with Some _ => true | None => false end)
            rows).
Proof.
  rewrite List.Forall_forall. intros r Hr. apply filter_In in Hr.
  destruct Hr as [_ Hr]. apply andb_true_iff in Hr. destruct Hr as [_ Hr].
  destruct (pos r); discriminate.
Qed.

(** ** app/index.tsx: a song is played, a song is added *)

Section PlayedAndAdded.
Import App Evening.

Lemma filter_filter_and {A : Type} (f g : A -> bool) (l : list A) :
  List.filter f (List.filter g l) = List.filter (fun x => g x && f x) l.
Proof.
  induction l as [|a rest IH]; [reflexivity|].
  cbn [List.filter]. destruct (g a); cbn [andb List.filter]; rewrite IH;
    reflexivity.
Qed.

Lemma update_played_queued (rows : list QueueRow) (sid spotifyUri : string)
      (now : Z) :
  List.filter
    (fun r => String.eqb (session_id r) sid
              && Status_eqb (status r) queued
              && match pos r with Some _ => true | None => false end)
    (update_played rows sid spotifyUri now)
  = List.filter
      (fun r => negb (String.eqb (spotify_uri r) spotifyUri))
      (List.filter
         (fun r => String.eqb (session_id r) sid
                   && Status_eqb (status r) queued
                   && match pos r with Some _ => true | None => false end)
         rows).
Proof.
  rewrite filter_filter_and. unfold update_played.
  induction rows as [|r rest IH]; [reflexivity|].
  cbn [map List.filter]. rewrite IH.
  destruct (String.eqb (session_id r) sid) eqn:Hs;
    destruct (String.eqb (spotify_uri r) spotifyUri) eqn:Hu;
    destruct (status r) eqn:Hst;
    cbn [andb negb Status_eqb mark_played session_id status pos];
    rewrite ?Hs, ?Hst, ?Hu; cbn [andb negb Status_eqb];
    rewrite ?andb_false_r; try reflexivity;
    destruct (pos r); reflexivity.
Qed.

Lemma update_played_elsewhere (rows : list QueueRow)
      (sid sid' spotifyUri : string) (now : Z) :
  sid' <> sid ->
  List.filter
    (fun r => String.eqb (session_id r) sid'
              && Status_eqb (status r) queued
              && match pos r with Some _ => true | None => false end)
    (update_played rows sid spotifyUri now)
  = List.filter
      (fun r => String.eqb (session_id r) sid'
                && Status_eqb (status r) queued
                && match pos r with Some _ => true | None => false end)
      rows.
Proof.
  intros Hne. unfold update_played.
  induction rows as [|r rest IH]; [reflexivity|].
  cbn [map List.filter]. rewrite IH.
  destruct (String.eqb_spec (session_id r) sid) as [Hs|Hs];
    cbn [andb]; [|reflexivity].
  destruct (String.eqb (spotify_uri r) spotifyUri); cbn [andb]; [|reflexivity].
  destruct (status r) eqn:Hst; cbn [Status_eqb]; [|rewrite Hst; reflexivity].
  cbn [mark_played session_id status pos Status_eqb andb].
  destruct (String.eqb_spec (session_id r) sid') as [Hs'|Hs'];
    [congruence | reflexivity].
Qed.

Lemma update_played_seen (rows : list QueueRow) (sid sid' spotifyUri : string)
      (now : Z) :
  map spotify_uri
      (List.filter
         (fun r => String.eqb (session_id r) sid'
                   && (Status_eqb (status r) queued
                       || Status_eqb (status r) played))
         (update_played rows sid spotifyUri now))
  = map spotify_uri
        (List.filter
           (fun r => String.eqb (session_id r) sid'
                     && (Status_eqb (status r) queued
                         || Status_eqb (status r) played))
           rows).
Proof.
  unfold update_played.
  induction rows as [|r rest IH]; [reflexivity|].
  cbn [map List.filter].
  destruct (String.eqb (session_id r) sid
            && String.eqb (spotify_uri r) spotifyUri
            && Status_eqb (status r) queued).
  - cbn [mark_played session_id status Status_eqb orb].
    destruct (status r); cbn [Status_eqb orb];
      destruct (String.eqb (session_id r) sid'); cbn [andb map spotify_uri];
      rewrite IH; reflexivity.
  - destruct (String.eqb (session_id r) sid'
              && (Status_eqb (status r) queued || Status_eqb (status r) played));
      cbn [map]; rewrite IH; reflexivity.
Qed.

Lemma update_played_twice (rows : list QueueRow) (sid spotifyUri : string)
      (now later : Z) :
  update_played (update_played rows sid spotifyUri now) sid spotifyUri later
  = update_played rows sid spotifyUri now.
Proof.
  unfold update_played. rewrite map_map. apply map_ext. intros r.
  destruct (String.eqb (session_id r) sid
            && String.eqb (spotify_uri r) spotifyUri
            && Status_eqb (status r) queued) eqn:E.
  - cbn [mark_played session_id spotify_uri status Status_eqb].
    rewrite andb_false_r. reflexivity.
  - rewrite E. reflexivity.
Qed.

Lemma filter_twice {A : Type} (keep : A -> bool) (l : list A) :
  List.filter keep (List.filter keep l) = List.filter keep l.
Proof.
  rewrite filter_filter_and. apply List.filter_ext.
  intros a. destruct (keep a); reflexivity.
Qed.

Lemma filter_song_of_row (spotifyUri : string) (rows : list QueueRow) :
  List.filter (fun s => negb (String.eqb (uri s) spotifyUri))
              (map song_of_row rows)
  = map song_of_row
        (List.filter (fun r => negb (String.eqb (spotify_uri r) spotifyUri))
                     rows).
Proof.
  induction rows as [|r rest IH]; [reflexivity|].
  cbn [map List.filter song_of_row uri].
  destruct (String.eqb (spotify_uri r) spotifyUri); cbn [negb map];
    rewrite IH; reflexivity.
Qed.

(** X21.  [deletePlayedSong] with a session and an update that succeeds:
    the queue read of the session returns what it returned, in the same
    order, without the rows of the played URI, and the songs left on the
    screen are what [loadQueue] would then show if they were what it showed
    before; the queue reads of other sessions and the URIs get-recommendations
    excludes are unchanged; and a second call for the same URI, whenever it
    comes, changes nothing ([played_at] is not overwritten). *)
Theorem deletePlayedSong_marks_played
        (sessionId : option string) (now later : Z) (spotifyUri : string)
        (supabase : Client) (songs : list Song) :
  truthy sessionId = true ->
  let sid := string_of sessionId in
  let left := deletePlayedSong sessionId now false spotifyUri supabase songs in
  queued_rows (fst left) sid
  = List.filter (fun r => negb (String.eqb (spotify_uri r) spotifyUri))
                (queued_rows supabase sid)
  /\ (songs = map song_of_row (queued_rows supabase sid) ->
      snd left = map song_of_row (queued_rows (fst left) sid))
  /\ (forall sid', sid' <> sid ->
                   queued_rows (fst left) sid' = queued_rows supabase sid')
  /\ (forall sid', map spotify_uri (seen_rows (fst left) sid')
                   = map spotify_uri (seen_rows supabase sid'))
  /\ deletePlayedSong sessionId later false spotifyUri (fst left) (snd left)
     = left.
Proof.
  intros Hs sid left. unfold left, deletePlayedSong. rewrite Hs.
  cbn [negb fst snd]. fold sid.
  assert (Hq : queued_rows
                 (with_queue supabase
                    (update_played (queue supabase) sid spotifyUri now)) sid
               = List.filter
                   (fun r => negb (String.eqb (spotify_uri r) spotifyUri))
                   (queued_rows supabase sid)).
  { unfold queued_rows. cbn [with_queue queue].
    rewrite update_played_queued.
    apply (order_filter pos_ascending (fun r => pos r <> None)).
    - apply pos_ascending_trans.
    - apply pos_ascending_total.
    - apply queued_filter_positions. }
  split; [exact Hq|]. split.
  { intros ->. rewrite Hq. apply filter_song_of_row. }
  split.
  { intros sid' Hne. unfold queued_rows. cbn [with_queue queue].
    rewrite (update_played_elsewhere _ sid sid') by exact Hne. reflexivity. }
  split.
  { intros sid'. unfold seen_rows. cbn [with_queue queue].
    apply update_played_seen. }
  unfold with_queue. cbn [queue popular_songs get_song_features
                            popular_songs_ilike failure].
  rewrite update_played_twice, filter_twice. reflexivity.
Qed.

Lemma deletePlayedSong_marks_played_witness :
  let left := deletePlayedSong (Some "session-1"%string) 8 false
                               "spotify:track:P" four_songs [song_P] in
  queued_rows (fst left) "session-1" = [row_X 1; row_Y 2; row_Z 3]
  /\ snd left = []
  /\ deletePlayedSong (Some "session-1"%string) 9 false "spotify:track:P"
                      (fst left) (snd left)
     = left.
Proof.
  intros left.
  destruct (deletePlayedSong_marks_played
              (Some "session-1"%string) 8 9 "spotify:track:P" four_songs
              [song_P] eq_refl)
    as (Hq & _ & _ & _ & Htwice).
  split; [exact Hq|]. split; [reflexivity | exact Htwice].
Defined.

Lemma pos_descending_trans (a b c : QueueRow) :
  pos_descending a b = true -> pos_descending b c = true ->
  pos_descending a c = true.
Proof.
  unfold pos_descending.
  destruct (pos a), (pos b), (pos c); try discriminate; try reflexivity.
  rewrite !Z.leb_le. lia.
Qed.

Lemma pos_descending_total (a b : QueueRow) :
  True -> True -> pos_descending a b = false -> pos_descending b a = true.
Proof.
  unfold pos_descending.
  destruct (pos a), (pos b); try discriminate; try reflexivity; intros _ _.
  rewrite Z.leb_gt, Z.leb_le. lia.
Qed.

(** The row [top_pos] reads is a row of the session no row of which comes
    before it. *)
Lemma top_pos_first (supabase : Client) (sid : string) :
  match top_pos supabase sid with
  | [] => session_rows supabase sid = []
  | p :: _ =>
      exists top,
        In top (session_rows supabase sid) /\ pos top = p
        /\ forall r, In r (session_rows supabase sid) ->
                     r = top \/ pos_descending top r = true
  end.
Proof.
  unfold top_pos. fold (session_rows supabase sid).
  pose proof (order_Permutation pos_descending (session_rows supabase sid))
    as Hperm.
  pose proof (order_sorted pos_descending (fun _ => True)
                pos_descending_trans pos_descending_total
                (session_rows supabase sid)) as Hsorted.
  destruct (order pos_descending (session_rows supabase sid)) as [|top rest].
  - cbn [firstn map]. apply Permutation_nil. exact Hperm.
  - cbn [firstn map]. exists top. split.
    + apply (Permutation_in _ Hperm). left. reflexivity.
    + split; [reflexivity|]. intros r Hr.
      apply (Permutation_in _ (Permutation_sym Hperm)) in Hr.
      destruct Hr as [<-|Hr]; [left; reflexivity|]. right.
      assert (H : StronglySorted (fun x y => pos_descending x y = true)
                                 (top :: rest)).
      { apply Hsorted. rewrite List.Forall_forall. intros; exact I. }
      apply StronglySorted_inv in H. destruct H as [_ H].
      rewrite List.Forall_forall in H. apply H, Hr.
Qed.

(** X22.  [insertSongToQueue] with a session, both calls succeeding,
    appends one queued row with the song's URI, title and artist.  Its
    position is 0 in a session without rows; it is 1 as soon as a row of the
    session has no position, as every played song does (such rows come first
    in the descending read, and null + 1 is 1); and when every row of the
    session has a position it is larger than all of them, and the queue read
    then returns what it returned followed by the new row. *)
Theorem insertSongToQueue_position
        (sessionId : option string) (fresh : string) (song : Song)
        (supabase : Client) :
  truthy sessionId = true ->
  let sid := string_of sessionId in
  let added := insertSongToQueue sessionId false false fresh song supabase in
  exists p,
    let new := mkRow fresh sid (uri song) (title song) (artist song)
                     (Some p) queued None in
    queue added = queue supabase ++ [new]
    /\ (session_rows supabase sid = [] -> p = 0%Z)
    /\ ((exists r, In r (session_rows supabase sid) /\ pos r = None) ->
        p = 1%Z)
    /\ ((forall r, In r (session_rows supabase sid) -> pos r <> None) ->
        (forall r x, In r (session_rows supabase sid) -> pos r = Some x ->
                     (x < p)%Z)
        /\ queued_rows added sid = queued_rows supabase sid ++ [new]).
Proof.
  intros Hs sid added. unfold added, insertSongToQueue. rewrite Hs.
  cbn [negb]. fold sid.
  exists (nextOrder (Some (top_pos supabase sid))). cbv zeta.
  split; [reflexivity|].
  pose proof (top_pos_first supabase sid) as Htop.
  split; [|split].
  - intros E. destruct (top_pos supabase sid) as [|p rest]; [reflexivity|].
    destruct Htop as (top & Hin & _). rewrite E in Hin. contradiction.
  - intros (r & Hr & Hnone).
    destruct (top_pos supabase sid) as [|p rest].
    { rewrite Htop in Hr. contradiction. }
    destruct Htop as (top & _ & Hp & Hbefore). cbn [nextOrder].
    destruct p as [x|]; [|reflexivity]. exfalso.
    destruct (Hbefore r Hr) as [->|H]; [congruence|].
    unfold pos_descending in H. rewrite Hp, Hnone in H. discriminate.
  - intros Hall.
    assert (Hlt : forall r x, In r (session_rows supabase sid) ->
                              pos r = Some x ->
                              (x < nextOrder (Some (top_pos supabase sid)))%Z).
    { intros r x Hr Hx.
      destruct (top_pos supabase sid) as [|p rest].
      { rewrite Htop in Hr. contradiction. }
      destruct Htop as (top & Hin & Hp & Hbefore). cbn [nextOrder].
      destruct p as [y|]; [|exfalso; apply (Hall top Hin); exact Hp].
      destruct (Hbefore r Hr) as [->|H]; [rewrite Hp in Hx; injection Hx; lia|].
      unfold pos_descending in H. rewrite Hp, Hx in H.
      apply Z.leb_le in H. lia. }
    split; [exact Hlt|].
    unfold queued_rows. cbn [with_queue queue].
    rewrite List.filter_app. cbn [List.filter session_id status pos].
    rewrite String.eqb_refl. cbn [Status_eqb andb].
    apply order_app_last.
    intros b Hb. apply filter_In in Hb. destruct Hb as [Hb Hkeep].
    apply andb_true_iff in Hkeep. destruct Hkeep as [Hkeep Hpos].
    apply andb_true_iff in Hkeep. destruct Hkeep as [Hsid _].
    assert (Hin : In b (session_rows supabase sid))
      by (apply filter_In; split; assumption).
    unfold pos_ascending. cbn [pos].
    destruct (pos b) as [y|] eqn:Hy; [|discriminate].
    apply Z.leb_le. specialize (Hlt b y Hin Hy). lia.
Qed.

Lemma insertSongToQueue_position_witness :
  exists p q,
    queue (insertSongToQueue (Some "session-1"%string) false false "n" song_P
                             four_songs)
    = queue four_songs
        ++ [mkRow "n" "session-1" "spotify:track:P" "Song P" "artist"
                  (Some p) queued None]
    /\ (3 < p)%Z
    /\ queue (insertSongToQueue (Some "session-1"%string) false false "n"
                                song_P (one_played no_failure))
       = queue (one_played no_failure)
           ++ [mkRow "n" "session-1" "spotify:track:P" "Song P" "artist"
                     (Some q) queued None]
    /\ q = 1%Z.
Proof.
  destruct (insertSongToQueue_position
              (Some "session-1"%string) "n" song_P four_songs eq_refl)
    as (p & Hp & _ & _ & Hlast).
  destruct (insertSongToQueue_position
              (Some "session-1"%string) "n" song_P (one_played no_failure)
              eq_refl)
    as (q & Hq & _ & Hone & _).
  exists p, q. split; [exact Hp|]. split.
  - destruct Hlast as [Hlt _].
    + intros r Hr.
      destruct Hr as [<-|[<-|[<-|[<-|[]]]]]; discriminate.
    + apply (Hlt (row_Z 3) 3%Z); [|reflexivity].
      right. right. right. left. reflexivity.
  - split; [exact Hq|]. apply Hone.
    exists row_W. split; [left; reflexivity | reflexivity].
Defined.

End PlayedAndAdded.

(** ** app/index.tsx: the next song *)

Section NextSong.
Import App Evening QueueOrder Bystanders.

Lemma nth_error_filter_find {A : Type} (keep : A -> bool) (l : list A) :
  nth_error (List.filter keep l) 0 = List.find keep l.
Proof.
  induction l as [|a rest IH]; [reflexivity|].
  cbn [List.filter List.find]. destruct (keep a); [reflexivity | exact IH].
Qed.

Lemma startsWith_not_empty (s : string) :
  startsWith s "spotify:track:" = true -> String.eqb s "" = false.
Proof. destruct s; [discriminate | reflexivity]. Qed.

(** [queueNextSong] without its redundant checks. *)
Lemma queueNextSong_find (accessToken : option string) (songs : list Song)
      (currentlyPlaying : option Song) :
  queueNextSong accessToken songs currentlyPlaying
  = if truthy accessToken then
      match List.find
              (fun s => match currentlyPlaying with
                        | Some playing =>
                            negb (String.eqb (uri s) (uri playing))
                        | None => true
                        end)
              songs with
      | Some next =>
          if startsWith (uri next) "spotify:track:" then Some next else None
      | None => None
      end
    else None.
Proof.
  unfold queueNextSong. destruct (truthy accessToken); [|reflexivity].
  cbn [negb].
  destruct songs as [|song rest]; [destruct currentlyPlaying; reflexivity|].
  cbn [length Nat.eqb].
  destruct currentlyPlaying as [playing|].
  - rewrite nth_error_filter_find.
    destruct (List.find _ (song :: rest)) as [next|] eqn:F; [|reflexivity].
    apply find_some in F. destruct F as [_ F].
    apply negb_true_iff in F. rewrite F.
    destruct (startsWith (uri next) "spotify:track:") eqn:E.
    + rewrite (startsWith_not_empty _ E). reflexivity.
    + rewrite orb_true_r. reflexivity.
  - cbn [nth_error List.find].
    destruct (startsWith (uri song) "spotify:track:") eqn:E.
    + rewrite (startsWith_not_empty _ E). reflexivity.
    + rewrite orb_true_r. reflexivity.
Qed.

(** X23.  [queueNextSong] asks Spotify to queue the first song of [songs]
    that does not carry the URI of the playing song, provided there is an
    access token and the URI of that song is a track URI, and nothing
    otherwise.  The song it asks for is thus never the playing one: the
    second comparison with [currentlyPlaying.uri] never decides, nor do the
    tests of an empty [songs] and of an empty URI. *)
Theorem queueNextSong_choice (accessToken : option string) (songs : list Song)
        (currentlyPlaying : option Song) :
  let differs s :=
    match currentlyPlaying with
    | Some playing => negb (String.eqb (uri s) (uri playing))
    | None => true
    end in
  queueNextSong accessToken songs currentlyPlaying
  = (if truthy accessToken then
       match List.find differs songs with
       | Some next =>
           if startsWith (uri next) "spotify:track:" then Some next else None
       | None => None
       end
     else None)
  /\ forall next,
       queueNextSong accessToken songs currentlyPlaying = Some next ->
       In next songs
       /\ startsWith (uri next) "spotify:track:" = true
       /\ forall playing, currentlyPlaying = Some playing ->
                          uri next <> uri playing.
Proof.
  intros differs. split; [apply queueNextSong_find|].
  intros next. rewrite queueNextSong_find. fold differs.
  destruct (truthy accessToken); [|discriminate].
  destruct (List.find differs songs) as [found|] eqn:F; [|discriminate].
  destruct (startsWith (uri found) "spotify:track:") eqn:E; [|discriminate].
  intros H. injection H as <-.
  apply find_some in F. destruct F as [Hin Hd].
  split; [exact Hin|]. split; [exact E|].
  intros playing ->. unfold differs in Hd.
  apply negb_true_iff, String.eqb_neq in Hd. exact Hd.
Qed.

Lemma queueNextSong_choice_witness :
  queueNextSong (Some "token"%string)
                (map song_of_row [row_P; row_X 1; row_Y 2]) (Some song_P)
  = Some (song_of_row (row_X 1)).
Proof.
  destruct (queueNextSong_choice
              (Some "token"%string)
              (map song_of_row [row_P; row_X 1; row_Y 2]) (Some song_P))
    as [H _].
  rewrite H. reflexivity.
Defined.





End NextSong.

(** ** app/index.tsx: recommendations fetched and queued *)

Section FetchedRecommendations.
Import App Evening GetRecommendations Recommending.

Lemma fetched_fold (fetchTrackDetails : string -> option Song)
      (recommendations : list RankedSong) (recommendedSongs : list Song) :
  fold_left
    (fun recommendedSongs rec =>
       let uri := convertSpotifyUrlToUri (ranked_uri rec) in
       match fetchTrackDetails uri with
       | Some fullSong => recommendedSongs ++ [fullSong]
       | None =>
           recommendedSongs
             ++ [mkSong (ranked_id rec) uri (ranked_track_name rec)
                        (ranked_artists rec)]
       end)
    recommendations recommendedSongs
  = recommendedSongs
      ++ map (fun rec =>
                match fetchTrackDetails
                        (convertSpotifyUrlToUri (ranked_uri rec)) with
                | Some fullSong => fullSong
                | None => fallback_song rec
                end)
             recommendations.
Proof.
  revert recommendedSongs.
  induction recommendations as [|rec rest IH]; intros recommendedSongs;
    cbn [fold_left map].
  - rewrite app_nil_r. reflexivity.
  - rewrite IH.
    destruct (fetchTrackDetails (convertSpotifyUrlToUri (ranked_uri rec)));
      rewrite <- app_assoc; reflexivity.
Qed.

Lemma recommendations_status (supabase : Client) (env : Env) (req : Request)
      (recs : list RankedSong) (seeds total : nat) :
  body (serve supabase env req) = Recommendations recs seeds total ->
  http_status (serve supabase env req) = 200%Z.
Proof.
  unfold serve.
  destruct (String.eqb (method req) "OPTIONS"); [discriminate|].
  unfold try_serve.
  destruct (negb (truthy (req_session_id req))); [discriminate|].
  destruct (negb (truthy (SUPABASE_URL env))
            || negb (truthy (SUPABASE_SERVICE_ROLE_KEY env))); [discriminate|].
  destruct (error (select_played supabase _)); [discriminate|].
  destruct (data (select_played supabase _)) as [[|song songs]|];
    [discriminate| |discriminate].
  destruct (length (seed_features supabase (song :: songs)) =? 0)%nat;
    [discriminate|].
  destruct (error (select_candidates supabase)); [discriminate|].
  destruct (data (select_candidates supabase)) as [[|c cs]|];
    [discriminate| |discriminate].
  destruct (length (slice0 _ _) =? 0)%nat; [discriminate | reflexivity].
Qed.

(** X25.  [fetchRecommendations] asks for one recommendation and returns at
    most one song: for each recommendation of the answer, the details Spotify
    has for its converted URI, or else the recommendation's id, converted
    URI, track name and artists; it returns no song when the answer holds no
    recommendation, whatever the reason. *)
Theorem fetchRecommendations_at_most_one
        (sessionId : option string) (fetchTrackDetails : string -> option Song)
        (env : Env) (supabase : Client) :
  let answer := serve supabase env (recommendation_request sessionId) in
  let fetched := fetchRecommendations sessionId fetchTrackDetails env supabase in
  fetched
  = map (fun rec =>
           match fetchTrackDetails (convertSpotifyUrlToUri (ranked_uri rec)) with
           | Some fullSong => fullSong
           | None => fallback_song rec
           end)
        (recommendations_of answer)
  /\ (length fetched <= 1)%nat
  /\ (length (recommendations_of answer) <= 1)%nat.
Proof.
  intros answer fetched.
  assert (Hone : (length (recommendations_of answer) <= 1)%nat).
  { unfold recommendations_of.
    destruct (body answer) as [| | |recs seeds total|] eqn:Hbody;
      cbn [length]; try lia.
    destruct (serve_recommendations _ _ _ _ _ _ Hbody) as (-> & _).
    rewrite slice0_length. cbn [limit_of recommendation_request req_limit].
    cbn [Z.ltb Z.compare]. lia. }
  assert (Hfetched : fetched
                     = map (fun rec =>
                              match fetchTrackDetails
                                      (convertSpotifyUrlToUri (ranked_uri rec)) with
                              | Some fullSong => fullSong
                              | None => fallback_song rec
                              end)
                           (recommendations_of answer)).
  { unfold fetched, fetchRecommendations. fold answer.
    destruct (truthy sessionId) eqn:Hs; cbn [negb].
    - unfold recommendations_of.
      destruct (body answer) as [| | |recs seeds total|] eqn:Hbody;
        try (destruct (ok (http_status answer)); reflexivity).
      pose proof (recommendations_status _ _ _ _ _ _ Hbody) as Hst.
      change (http_status answer = 200%Z) in Hst. rewrite Hst.
      cbn [ok Z.leb Z.compare Pos.compare Pos.compare_cont andb negb].
      destruct recs as [|rec rest]; [reflexivity|].
      cbn [length Nat.eqb]. rewrite fetched_fold. reflexivity.
    - unfold answer, serve, recommendation_request.
      cbn [method req_session_id String.eqb Ascii.eqb Bool.eqb].
      unfold try_serve. cbn [req_session_id]. rewrite Hs. reflexivity. }
  split; [exact Hfetched|]. split; [|exact Hone].
  rewrite Hfetched, length_map. exact Hone.
Qed.

Lemma played_rows_with_queued (supabase : Client) (new : QueueRow)
      (sid : string) :
  status new = queued ->
  played_rows (with_queue supabase (queue supabase ++ [new])) sid
  = played_rows supabase sid.
Proof.
  intros Hst. unfold played_rows. cbn [with_queue queue].
  rewrite List.filter_app. cbn [List.filter]. rewrite Hst.
  cbn [Status_eqb]. rewrite andb_false_r, app_nil_r. reflexivity.
Qed.

Lemma seed_features_with_queue (supabase : Client) (rows played : list QueueRow) :
  seed_features (with_queue supabase rows) played
  = seed_features supabase played.
Proof. reflexivity. Qed.

(** A queued row whose URI is no candidate's does not change the scored
    candidates. *)
Lemma score_with_queued (supabase : Client) (new : QueueRow) (sid : string)
      (centroid : AudioFeatures) (weights : Weights) :
  (forall c, In c (candidates_of supabase) -> popular_uri c <> spotify_uri new) ->
  score (exclusion_set
           (data (select_seen (with_queue supabase (queue supabase ++ [new]))
                              sid)))
        centroid weights (candidates_of supabase)
  = score (exclusion_set (data (select_seen supabase sid)))
          centroid weights (candidates_of supabase).
Proof.
  intros Hnew. rewrite !score_as_map. f_equal.
  apply List.filter_ext_in. intros c Hc. f_equal.
  unfold select_seen, respond.
  change (failure (with_queue supabase (queue supabase ++ [new])))
    with (failure supabase).
  destruct (failure supabase ReadSeen); [reflexivity|]. cbn [data].
  apply bool_decide_ext. rewrite !exclusion_set_In.
  unfold seen_rows. cbn [with_queue queue].
  rewrite List.filter_app, map_app, in_app_iff.
  split; [|intros H; left; exact H].
  intros [H|H]; [exact H|]. exfalso.
  cbn [List.filter] in H.
  destruct (String.eqb (session_id new) sid
            && (Status_eqb (status new) queued || Status_eqb (status new) played));
    [|contradiction].
  destruct H as [H|[]]. apply (Hnew c Hc). symmetry. exact H.
Qed.

Lemma insert_keeps_recommendations (supabase : Client) (new : QueueRow)
      (env : Env) (req : Request) :
  status new = queued ->
  (forall c, In c (candidates_of supabase) -> popular_uri c <> spotify_uri new) ->
  serve (with_queue supabase (queue supabase ++ [new])) env req
  = serve supabase env req.
Proof.
  intros Hst Hnew. unfold serve.
  destruct (String.eqb (method req) "OPTIONS"); [reflexivity|].
  f_equal. unfold try_serve.
  destruct (negb (truthy (req_session_id req))); [reflexivity|].
  destruct (negb (truthy (SUPABASE_URL env))
            || negb (truthy (SUPABASE_SERVICE_ROLE_KEY env))); [reflexivity|].
  unfold select_played, select_candidates, respond.
  rewrite (played_rows_with_queued supabase new _ Hst).
  change (failure (with_queue supabase (queue supabase ++ [new])))
    with (failure supabase).
  change (popular_songs (with_queue supabase (queue supabase ++ [new])))
    with (popular_songs supabase).
  destruct (failure supabase ReadPlayed); [reflexivity|]. cbn [error data].
  destruct (played_rows supabase (string_of (req_session_id req)))
    as [|first others]; [reflexivity|].
  rewrite seed_features_with_queue.
  destruct (length (seed_features supabase (first :: others)) =? 0)%nat;
    [reflexivity|].
  destruct (failure supabase ReadCandidates); [reflexivity|]. cbn [error data].
  pose proof (score_with_queued
                supabase new (string_of (req_session_id req))
                (computeCentroid (seed_features supabase (first :: others)))
                (computeDynamicWeights (seed_features supabase (first :: others))
                                       None) Hnew) as Hscore.
  unfold candidates_of in Hscore.
  destruct (firstn 1000 (popular_songs supabase)) as [|c cs]; [reflexivity|].
  rewrite Hscore. reflexivity.
Qed.

(** X26.  When popular_songs holds URLs and not track URIs, queuing a
    recommended song does not keep it from being recommended again: the song
    goes into the queue under its converted URI, the exclusion compares that
    with the URL of the candidate, and get-recommendations gives the answer
    it gave before, the same recommendation included. *)
Theorem queued_url_candidate_is_recommended_again
        (sessionId : option string) (read_fails : bool) (fresh : string)
        (env : Env) (supabase : Client) (req : Request) (rec : RankedSong) :
  truthy sessionId = true ->
  In rec (recommendations_of (serve supabase env req)) ->
  (forall c, In c (candidates_of supabase) ->
             startsWith (popular_uri c) "spotify:track:" = false) ->
  match_track (ranked_uri rec) <> None ->
  let added :=
    insertSongToQueue sessionId read_fails false fresh (fallback_song rec)
                      supabase in
  (exists q,
      In q (queue added)
      /\ session_id q = string_of sessionId /\ status q = queued
      /\ spotify_uri q = convertSpotifyUrlToUri (ranked_uri rec)
      /\ startsWith (spotify_uri q) "spotify:track:" = true)
  /\ serve added env req = serve supabase env req
  /\ In rec (recommendations_of (serve added env req)).
Proof.
  intros Hs Hrec Hurls Hmatch added.
  assert (Huri : startsWith (convertSpotifyUrlToUri (ranked_uri rec))
                            "spotify:track:" = true).
  { destruct (convert_shape (ranked_uri rec)) as [H|(_ & _ & H)];
      [exact H | contradiction]. }
  unfold added, insertSongToQueue. rewrite Hs. cbn [negb].
  set (new := mkRow fresh (string_of sessionId) (uri (fallback_song rec))
                    (title (fallback_song rec)) (artist (fallback_song rec))
                    (Some _) queued None).
  assert (Hsame : serve (with_queue supabase (queue supabase ++ [new])) env req
                  = serve supabase env req).
  { apply insert_keeps_recommendations; [reflexivity|].
    intros c Hc E. specialize (Hurls c Hc).
    rewrite E in Hurls. cbn [new spotify_uri fallback_song uri] in Hurls.
    rewrite Huri in Hurls. discriminate. }
  split; [|split; [exact Hsame | rewrite Hsame; exact Hrec]].
  exists new. split; [cbn [with_queue queue]; apply in_or_app; right; left;
                      reflexivity|].
  repeat split; try reflexivity. exact Huri.
Qed.

Lemma queued_url_candidate_is_recommended_again_witness :
  let rec := as_ranked (computeCentroid [features_120])
                       (computeDynamicWeights [features_120] None)
                       candidate_U in
  let added := insertSongToQueue (Some "session-1"%string) false false "n"
                                 (fallback_song rec) url_dataset in
  (exists q,
      In q (queue added)
      /\ session_id q = "session-1"%string /\ status q = queued
      /\ spotify_uri q = convertSpotifyUrlToUri (ranked_uri rec)
      /\ startsWith (spotify_uri q) "spotify:track:" = true)
  /\ serve added env recommend_request = serve url_dataset env recommend_request
  /\ In rec (recommendations_of (serve added env recommend_request)).
Proof.
  intros rec added.
  apply (queued_url_candidate_is_recommended_again
           (Some "session-1"%string) false "n" env url_dataset
           recommend_request rec).
  - reflexivity.
  - rewrite serve_scored;
      [ | reflexivity | reflexivity | discriminate | discriminate
        | reflexivity | discriminate ].
    cbv zeta.
    assert (Hscored : scored_of url_dataset recommend_request = [rec])
      by reflexivity.
    rewrite Hscored. cbn [JS.sort fold_right sort_insert].
    rewrite slice0_all by (cbv; discriminate).
    left. reflexivity.
  - intros c [<-|[]]. reflexivity.
  - discriminate.
Defined.

End FetchedRecommendations.

(** ** app/index.tsx and get-recommendations: the song just played *)

Section JustPlayed.
Import App Evening.

Lemma played_at_descending_trans (a b c : QueueRow) :
  played_at_descending a b = true -> played_at_descending b c = true ->
  played_at_descending a c = true.
Proof.
  unfold played_at_descending.
  destruct (played_at a), (played_at b), (played_at c);
    try discriminate; try reflexivity.
  rewrite !Z.leb_le. lia.
Qed.

Lemma played_at_descending_total (a b : QueueRow) :
  True -> True ->
  played_at_descending a b = false -> played_at_descending b a = true.
Proof.
  unfold played_at_descending.
  destruct (played_at a), (played_at b);
    try discriminate; try reflexivity; intros _ _.
  rewrite Z.leb_gt, Z.leb_le. lia.
Qed.

(** The first row of an ordered read comes before every other. *)
Lemma order_first {A : Type} (before : A -> A -> bool) (l : list A) (m : A) :
  (forall a b c, before a b = true -> before b c = true -> before a c = true) ->
  (forall a b, True -> True -> before a b = false -> before b a = true) ->
  In m l ->
  exists first rest,
    order before l = first :: rest
    /\ In first l
    /\ (first = m \/ before first m = true).
Proof.
  intros Htrans Htotal Hm.
  pose proof (order_Permutation before l) as Hperm.
  pose proof (order_sorted before (fun _ => True) Htrans Htotal l) as Hsorted.
  destruct (order before l) as [|first rest].
  - apply Permutation_nil in Hperm. subst. contradiction.
  - exists first, rest. split; [reflexivity|]. split.
    + apply (Permutation_in _ Hperm). left. reflexivity.
    + apply (Permutation_in _ (Permutation_sym Hperm)) in Hm.
      destruct Hm as [->|Hm]; [left; reflexivity|]. right.
      assert (H : StronglySorted (fun x y => before x y = true) (first :: rest)).
      { apply Hsorted. rewrite List.Forall_forall. intros; exact I. }
      apply StronglySorted_inv in H. destruct H as [_ H].
      rewrite List.Forall_forall in H. apply H, Hm.
Qed.

(** X27.  The song just played is the first seed.  After [deletePlayedSong]
    at a time later than every [played_at] of the session, for a URI that a
    queued row of the session carries, the played songs get-recommendations
    reads begin with a row of that URI, played at that time; and with a
    readable table it no longer answers that no song has been played. *)
Theorem played_song_is_first_seed
        (sessionId : option string) (now : Z) (spotifyUri : string)
        (supabase : Client) (songs : list Song) (r : QueueRow) :
  truthy sessionId = true ->
  let sid := string_of sessionId in
  In r (queue supabase) ->
  session_id r = sid -> spotify_uri r = spotifyUri -> status r = queued ->
  (forall q, In q (queue supabase) -> session_id q = sid -> status q = played ->
             exists t, played_at q = Some t /\ (t < now)%Z) ->
  let left := deletePlayedSong sessionId now false spotifyUri supabase songs in
  (exists first rest,
      played_rows (fst left) sid = first :: rest
      /\ spotify_uri first = spotifyUri
      /\ played_at first = Some now)
  /\ forall env req,
       GetRecommendations.well_formed env req = true ->
       string_of (GetRecommendations.req_session_id req) = sid ->
       failure supabase ReadPlayed = None ->
       GetRecommendations.serve (fst left) env req
       <> GetRecommendations.mkResponse 200
            (GetRecommendations.Message
               false "No played songs yet. Play some songs first!").
Proof.
  intros Hs sid Hr Hrs Hru Hrq Hold left.
  assert (Hleft : fst left
                  = with_queue supabase
                      (update_played (queue supabase) sid spotifyUri now)).
  { unfold left, deletePlayedSong. rewrite Hs. reflexivity. }
  set (marked := List.filter
                   (fun r => String.eqb (session_id r) sid
                             && Status_eqb (status r) played)
                   (update_played (queue supabase) sid spotifyUri now)).
  assert (Hm : In (mark_played now r) marked).
  { apply filter_In. split.
    - unfold update_played. apply in_map_iff. exists r. split; [|exact Hr].
      rewrite Hrs, Hru, Hrq, !String.eqb_refl. reflexivity.
    - cbn [mark_played session_id status Status_eqb].
      rewrite Hrs, String.eqb_refl. reflexivity. }
  assert (Hall : forall x, In x marked ->
                           exists t, played_at x = Some t /\ (t <= now)%Z
                                     /\ (t = now -> spotify_uri x = spotifyUri)).
  { intros x Hx. apply filter_In in Hx. destruct Hx as [Hx Hkeep].
    apply andb_true_iff in Hkeep. destruct Hkeep as [Hxs Hxp].
    apply String.eqb_eq in Hxs.
    unfold update_played in Hx. apply in_map_iff in Hx.
    destruct Hx as (q & Hq & Hin).
    destruct (String.eqb (session_id q) sid
              && String.eqb (spotify_uri q) spotifyUri
              && Status_eqb (status q) queued) eqn:E.
    - subst x. exists now. split; [reflexivity|]. split; [lia|]. intros _.
      apply andb_true_iff in E. destruct E as [E _].
      apply andb_true_iff in E. destruct E as [_ E].
      apply String.eqb_eq in E. exact E.
    - subst x. destruct (Hold q Hin Hxs) as (t & Ht & Hlt).
      + destruct (status q); [discriminate | reflexivity].
      + exists t. split; [exact Ht|]. split; lia. }
  assert (Hfirst : exists first rest,
             played_rows (fst left) sid = first :: rest
             /\ spotify_uri first = spotifyUri /\ played_at first = Some now).
  { rewrite Hleft. unfold played_rows. cbn [with_queue queue]. fold marked.
    destruct (order_first played_at_descending marked (mark_played now r)
                played_at_descending_trans played_at_descending_total Hm)
      as (first & rest & Ho & Hin & Hbefore).
    rewrite Ho. exists first, (firstn 4 rest). split; [reflexivity|].
    destruct Hbefore as [->|Hbefore]; [split; [exact Hru | reflexivity]|].
    destruct (Hall first Hin) as (t & Ht & Hle & Huri).
    unfold played_at_descending in Hbefore. rewrite Ht in Hbefore.
    cbn [mark_played played_at] in Hbefore. apply Z.leb_le in Hbefore.
    assert (t = now) by lia. subst t. split; [apply Huri; reflexivity | exact Ht]. }
  split; [exact Hfirst|].
  intros env req Hwf Hsid Hp.
  destruct Hfirst as (first & rest & Hrows & _).
  destruct (well_formed_true _ _ Hwf) as (Hmeth & Hreq & Hu & Hk).
  unfold GetRecommendations.serve. rewrite Hmeth.
  unfold GetRecommendations.try_serve. rewrite Hreq, Hu, Hk.
  cbn [negb orb]. unfold select_played, respond.
  rewrite Hsid, Hrows, Hleft.
  change (failure (with_queue supabase _)) with (failure supabase).
  rewrite Hp. cbn [error data].
  destruct (length (GetRecommendations.seed_features _ (first :: rest)) =? 0)%nat;
    [discriminate|].
  destruct (error (select_candidates _)); [discriminate|].
  destruct (data (select_candidates _)) as [[|c cs]|]; try discriminate.
  destruct (length (slice0 _ _) =? 0)%nat; discriminate.
Qed.

Lemma played_song_is_first_seed_witness :
  let left := deletePlayedSong (Some "session-1"%string) 8 false
                               "spotify:track:X" (one_played no_failure) [] in
  exists first rest,
    played_rows (fst left) "session-1" = first :: rest
    /\ spotify_uri first = "spotify:track:X"%string
    /\ played_at first = Some 8%Z.
Proof.
  intros left.
  destruct (played_song_is_first_seed
              (Some "session-1"%string) 8 "spotify:track:X"
              (one_played no_failure) [] (row_X 0)) as [H _].
  - reflexivity.
  - right. left. reflexivity.
  - reflexivity.
  - reflexivity.
  - reflexivity.
  - intros q [<-|[<-|[]]] _ Hst; [|discriminate Hst].
    exists 7%Z. split; [reflexivity | lia].
  - exact H.
Defined.

End JustPlayed.
